(** * fingerprint-converter: a shallow embedding of the request pipeline

    The development follows the Go packages of the service:
    [pool] (buffer pool), [cache] (per-device cache with its deleters),
    [services] (downloader, audio, image and video converters) and
    [handlers] (the /api/convert pipeline).  Integers of fixed width are
    [Z] with the wrap-around written out, instants and durations are [Z]
    nanoseconds, Go maps are [gmap]s, and [float64] is Rocq's primitive
    binary64.  The network, the transcoder processes, the disk's refusals,
    the random generator, the errors of [c.SendFile] and the Unicode case
    tables of the runtime are the fields of [services.externals]; the
    clock readings of a request are the fields of [handlers.clock]. *)

From Stdlib Require Import ZArith Lia Floats Uint63 Ascii String List.
From stdpp Require Import gmap strings list.

Set Warnings "-inexact-float".
Local Open Scope Z_scope.

(** ** Go runtime values shared by all packages *)

Module go.

(** Two's complement wrap-around of a [w]-bit signed integer. *)
Definition wrap (w : Z) (x : Z) : Z :=
  (x + 2 ^ (w - 1)) mod 2 ^ w - 2 ^ (w - 1).

Definition int32_add (x y : Z) : Z := wrap 32 (x + y).
Definition int64_add (x y : Z) : Z := wrap 64 (x + y).


(** A call either returns or panics (run-time error, explicit panic). *)
Inductive outcome (A : Type) : Type :=
| Ret (a : A)
| Panic (msg : string).
Arguments Ret {A} a.
Arguments Panic {A} msg.

(** The header of a [[]byte]: the pool never looks at the contents of a
    buffer, only at whether it is nil, its length and its capacity. *)
Record slice : Type := mkSlice { is_nil : bool; len : Z; cap : Z }.

(** The largest allocation the runtime accepts on linux/amd64 (48 bits of
    heap address). *)
Definition maxAlloc : Z := 2 ^ 48.

(** [make([]byte, n)]: a negative length or one above the allocation
    limit is a run-time panic.  Within the limit the memory is granted:
    running out of it is a fatal error that ends the process, not a
    panic. *)
Definition make (n : Z) : outcome slice :=
  if (n <? 0) || (maxAlloc <? n) then Panic "makeslice: len out of range"
  else Ret (mkSlice false n n).

(** [buf[:n]]: re-slicing within the capacity, a panic outside of it. *)
Definition reslice (buf : slice) (n : Z) : outcome slice :=
  if (n <? 0) || (cap buf <? n) then Panic "slice bounds out of range"
  else Ret (mkSlice (is_nil buf) n (cap buf)).

(** *** time: instants and durations in nanoseconds *)

Definition Second : Z := 1000000000.
Definition Minute : Z := 60 * Second.

(** [t.Add(d)], [t.After(u)] and [t.Unix()]. *)
Definition Add (t d : Z) : Z := t + d.
Definition After (t u : Z) : bool := u <? t.
Definition Unix (t : Z) : Z := t / Second.

(** *** strings and bytes *)

Definition bytes : Type := list Byte.byte.

Definition byte_of_Z (z : Z) : Byte.byte :=
  match Byte.of_N (Z.to_N (z mod 256)) with
  | Some b => b
  | None => Byte.x00
  end.

Definition HasPrefix (s p : string) : bool := String.prefix p s.

Definition HasSuffix (s suf : string) : bool :=
  let n := String.length s in
  let k := String.length suf in
  (k <=? n)%nat && String.eqb (String.substring (n - k) k s) suf.

Definition TrimSuffix (s suf : string) : string :=
  if HasSuffix s suf
  then String.substring 0 (String.length s - String.length suf) s
  else s.

(** [strings.ToLower].  A string of ASCII bytes only is lower-cased byte
    by byte; a string with a byte of 0x80 or above goes through
    [strings.Map(unicode.ToLower, s)], which decodes it and consults the
    case tables of the runtime: [unicode_lower] is that function. *)
Definition lower_ascii (c : ascii) : ascii :=
  let n := nat_of_ascii c in
  if ((65 <=? n) && (n <=? 90))%nat then ascii_of_nat (n + 32) else c.

Fixpoint lower_bytes (s : string) : string :=
  match s with
  | EmptyString => EmptyString
  | String c r => String (lower_ascii c) (lower_bytes r)
  end.

Definition isASCII (s : string) : bool :=
  forallb (fun c => (nat_of_ascii c <? 128)%nat) (list_ascii_of_string s).

Definition ToLower (unicode_lower : string -> string) (s : string) : string :=
  if isASCII s then lower_bytes s else unicode_lower s.

(** [strconv.Itoa]. *)
Definition digit_char (d : Z) : ascii := ascii_of_nat (48 + Z.to_nat d).

Fixpoint utoa_aux (fuel : nat) (n : Z) (acc : string) : string :=
  match fuel with
  | O => acc
  | S f =>
      let acc' := String (digit_char (n mod 10)) acc in
      if n <? 10 then acc' else utoa_aux f (n / 10) acc'
  end.

Definition Itoa (n : Z) : string :=
  if n <? 0
  then String "-" (utoa_aux (S (Z.to_nat (Z.log2 (- n)))) (- n) EmptyString)
  else utoa_aux (S (Z.to_nat (Z.log2 n))) n EmptyString.

(** *** path/filepath on a Unix host *)

Definition slash : ascii := "/"%char.
Definition dot : ascii := "."%char.

(** [filepath.Ext]: scan back from the end to the last dot of the final
    path element. *)
Fixpoint ext_scan (rev_path : list ascii) (acc : list ascii) : list ascii :=
  match rev_path with
  | [] => []
  | c :: r =>
      if Ascii.eqb c slash then []
      else if Ascii.eqb c dot then c :: acc
      else ext_scan r (c :: acc)
  end.

Definition Ext (path : string) : string :=
  string_of_list_ascii (ext_scan (rev (list_ascii_of_string path)) []).

(** The backtracking loop of [filepath.Clean] on a [..] element:
    [out.w--], then further back while the byte at [out.w] is not a
    separator and [out.w] is above [dotdot]. *)
Fixpoint backtrack (rev_out : list ascii) (w dotdot : nat) : list ascii :=
  match rev_out with
  | [] => []
  | c :: r =>
      if ((dotdot <? w - 1)%nat && negb (Ascii.eqb c slash))
      then backtrack r (w - 1)%nat dotdot
      else r
  end.

(** Copy one path element to the (reversed) output. *)
Fixpoint copy_elem (p : list ascii) (rev_out : list ascii)
  : list ascii * list ascii :=
  match p with
  | [] => ([], rev_out)
  | c :: r =>
      if Ascii.eqb c slash then (p, rev_out)
      else copy_elem r (c :: rev_out)
  end.

Definition at_elem_end (p : list ascii) : bool :=
  match p with
  | [] => true
  | c :: _ => Ascii.eqb c slash
  end.

(** The main loop of [filepath.Clean]; [p] is the unread input and
    [rev_out] the output buffer, last byte first. *)
Fixpoint clean_loop (fuel : nat) (rooted : bool) (p rev_out : list ascii)
    (dotdot : nat) : list ascii :=
  match fuel with
  | O => rev_out
  | S f =>
      match p with
      | [] => rev_out
      | c :: r =>
          if Ascii.eqb c slash then clean_loop f rooted r rev_out dotdot
          else if Ascii.eqb c dot && at_elem_end r
          then clean_loop f rooted r rev_out dotdot
          else if Ascii.eqb c dot
                  && match r with
                     | c2 :: r2 => Ascii.eqb c2 dot && at_elem_end r2
                     | [] => false
                     end
          then
            let r2 := tl r in
            let w := length rev_out in
            if (dotdot <? w)%nat
            then clean_loop f rooted r2 (backtrack rev_out w dotdot) dotdot
            else if negb rooted
            then
              let out1 := if (0 <? w)%nat then slash :: rev_out else rev_out in
              let out2 := dot :: dot :: out1 in
              clean_loop f rooted r2 out2 (length out2)
            else clean_loop f rooted r2 rev_out dotdot
          else
            let w := length rev_out in
            let out1 :=
              if (rooted && negb (w =? 1)%nat) || (negb rooted && negb (w =? 0)%nat)
              then slash :: rev_out else rev_out in
            let '(rest, out2) := copy_elem p out1 in
            clean_loop f rooted rest out2 dotdot
      end
  end.

Definition Clean (path : string) : string :=
  match list_ascii_of_string path with
  | [] => "."%string
  | c :: r =>
      let rooted := Ascii.eqb c slash in
      let out :=
        if rooted then clean_loop (S (length r)) true r [slash] 1
        else clean_loop (S (S (length r))) false (c :: r) [] 0 in
      match out with
      | [] => "."%string
      | _ => string_of_list_ascii (rev out)
      end
  end.

(** [filepath.Join] of a directory and a file name. *)
Definition Join (dir name : string) : string :=
  match dir, name with
  | EmptyString, EmptyString => EmptyString
  | EmptyString, _ => Clean name
  | _, EmptyString => Clean dir
  | _, _ => Clean (dir ++ "/" ++ name)
  end.

(** *** crypto/md5 and encoding/hex *)

Definition w32 (x : Z) : Z := x mod 2 ^ 32.
Definition not32 (x : Z) : Z := Z.lxor x 0xffffffff.
Definition rotl32 (x s : Z) : Z :=
  w32 (Z.lor (Z.shiftl x s) (Z.shiftr x (32 - s))).

Definition md5_K : list Z :=
  [ 0xd76aa478; 0xe8c7b756; 0x242070db; 0xc1bdceee;
    0xf57c0faf; 0x4787c62a; 0xa8304613; 0xfd469501;
    0x698098d8; 0x8b44f7af; 0xffff5bb1; 0x895cd7be;
    0x6b901122; 0xfd987193; 0xa679438e; 0x49b40821;
    0xf61e2562; 0xc040b340; 0x265e5a51; 0xe9b6c7aa;
    0xd62f105d; 0x02441453; 0xd8a1e681; 0xe7d3fbc8;
    0x21e1cde6; 0xc33707d6; 0xf4d50d87; 0x455a14ed;
    0xa9e3e905; 0xfcefa3f8; 0x676f02d9; 0x8d2a4c8a;
    0xfffa3942; 0x8771f681; 0x6d9d6122; 0xfde5380c;
    0xa4beea44; 0x4bdecfa9; 0xf6bb4b60; 0xbebfbc70;
    0x289b7ec6; 0xeaa127fa; 0xd4ef3085; 0x04881d05;
    0xd9d4d039; 0xe6db99e5; 0x1fa27cf8; 0xc4ac5665;
    0xf4292244; 0x432aff97; 0xab9423a7; 0xfc93a039;
    0x655b59c3; 0x8f0ccc92; 0xffeff47d; 0x85845dd1;
    0x6fa87e4f; 0xfe2ce6e0; 0xa3014314; 0x4e0811a1;
    0xf7537e82; 0xbd3af235; 0x2ad7d2bb; 0xeb86d391 ].

Definition md5_S : list Z :=
  [ 7; 12; 17; 22; 7; 12; 17; 22; 7; 12; 17; 22; 7; 12; 17; 22;
    5; 9; 14; 20; 5; 9; 14; 20; 5; 9; 14; 20; 5; 9; 14; 20;
    4; 11; 16; 23; 4; 11; 16; 23; 4; 11; 16; 23; 4; 11; 16; 23;
    6; 10; 15; 21; 6; 10; 15; 21; 6; 10; 15; 21; 6; 10; 15; 21 ].

Definition md5_state : Type := (Z * Z * Z * Z)%type.

Definition md5_round (M : list Z) (st : md5_state) (i : nat) : md5_state :=
  let '(a, b, c, d) := st in
  let iz := Z.of_nat i in
  let '(f, g) :=
    if iz <? 16 then (Z.lor (Z.land b c) (Z.land (not32 b) d), iz)
    else if iz <? 32
    then (Z.lor (Z.land d b) (Z.land (not32 d) c), (5 * iz + 1) mod 16)
    else if iz <? 48 then (Z.lxor (Z.lxor b c) d, (3 * iz + 5) mod 16)
    else (Z.lxor c (Z.lor b (not32 d)), (7 * iz) mod 16) in
  let f' := w32 (f + a + nth i md5_K 0 + nth (Z.to_nat g) M 0) in
  (d, w32 (b + rotl32 f' (nth i md5_S 0)), b, c).

(** Little-endian 32-bit words of a block. *)
Fixpoint le_words (n : nat) (bs : list Z) : list Z :=
  match n with
  | O => []
  | S k =>
      match bs with
      | b0 :: b1 :: b2 :: b3 :: rest =>
          (b0 + 256 * b1 + 65536 * b2 + 16777216 * b3) :: le_words k rest
      | _ => []
      end
  end.

Definition md5_block (st : md5_state) (block : list Z) : md5_state :=
  let M := le_words 16 block in
  let '(a0, b0, c0, d0) := st in
  let '(a, b, c, d) := fold_left (md5_round M) (seq 0 64) st in
  (w32 (a0 + a), w32 (b0 + b), w32 (c0 + c), w32 (d0 + d)).

Fixpoint md5_blocks (fuel : nat) (st : md5_state) (bs : list Z) : md5_state :=
  match fuel with
  | O => st
  | S f =>
      match bs with
      | [] => st
      | _ => md5_blocks f (md5_block st (firstn 64 bs)) (skipn 64 bs)
      end
  end.

Definition le_bytes (n : nat) (x : Z) : list Z :=
  map (fun i => Z.shiftr x (8 * Z.of_nat i) mod 256) (seq 0 n).

Definition md5_pad (msg : list Z) : list Z :=
  let l := Z.of_nat (length msg) in
  msg ++ [128] ++ repeat 0 (Z.to_nat ((55 - l) mod 64))
      ++ le_bytes 8 ((8 * l) mod 2 ^ 64).

Definition md5_Sum (msg : list Z) : list Z :=
  let padded := md5_pad msg in
  let '(a, b, c, d) :=
    md5_blocks (length padded) (0x67452301, 0xefcdab89, 0x98badcfe, 0x10325476)
      padded in
  le_bytes 4 a ++ le_bytes 4 b ++ le_bytes 4 c ++ le_bytes 4 d.

Definition hex_digit (d : Z) : ascii :=
  if d <? 10 then ascii_of_nat (48 + Z.to_nat d)
  else ascii_of_nat (87 + Z.to_nat d).

(** [hex.EncodeToString]. *)
Fixpoint EncodeToString (bs : list Z) : string :=
  match bs with
  | [] => EmptyString
  | b :: r => String (hex_digit (b / 16)) (String (hex_digit (b mod 16))
                (EncodeToString r))
  end.

Definition string_bytes (s : string) : list Z :=
  map (fun c => Z.of_nat (nat_of_ascii c)) (list_ascii_of_string s).

(** *** encoding/base64, [StdEncoding.DecodeString] *)

Definition b64_val (c : ascii) : option Z :=
  let n := Z.of_nat (nat_of_ascii c) in
  if (65 <=? n) && (n <=? 90) then Some (n - 65)
  else if (97 <=? n) && (n <=? 122) then Some (n - 71)
  else if (48 <=? n) && (n <=? 57) then Some (n + 4)
  else if n =? 43 then Some 62
  else if n =? 47 then Some 63
  else None.

Definition is_pad (c : ascii) : bool := Ascii.eqb c "="%char.

(** Quantum by quantum; padding is only accepted in the last quantum. *)
Fixpoint b64_quanta (fuel : nat) (cs : list ascii) : option (list Z) :=
  match fuel with
  | O => None
  | S f =>
      match cs with
      | [] => Some []
      | c1 :: c2 :: c3 :: c4 :: rest =>
          match b64_val c1, b64_val c2 with
          | Some v1, Some v2 =>
              match b64_val c3, b64_val c4, rest with
              | Some v3, Some v4, _ =>
                  let n := 262144 * v1 + 4096 * v2 + 64 * v3 + v4 in
                  match b64_quanta f rest with
                  | Some tl =>
                      Some (n / 65536 :: (n / 256) mod 256 :: n mod 256 :: tl)
                  | None => None
                  end
              | Some v3, None, [] =>
                  if is_pad c4
                  then let n := 262144 * v1 + 4096 * v2 + 64 * v3 in
                       Some [n / 65536; (n / 256) mod 256]
                  else None
              | None, _, [] =>
                  if is_pad c3 && is_pad c4
                  then Some [(262144 * v1 + 4096 * v2) / 65536]
                  else None
              | _, _, _ => None
              end
          | _, _ => None
          end
      | _ => None
      end
  end.

Definition is_newline (c : ascii) : bool :=
  Ascii.eqb c "010"%char || Ascii.eqb c "013"%char.

Definition DecodeString (s : string) : option bytes :=
  let cs := filter (fun c => negb (is_newline c)) (list_ascii_of_string s) in
  match b64_quanta (S (length cs)) cs with
  | Some zs => Some (map byte_of_Z zs)
  | None => None
  end.

(** *** float64 *)

(** [float64(n)] for a Go [int] above the smallest [int64]. *)
Definition float_of_int (n : Z) : float :=
  if n <? 0 then PrimFloat.opp (PrimFloat.of_uint63 (Uint63.of_Z (- n)))
  else PrimFloat.of_uint63 (Uint63.of_Z n).

(** [int(x)]: truncation toward zero; a NaN, an infinity or a value out
    of range converts to the smallest [int64], as on amd64. *)
Definition int_of_float (x : float) : Z :=
  match Prim2SF x with
  | S754_zero _ => 0
  | S754_finite s m e =>
      let mag := if 0 <=? e then Zpos m * 2 ^ e else Zpos m / 2 ^ (- e) in
      let v := if s then - mag else mag in
      if (- 2 ^ 63 <=? v) && (v <? 2 ^ 63) then v else - 2 ^ 63
  | _ => - 2 ^ 63
  end.

(** *** math/rand: the process-global generator

    The generator is a tape of raw draws and a read position; [Intn n]
    reduces the next raw draw to [[0, n)] and panics for [n <= 0]. *)

Definition Intn (tape : nat -> Z) (n : Z) (pos : nat) : outcome (Z * nat) :=
  if n <=? 0 then Panic "invalid argument to Intn"
  else Ret (tape pos mod n, S pos).

(** *** io: readers

    A reader yields [r_data] and then ends, cleanly ([r_err = None], EOF)
    or with an error. *)
Record Reader : Type := mkReader { r_data : bytes; r_err : option string }.

Definition ErrUnexpectedEOF : string := "unexpected EOF".
Definition EOF : string := "EOF".

(** [io.ReadFull(r, buf)] with [len(buf) = n]: the bytes read and the
    error, if any. *)
Definition ReadFull (r : Reader) (n : Z) : bytes * option string :=
  let got := firstn (Z.to_nat n) (r_data r) in
  if n <=? Z.of_nat (length (r_data r)) then (got, None)
  else
    match got, r_err r with
    | [], None => ([], Some EOF)
    | _ :: _, None => (got, Some ErrUnexpectedEOF)
    | _, Some e => (got, Some e)
    end.

(** [io.ReadAll(io.LimitReader(r, n))]. *)
Definition ReadAll_Limit (r : Reader) (n : Z) : bytes * option string :=
  if n <=? 0 then ([], None)
  else if n <=? Z.of_nat (length (r_data r))
  then (firstn (Z.to_nat n) (r_data r), None)
  else (r_data r, r_err r).

(** [filepath.Base]. *)
Fixpoint drop_slashes (rev_path : list ascii) : list ascii :=
  match rev_path with
  | c :: r => if Ascii.eqb c slash then drop_slashes r else rev_path
  | [] => []
  end.

Fixpoint last_elem (rev_path : list ascii) (acc : list ascii) : list ascii :=
  match rev_path with
  | [] => acc
  | c :: r => if Ascii.eqb c slash then acc else last_elem r (c :: acc)
  end.

Definition Base (path : string) : string :=
  match list_ascii_of_string path with
  | [] => "."%string
  | cs =>
      match drop_slashes (rev cs) with
      | [] => "/"%string
      | rp => string_of_list_ascii (last_elem rp [])
      end
  end.

(** *** os: regular files by path *)

Definition files : Type := gmap string bytes.

Definition Stat (fs : files) (path : string) : option Z :=
  match fs !! path with
  | Some data => Some (Z.of_nat (length data))
  | None => None
  end.

(** What can go wrong in [os.WriteFile]: the open fails and the disk is
    untouched, or the file has been created or truncated and the write
    (or the close) fails after [written] bytes. *)
Inductive write_fault : Type :=
| OpenFailed (e : string)
| WriteFailed (e : string) (written : nat).

(** [os.WriteFile]: the error, if any, and the files it leaves. *)
Definition WriteFile (fault : option write_fault) (fs : files)
    (path : string) (data : bytes) : option string * files :=
  match fault with
  | None => (None, <[path := data]> fs)
  | Some (OpenFailed e) => (Some e, fs)
  | Some (WriteFailed e written) => (Some e, <[path := firstn written data]> fs)
  end.

(** [os.Remove] of a regular file.  The system may refuse ([denied]: an
    error other than "not exist", such as missing permissions), and then
    nothing changes. *)
Inductive remove_result : Type :=
| Removed (fs' : files)
| ErrNotExist
| RemoveFailed.

Definition Remove (denied : bool) (fs : files) (path : string)
  : remove_result :=
  if denied then RemoveFailed
  else
    match fs !! path with
    | Some _ => Removed (delete path fs)
    | None => ErrNotExist
    end.

End go.

(** ** internal/pool/buffer_pool.go *)

Module pool.
Import go.

(** [sync.Pool] keeps the released buffers in [reserve].  The counters are
    the atomics of the Go struct. *)
Record BufferPool : Type := mkBufferPool {
  reserve : list slice;
  size : Z;
  allocated : Z;
  inUse : Z;
  hits : Z;
  misses : Z
}.

(** Where an acquisition was served from; the Go code does not return
    this, the pool's [New] hook running or not decides it. *)
Inductive source : Type := FromReserve | FromFactory.

Definition set_reserve (r : list slice) (bp : BufferPool) : BufferPool :=
  mkBufferPool r (size bp) (allocated bp) (inUse bp) (hits bp) (misses bp).

(** The [New] hook installed by [NewBufferPool]. *)
Definition factory (bp : BufferPool) : outcome (slice * BufferPool) :=
  let bp1 := mkBufferPool (reserve bp) (size bp)
               (int32_add (allocated bp) 1) (inUse bp) (hits bp)
               (int64_add (misses bp) 1) in
  match make (size bp) with
  | Ret b => Ret (b, bp1)
  | Panic m => Panic m
  end.

(** [sync.Pool.Get]: an item of the reserve, or the [New] hook.  The Go
    runtime may treat a non-empty pool as empty (per-P caches, garbage
    collection); [serve] is that choice. *)
Definition sync_Pool_Get (serve : bool) (bp : BufferPool)
  : outcome (slice * source * BufferPool) :=
  match serve, reserve bp with
  | true, b :: rest => Ret (b, FromReserve, set_reserve rest bp)
  | _, _ =>
      match factory bp with
      | Ret (b, bp') => Ret (b, FromFactory, bp')
      | Panic m => Panic m
      end
  end.

Definition sync_Pool_Put (b : slice) (bp : BufferPool) : BufferPool :=
  set_reserve (b :: reserve bp) bp.

(** The pre-allocation loop of [NewBufferPool]. *)
Fixpoint prealloc (count : nat) (sz : Z) (bp : BufferPool) : BufferPool :=
  match count with
  | O => bp
  | S n =>
      let bp' := prealloc n sz bp in
      mkBufferPool (mkSlice false sz sz :: reserve bp') (size bp')
        (int32_add (allocated bp') 1) (inUse bp') (hits bp') (misses bp')
  end.

(** [NewBufferPool]: [make([][]byte, count)], whose elements are slice
    headers of 24 bytes, and then one [make([]byte, size)] per buffer. *)
Definition NewBufferPool (count sz : Z) : outcome BufferPool :=
  if (count <? 0) || (maxAlloc <? 24 * count)
  then Panic "makeslice: len out of range"
  else if (0 <? count) && ((sz <? 0) || (maxAlloc <? sz))
  then Panic "makeslice: len out of range"
  else Ret (prealloc (Z.to_nat count) sz (mkBufferPool [] sz 0 0 0 0)).

Definition Get (serve : bool) (bp : BufferPool)
  : outcome (slice * source * BufferPool) :=
  let bp1 := mkBufferPool (reserve bp) (size bp) (allocated bp)
               (int32_add (inUse bp) 1) (int64_add (hits bp) 1)
               (misses bp) in
  sync_Pool_Get serve bp1.

Definition Put (buf : slice) (bp : BufferPool) : outcome BufferPool :=
  if is_nil buf || (cap buf <? size bp) then Ret bp
  else
    match reslice buf (size bp) with
    | Panic m => Panic m
    | Ret buf' =>
        let bp1 := mkBufferPool (reserve bp) (size bp) (allocated bp)
                     (int32_add (inUse bp) (-1)) (hits bp) (misses bp) in
        Ret (sync_Pool_Put buf' bp1)
    end.

(** [GetSized]; [None] as source when the buffer is a fresh allocation
    that never went through the pool. *)
Definition GetSized (serve : bool) (n : Z) (bp : BufferPool)
  : outcome (slice * option source * BufferPool) :=
  if n <=? size bp then
    match Get serve bp with
    | Panic m => Panic m
    | Ret (buf, src, bp') =>
        match reslice buf n with
        | Panic m => Panic m
        | Ret b => Ret (b, Some src, bp')
        end
    end
  else
    let bp1 := mkBufferPool (reserve bp) (size bp) (allocated bp)
                 (int32_add (inUse bp) 1) (hits bp) (misses bp) in
    match make n with
    | Panic m => Panic m
    | Ret b => Ret (b, None, bp1)
    end.

Definition PutSized (buf : slice) (bp : BufferPool) : outcome BufferPool :=
  if size bp <=? cap buf then Put buf bp
  else Ret (mkBufferPool (reserve bp) (size bp) (allocated bp)
              (int32_add (inUse bp) (-1)) (hits bp) (misses bp)).

(** [BufferPoolStats] without the floating-point hit rate. *)
Record BufferPoolStats : Type := mkStats {
  Allocated : Z;
  InUse : Z;
  Available : Z;
  Hits : Z;
  Misses : Z
}.

Definition GetStats (bp : BufferPool) : BufferPoolStats :=
  mkStats (allocated bp) (inUse bp)
    (wrap 32 (allocated bp - inUse bp)) (hits bp) (misses bp).

(** A run of the pool: the acquisitions and releases of its clients. *)
Inductive call : Type :=
| CallGet (serve : bool)
| CallGetSized (serve : bool) (n : Z)
| CallPut (buf : slice)
| CallPutSized (buf : slice).

(** What a run has really done, counted from outside the pool. *)
Record tally : Type := mkTally {
  acquisitions : Z;
  from_reserve : Z;
  from_factory : Z
}.

Definition tally0 : tally := mkTally 0 0 0.

(** What the counters of the source really count. *)
Definition counters_agree (bp : BufferPool) (t : tally) : Prop :=
  hits bp = wrap 64 (from_reserve t + from_factory t)
  /\ misses bp = wrap 64 (from_factory t).

(** What every pool keeps of its counter [allocated]: it is an [int32],
    and once a buffer has been allocated, [size] is a length that [make]
    accepts. *)
Definition allocated_ok (bp : BufferPool) : Prop :=
  - 2 ^ 31 <= allocated bp < 2 ^ 31
  /\ (0 < allocated bp -> size bp <= maxAlloc).

(** A well-formed pool: the buffers of the reserve have a capacity of at
    least [size], and [allocated] is as every pool keeps it. *)
Definition wf (bp : BufferPool) : Prop :=
  0 <= size bp /\ Forall (fun b => size bp <= cap b) (reserve bp)
  /\ allocated_ok bp.

(** What [Put] lets into the reserve: buffers that are not nil, re-sliced
    to [size], with a capacity of at least [size]. *)
Definition pooled (bp : BufferPool) (b : slice) : Prop :=
  is_nil b = false /\ len b = size bp /\ size bp <= cap b.

Definition sound (bp : BufferPool) : Prop :=
  0 <= size bp /\ Forall (pooled bp) (reserve bp) /\ allocated_ok bp.

Definition count_source (s : option source) (t : tally) : tally :=
  match s with
  | Some FromReserve =>
      mkTally (acquisitions t + 1) (from_reserve t + 1) (from_factory t)
  | Some FromFactory =>
      mkTally (acquisitions t + 1) (from_reserve t) (from_factory t + 1)
  | None => mkTally (acquisitions t + 1) (from_reserve t) (from_factory t)
  end.

Definition step (c : call) (st : BufferPool * tally)
  : outcome (BufferPool * tally) :=
  let '(bp, t) := st in
  match c with
  | CallGet serve =>
      match Get serve bp with
      | Ret (_, src, bp') => Ret (bp', count_source (Some src) t)
      | Panic m => Panic m
      end
  | CallGetSized serve n =>
      match GetSized serve n bp with
      | Ret (_, src, bp') => Ret (bp', count_source src t)
      | Panic m => Panic m
      end
  | CallPut buf =>
      match Put buf bp with
      | Ret bp' => Ret (bp', t)
      | Panic m => Panic m
      end
  | CallPutSized buf =>
      match PutSized buf bp with
      | Ret bp' => Ret (bp', t)
      | Panic m => Panic m
      end
  end.

Fixpoint run (cs : list call) (st : BufferPool * tally)
  : outcome (BufferPool * tally) :=
  match cs with
  | [] => Ret st
  | c :: rest =>
      match step c st with
      | Ret st' => run rest st'
      | Panic m => Panic m
      end
  end.

End pool.

(** ** internal/cache/device_cache.go *)

Module cache.
Import go.

Record CacheEntry : Type := mkCacheEntry {
  ProcessedPath : string;
  CacheExpires : Z;
  FileExpires : Z;
  Created : Z;
  Uses : Z;
  Size : Z;
  MediaType : string;
  URL : string
}.

Record CacheStats : Type := mkCacheStats {
  Hits : Z;
  Misses : Z;
  Evictions : Z
}.

(** The map of the Go struct holds pointers to entries; every entry is
    reachable through one map slot only, so the slot holds the entry. *)
Record DeviceCache : Type := mkDeviceCache {
  cache : gmap string (gmap string CacheEntry);
  cacheTTL : Z;
  fileTTL : Z;
  cacheDir : string;
  stats : CacheStats
}.

Definition set_cache (m : gmap string (gmap string CacheEntry))
    (dc : DeviceCache) : DeviceCache :=
  mkDeviceCache m (cacheTTL dc) (fileTTL dc) (cacheDir dc) (stats dc).

Definition set_stats (s : CacheStats) (dc : DeviceCache) : DeviceCache :=
  mkDeviceCache (cache dc) (cacheTTL dc) (fileTTL dc) (cacheDir dc) s.

Definition hashURL (url : string) : string :=
  EncodeToString (md5_Sum (string_bytes url)).

Definition NewDeviceCache (dir : string) (cTTL fTTL : Z) : DeviceCache :=
  let cTTL := if cTTL <=? 0 then 28 * Minute else cTTL in
  let fTTL := if fTTL <=? 0 then 30 * Minute else fTTL in
  mkDeviceCache ∅ cTTL fTTL dir (mkCacheStats 0 0 0).

Definition recordHit (dc : DeviceCache) : DeviceCache :=
  let s := stats dc in
  set_stats (mkCacheStats (int64_add (Hits s) 1) (Misses s) (Evictions s)) dc.

Definition recordMiss (dc : DeviceCache) : DeviceCache :=
  let s := stats dc in
  set_stats (mkCacheStats (Hits s) (int64_add (Misses s) 1) (Evictions s)) dc.

Definition bump_uses (e : CacheEntry) : CacheEntry :=
  mkCacheEntry (ProcessedPath e) (CacheExpires e) (FileExpires e)
    (Created e) (int64_add (Uses e) 1) (Size e) (MediaType e) (URL e).

(** [Get]; [now] is what [time.Now()] returns at the expiry check. *)
Definition Get (now : Z) (deviceID url : string) (dc : DeviceCache)
  : option CacheEntry * DeviceCache :=
  let urlHash := hashURL url in
  match cache dc !! deviceID with
  | None => (None, recordMiss dc)
  | Some deviceCache =>
      match deviceCache !! urlHash with
      | None => (None, recordMiss dc)
      | Some entry =>
          if After now (CacheExpires entry) then (None, recordMiss dc)
          else
            let entry' := bump_uses entry in
            let dc' :=
              set_cache (<[deviceID := <[urlHash := entry']> deviceCache]>
                           (cache dc)) dc in
            (Some entry', recordHit dc')
      end
  end.

(** A goroutine started by [Set], asleep in [scheduleFileDeletion]. *)
Record deleter : Type := mkDeleter {
  d_deviceID : string;
  d_urlHash : string;
  d_filePath : string;
  d_ttl : Z;
  d_armed : Z
}.

(** [Set]; [now] is its [time.Now()].  The Go method always returns a nil
    error; the deleter is the goroutine it starts. *)
Definition Set_ (now : Z) (deviceID url processedPath mediaType : string)
    (fileSize : Z) (dc : DeviceCache) : DeviceCache * deleter :=
  let urlHash := hashURL url in
  let deviceCache := default ∅ (cache dc !! deviceID) in
  let entry :=
    mkCacheEntry processedPath (Add now (cacheTTL dc)) (Add now (fileTTL dc))
      now 0 fileSize mediaType url in
  (set_cache (<[deviceID := <[urlHash := entry]> deviceCache]> (cache dc)) dc,
   mkDeleter deviceID urlHash processedPath (fileTTL dc) now).

(** The body of [scheduleFileDeletion] after its [time.Sleep]; [denied]
    says whether the system refuses the removal of the file. *)
Definition scheduleFileDeletion (denied : bool) (d : deleter)
    (dc : DeviceCache) (fs : files) : DeviceCache * files :=
  let dc1 :=
    match cache dc !! d_deviceID d with
    | Some deviceCache =>
        let deviceCache' := delete (d_urlHash d) deviceCache in
        if decide (deviceCache' = ∅)
        then set_cache (delete (d_deviceID d) (cache dc)) dc
        else set_cache (<[d_deviceID d := deviceCache']> (cache dc)) dc
    | None => dc
    end in
  match Remove denied fs (d_filePath d) with
  | Removed fs' =>
      let s := stats dc1 in
      (set_stats (mkCacheStats (Hits s) (Misses s)
                    (int64_add (Evictions s) 1)) dc1, fs')
  | ErrNotExist | RemoveFailed => (dc1, fs)
  end.

Definition file_expired (now : Z) (e : CacheEntry) : bool :=
  After now (FileExpires e).

(** [cleanup]: the sweep of the map, and the paths handed to the
    goroutine that removes the files. *)
Definition cleanup (now : Z) (dc : DeviceCache) : DeviceCache * list string :=
  let expiredFiles :=
    concat (map (fun '(_, deviceCache) =>
                   map (fun '(_, e) => ProcessedPath e)
                     (filter (fun '(_, e) => file_expired now e = true)
                        (map_to_list deviceCache)))
              (map_to_list (cache dc))) in
  let sweep (deviceCache : gmap string CacheEntry) :=
    let kept := filter (fun '(_, e) => file_expired now e = false) deviceCache in
    if decide (kept = ∅) then None else Some kept in
  (set_cache (omap sweep (cache dc)) dc, expiredFiles).

(** The file removals of [cleanup]'s goroutine; [denied] tells the paths
    whose removal the system refuses. *)
Fixpoint remove_all (denied : string -> bool) (paths : list string)
    (fs : files) : files :=
  match paths with
  | [] => fs
  | p :: rest =>
      remove_all denied rest
        match Remove (denied p) fs p with
        | Removed fs' => fs'
        | ErrNotExist | RemoveFailed => fs
        end
  end.

Definition lookup (deviceID urlHash : string) (dc : DeviceCache)
  : option CacheEntry :=
  cache dc !! deviceID ≫= (fun deviceCache => deviceCache !! urlHash).

(** All fields of an entry but [Uses] agree. *)
Definition same_but_uses (e e' : CacheEntry) : Prop :=
  ProcessedPath e = ProcessedPath e'
  /\ CacheExpires e = CacheExpires e'
  /\ FileExpires e = FileExpires e'
  /\ Created e = Created e'
  /\ Size e = Size e'
  /\ MediaType e = MediaType e'
  /\ URL e = URL e'.

(** A slot before and after: still empty, or still holding an entry
    that differs in [Uses] at most. *)
Definition slot_kept (o o' : option CacheEntry) : Prop :=
  match o, o' with
  | Some e, Some e' => same_but_uses e e'
  | None, None => True
  | _, _ => False
  end.

(** A sequence of lookups, each with its clock reading. *)
Fixpoint gets (calls : list (Z * string * string)) (dc : DeviceCache)
  : DeviceCache :=
  match calls with
  | [] => dc
  | (now, deviceID, url) :: rest => gets rest (snd (Get now deviceID url dc))
  end.

(** *** The cache with its goroutines, as a transition system

    The state is the cache, the files, the deleters still asleep and the
    last clock reading; an event is one critical section of the Go code
    together with the clock reading it takes. *)
Record system : Type := mkSystem {
  s_dc : DeviceCache;
  s_fs : files;
  s_sleeping : list deleter;
  s_clock : Z
}.

Inductive event : Type :=
| EvSet (now : Z) (deviceID url processedPath mediaType : string)
    (fileSize : Z)
| EvGet (now : Z) (deviceID url : string)
| EvWake (i : nat) (now : Z)
| EvCleanup (now : Z)
| EvWakeDenied (i : nat) (now : Z)
| EvCleanupDenied (now : Z) (denied : string -> bool).

Definition event_time (ev : event) : Z :=
  match ev with
  | EvSet now _ _ _ _ _ => now
  | EvGet now _ _ => now
  | EvWake _ now => now
  | EvCleanup now => now
  | EvWakeDenied _ now => now
  | EvCleanupDenied now _ => now
  end.

(** A deleter wakes up: [time.Sleep(ttl)] does not return before [ttl]
    has passed. *)
Definition wake (denied : bool) (i : nat) (now : Z) (s : system)
  : option system :=
  match s_sleeping s !! i with
  | Some d =>
      if now <? d_armed d + d_ttl d then None
      else
        let '(dc', fs') := scheduleFileDeletion denied d (s_dc s) (s_fs s) in
        Some (mkSystem dc' fs' (delete i (s_sleeping s)) now)
  | None => None
  end.

(** The sweep with the removals of its goroutine. *)
Definition sweep (denied : string -> bool) (now : Z) (s : system) : system :=
  let '(dc', paths) := cleanup now (s_dc s) in
  mkSystem dc' (remove_all denied paths (s_fs s)) (s_sleeping s) now.

(** One event; [None] when the event cannot happen in this state: the
    clock does not run backwards and a deleter does not wake up early.
    [EvWake] and [EvCleanup] are the events in which the system refuses no
    removal, [EvWakeDenied] and [EvCleanupDenied] those in which it
    does. *)
Definition step (ev : event) (s : system) : option system :=
  if event_time ev <? s_clock s then None
  else
    match ev with
    | EvSet now deviceID url processedPath mediaType fileSize =>
        let '(dc', d) :=
          Set_ now deviceID url processedPath mediaType fileSize (s_dc s) in
        Some (mkSystem dc' (s_fs s) (s_sleeping s ++ [d]) now)
    | EvGet now deviceID url =>
        Some (mkSystem (snd (Get now deviceID url (s_dc s))) (s_fs s)
                (s_sleeping s) now)
    | EvWake i now => wake false i now s
    | EvCleanup now => Some (sweep (fun _ => false) now s)
    | EvWakeDenied i now => wake true i now s
    | EvCleanupDenied now denied => Some (sweep denied now s)
    end.

Fixpoint run (evs : list event) (s : system) : option system :=
  match evs with
  | [] => Some s
  | ev :: rest =>
      match step ev s with
      | Some s' => run rest s'
      | None => None
      end
  end.

Definition init (dir : string) (cTTL fTTL : Z) (fs : files) (t0 : Z) : system :=
  mkSystem (NewDeviceCache dir cTTL fTTL) fs [] t0.

(** *** Statistics *)

(** [d.Minutes()] of a [time.Duration]. *)
Definition Minutes (d : Z) : float :=
  PrimFloat.add (float_of_int (Z.quot d Minute))
    (PrimFloat.div (float_of_int (Z.rem d Minute))
       (PrimFloat.mul 60%float 1e9%float)).

(** The map [GetDeviceStats] returns: for a device without submap the keys
    entries, total_kb and hit_rate (all zero), otherwise entries, total_kb
    and the two TTLs in minutes. *)
Inductive DeviceStats : Type :=
| UnknownDevice
| KnownDevice (entries total_kb : Z) (cache_ttl file_ttl : float).

(** The loop of [GetDeviceStats] over the entries of a device:
    [(totalSize, entryCount)]. *)
Definition device_totals (deviceCache : gmap string CacheEntry) : Z * Z :=
  map_fold (fun _ e '(totalSize, entryCount) =>
              (int64_add totalSize (Size e), int64_add entryCount 1))
    (0, 0) deviceCache.

Definition GetDeviceStats (deviceID : string) (dc : DeviceCache) : DeviceStats :=
  match cache dc !! deviceID with
  | None => UnknownDevice
  | Some deviceCache =>
      let '(totalSize, entryCount) := device_totals deviceCache in
      KnownDevice entryCount (wrap 64 (Z.quot totalSize 1024))
        (Minutes (cacheTTL dc)) (Minutes (fileTTL dc))
  end.

(** The number the key entries holds. *)
Definition stats_entries (st : DeviceStats) : Z :=
  match st with
  | UnknownDevice => 0
  | KnownDevice entries _ _ _ => entries
  end.

(** *** Invariants of the map *)

(** No device is left with an empty submap. *)
Definition no_empty_device (dc : DeviceCache) : Prop :=
  forall d deviceCache, cache dc !! d = Some deviceCache -> deviceCache <> ∅.

(** Every entry expires at the distances of the two TTLs from its
    creation. *)
Definition fixed_expiry (dc : DeviceCache) : Prop :=
  forall d k e,
    lookup d k dc = Some e ->
    CacheExpires e = Created e + cacheTTL dc
    /\ FileExpires e = Created e + fileTTL dc.

End cache.

(** ** internal/services *)

Module services.
Import go.

(** *** The world outside of the process *)

Record Response : Type := mkResponse {
  StatusCode : Z;
  ContentLength : Z;
  Body : Reader
}.

(** [http.NewRequestWithContext] followed by [client.Do]. *)
Inductive http_result : Type :=
| RequestError (msg : string)
| DoError (msg : string)
| Resp (r : Response).

(** A piece of a formatted argument: text, or a [float64] printed with
    the verb [%.6f] or [%.2f]. *)
Inductive piece : Type :=
| Str (s : string)
| F6 (x : float)
| F2 (x : float).

Definition arg : Type := list piece.

(** What a child process did: its exit error, if any, and its output. *)
Record proc_result : Type := mkProc {
  exit_error : option string;
  stdout : bytes;
  stderr : string
}.

(** An error that reaches the error handler of the application: a
    [*fiber.Error] with its code and message, or any other error. *)
Inductive app_error : Type :=
| FiberError (code : Z) (message : string)
| OtherError (text : string).

(** [write_failure] is what goes wrong when the file at a path is written,
    [SendFile_error] the error [c.SendFile] returns for a path, and
    [unicode_ToLower] the lower-casing of a string with non-ASCII bytes
    by the case tables of the runtime. *)
Record externals : Type := mkExternals {
  http_Do : string -> http_result;
  ffmpeg : list arg -> bytes -> proc_result;
  ffprobe : list arg -> bytes -> proc_result;
  write_failure : string -> option write_fault;
  mkdir_error : string -> option string;
  rand_tape : nat -> Z;
  pool_serves : pool.BufferPool -> bool;
  SendFile_error : string -> option app_error;
  unicode_ToLower : string -> string
}.

(** *** downloader.go *)

Record Downloader : Type := mkDownloader {
  maxSize : Z;
  timeout : Z
}.

Definition NewDownloader (maxSz tmo : Z) : Downloader :=
  let tmo := if tmo <=? 0 then 30 * Second else tmo in
  let maxSz := if maxSz <=? 0 then 500 * 1024 * 1024 else maxSz in
  mkDownloader maxSz tmo.

(** Which branch of [Download] read the body. *)
Inductive read_path : Type := PooledBuffer | LimitedReader.

Record download_result : Type := mkDownload {
  dl_data : bytes;
  dl_err : option string;
  dl_path : option read_path;
  dl_source : option pool.source
}.

Definition dl_fail (msg : string) (p : option read_path)
    (src : option pool.source) : download_result :=
  mkDownload [] (Some msg) p src.

Definition finish_download (data : bytes) (p : read_path)
    (src : option pool.source) : download_result :=
  match data with
  | [] => dl_fail "downloaded file is empty" (Some p) src
  | _ => mkDownload data None (Some p) src
  end.

Definition Download (x : externals) (d : Downloader) (url : string)
    (bp : pool.BufferPool) : outcome (download_result * pool.BufferPool) :=
  if String.eqb url "" then Ret (dl_fail "empty URL" None None, bp)
  else if negb (HasPrefix url "http://") && negb (HasPrefix url "https://")
  then Ret (dl_fail "invalid URL scheme: must be http:// or https://"
              None None, bp)
  else
    match http_Do x url with
    | RequestError e =>
        Ret (dl_fail ("failed to create request: " ++ e) None None, bp)
    | DoError e => Ret (dl_fail ("download failed: " ++ e) None None, bp)
    | Resp resp =>
        if negb (StatusCode resp =? 200)
        then Ret (dl_fail ("download failed: HTTP " ++ Itoa (StatusCode resp))
                    None None, bp)
        else if maxSize d <? ContentLength resp
        then Ret (dl_fail ("file too large: " ++ Itoa (ContentLength resp)
                             ++ " bytes (max: " ++ Itoa (maxSize d) ++ ")")
                    None None, bp)
        else if (0 <? ContentLength resp)
                && (ContentLength resp <=? pool.Allocated (pool.GetStats bp))
        then
          match pool.GetSized (pool_serves x bp) (ContentLength resp) bp with
          | Panic m => Panic m
          | Ret (buf, src, bp1) =>
              let '(got, err) := ReadFull (Body resp) (len buf) in
              let res :=
                match err with
                | Some e =>
                    if String.eqb e ErrUnexpectedEOF
                    then finish_download got PooledBuffer src
                    else dl_fail ("read failed: " ++ e) (Some PooledBuffer) src
                | None => finish_download got PooledBuffer src
                end in
              match pool.PutSized buf bp1 with
              | Panic m => Panic m
              | Ret bp2 => Ret (res, bp2)
              end
          end
        else
          let '(got, err) := ReadAll_Limit (Body resp) (maxSize d) in
          match err with
          | Some e =>
              Ret (dl_fail ("read failed: " ++ e) (Some LimitedReader) None, bp)
          | None => Ret (finish_download got LimitedReader None, bp)
          end
    end.

(** *** What the three converters share *)

Definition bind {A B : Type} (m : outcome A) (f : A -> outcome B)
  : outcome B :=
  match m with
  | Ret a => f a
  | Panic msg => Panic msg
  end.

Notation "'let*' p ':=' m 'in' k" := (bind m (fun p => k))
  (at level 10, p pattern, m at level 100, k at level 200).

(** [rand.Intn] on the process-global generator. *)
Definition draw (x : externals) (n : Z) (pos : nat) : outcome (Z * nat) :=
  Intn (rand_tape x) n pos.

(** [AudioStats], [ImageStats] and [VideoStats] have the same fields. *)
Record Stats : Type := mkStats {
  TotalConversions : Z;
  FailedConversions : Z;
  AvgConversionTime : Z
}.

Definition recordFailure (st : Stats) : Stats :=
  mkStats (TotalConversions st) (int64_add (FailedConversions st) 1)
    (AvgConversionTime st).

(** The running average is computed on [int64] durations. *)
Definition recordSuccess (duration : Z) (st : Stats) : outcome Stats :=
  let total := int64_add (TotalConversions st) 1 in
  if total =? 0 then Panic "integer divide by zero"
  else
    let sum :=
      int64_add (wrap 64 (AvgConversionTime st * wrap 64 (total - 1)))
        duration in
    Ret (mkStats total (FailedConversions st) (wrap 64 (Z.quot sum total))).

(** The part of the process a conversion reads and writes. *)
Record conv_state : Type := mkConv {
  cs_files : files;
  cs_rand : nat;
  cs_stats : Stats
}.

Definition fail_with (msg : string) (st : conv_state)
  : outcome (option string * conv_state) :=
  Ret (Some msg, mkConv (cs_files st) (cs_rand st) (recordFailure (cs_stats st))).

Fixpoint join_args (sep : string) (l : list arg) : arg :=
  match l with
  | [] => []
  | [a] => a
  | a :: r => a ++ [Str sep] ++ join_args sep r
  end.

Definition lit (s : string) : arg := [Str s].

(** The tail every [Convert] shares: run the transcoder on the input,
    check its output and write it to [finalPath]. *)
Definition run_and_persist (x : externals) (t_start t_end : Z)
    (args : list arg) (inputData : bytes) (finalPath : string)
    (st : conv_state) : outcome (option string * conv_state) :=
  let p := ffmpeg x args inputData in
  match exit_error p with
  | Some e =>
      fail_with ("ffmpeg error: " ++ e ++ ", stderr: " ++ stderr p) st
  | None =>
      match stdout p with
      | [] => fail_with "ffmpeg produced no output" st
      | output =>
          match WriteFile (write_failure x finalPath) (cs_files st) finalPath
                  output with
          | (Some e, fs') =>
              fail_with ("failed to write output file: " ++ e)
                (mkConv fs' (cs_rand st) (cs_stats st))
          | (None, fs') =>
              let* stats' := recordSuccess (t_end - t_start) (cs_stats st) in
              Ret (None, mkConv fs' (cs_rand st) stats')
          end
      end
  end.

(** [fmt.Sprintf("%s_%s_%d%s", deviceID, urlHash[:8], timestamp, ext)]
    joined to the cache directory; [now] is [time.Now()]. *)
Definition output_path (now : Z) (ext cacheDir deviceID urlHash : string)
  : outcome string :=
  if (String.length urlHash <? 8)%nat
  then Panic "slice bounds out of range"
  else
    Ret (Join cacheDir
           (deviceID ++ "_" ++ String.substring 0 8 urlHash ++ "_"
              ++ Itoa (Unix now) ++ ext)).

Fixpoint bytes_eqb (a b : bytes) : bool :=
  match a, b with
  | [], [] => true
  | x :: a', y :: b' => Byte.eqb x y && bytes_eqb a' b'
  | _, _ => false
  end.

(** [data[i:j]] for bounds already known to be in range. *)
Definition sub_bytes (data : bytes) (i j : nat) : bytes :=
  firstn (j - i) (skipn i data).

(** *** image_converter.go *)

Module ImageConverter.

Record imageParams : Type := mkImageParams {
  quality : Z;
  compressionLevel : Z;
  jpegQScale : Z;
  addNoise : bool;
  noiseStrength : Z;
  colorAdjust : bool;
  brightness : float;
  contrast : float;
  addBlur : bool;
  blurAmount : float
}.

Definition getRandomizedParams (x : externals) (level format : string)
    (pos : nat) : outcome (imageParams * nat) :=
  let isPNG := String.eqb format "png" in
  if String.eqb level "basic" then
    let* (q, pos) := draw x 5 pos in
    let* (c, pos) := draw x 3 pos in
    let* (j, pos) := draw x 2 pos in
    Ret (mkImageParams (88 + q) (5 + c) (3 + j) false 0 false
           0%float 0%float false 0%float, pos)
  else if String.eqb level "moderate" then
    let* (q, pos) := draw x 5 pos in
    let* (c, pos) := draw x 3 pos in
    let* (j, pos) := draw x 2 pos in
    let* (n, pos) := if isPNG then draw x 2 pos else draw x 3 pos in
    let strength := if isPNG then 1 + n else 2 + n in
    let* (b, pos) := draw x 3 pos in
    let* (k, pos) := draw x 3 pos in
    Ret (mkImageParams (88 + q) (5 + c) (3 + j) true strength true
           (PrimFloat.div (float_of_int (b - 1)) 1000%float)
           (PrimFloat.add 1%float
              (PrimFloat.div (float_of_int (k - 1)) 1000%float))
           false 0%float, pos)
  else if String.eqb level "paranoid" then
    let* (q, pos) := draw x 8 pos in
    let* (c, pos) := draw x 4 pos in
    let* (j, pos) := draw x 3 pos in
    let* (n, pos) := if isPNG then draw x 3 pos else draw x 5 pos in
    let strength := if isPNG then 1 + n else 3 + n in
    let* (b, pos) := draw x 5 pos in
    let* (k, pos) := draw x 5 pos in
    let* (u, pos) := draw x 5 pos in
    Ret (mkImageParams (85 + q) (4 + c) (2 + j) true strength true
           (PrimFloat.div (float_of_int (b - 2)) 1000%float)
           (PrimFloat.add 1%float
              (PrimFloat.div (float_of_int (k - 2)) 1000%float))
           true
           (PrimFloat.add 0.1%float
              (PrimFloat.div (float_of_int u) 100%float)), pos)
  else
    Ret (mkImageParams 90 6 3 false 0 false 0%float 0%float false
           0%float, pos).

Definition png_signature : bytes :=
  [Byte.x89; Byte.x50; Byte.x4e; Byte.x47; Byte.x0d; Byte.x0a; Byte.x1a;
   Byte.x0a].

Definition detectFormat (data : bytes) : string :=
  if (length data <? 12)%nat then "unknown"
  else if bytes_eqb (sub_bytes data 0 8) png_signature then "png"
  else if bytes_eqb (sub_bytes data 0 2) [Byte.xff; Byte.xd8] then "jpeg"
  else if bytes_eqb (sub_bytes data 0 4)
            [Byte.x52; Byte.x49; Byte.x46; Byte.x46]
          && bytes_eqb (sub_bytes data 8 12)
               [Byte.x57; Byte.x45; Byte.x42; Byte.x50]
  then "webp"
  else "unknown".

Definition adjustOutputPath (path format : string) : string :=
  let ext := Ext path in
  let base := TrimSuffix path ext in
  if String.eqb format "png" then base ++ ".png"
  else if String.eqb format "webp" then base ++ ".webp"
  else base ++ ".jpg".

Definition outputFormat_of (inputFormat : string) : string :=
  if negb (String.eqb inputFormat "png")
     && negb (String.eqb inputFormat "jpeg")
     && negb (String.eqb inputFormat "jpg")
     && negb (String.eqb inputFormat "webp")
  then "jpeg" else inputFormat.

(** The argument vector [Convert] builds. *)
Definition build_args (params : imageParams) (outputFormat : string)
  : list arg :=
  let base :=
    [lit "ffmpeg"; lit "-hide_banner"; lit "-loglevel"; lit "error";
     lit "-i"; lit "pipe:0"] in
  let filters :=
    (if addNoise params
     then [lit ("noise=alls=" ++ Itoa (noiseStrength params) ++ ":allf=t")]
     else [])
    ++ (if colorAdjust params
        then [[Str "eq=brightness="; F6 (brightness params);
               Str ":contrast="; F6 (contrast params)]]
        else [])
    ++ (if addBlur params
        then [[Str "unsharp=3:3:"; F2 (blurAmount params)]]
        else []) in
  let vf :=
    match filters with
    | [] => []
    | _ => [lit "-vf"; join_args "," filters]
    end in
  let codec :=
    if String.eqb outputFormat "png"
    then [lit "-c:v"; lit "png"; lit "-compression_level";
          lit (Itoa (compressionLevel params))]
    else if String.eqb outputFormat "webp"
    then [lit "-c:v"; lit "libwebp"; lit "-quality";
          lit (Itoa (quality params))]
    else [lit "-c:v"; lit "mjpeg"; lit "-q:v";
          lit (Itoa (jpegQScale params))] in
  base ++ vf ++ codec
    ++ [lit "-f"; lit "image2"; lit "-threads"; lit "0"; lit "pipe:1"].

(** [Convert]; [t_start] and [t_end] are the clock readings of
    [time.Now()] on entry and of [time.Since(start)] on success.  The
    error is [None] for a nil error. *)
Definition Convert (x : externals) (t_start t_end : Z) (inputData : bytes)
    (level outputPath : string) (st : conv_state)
  : outcome (option string * conv_state) :=
  match inputData with
  | [] => Ret (Some "empty input data"%string, st)
  | _ =>
      let inputFormat := detectFormat inputData in
      let* (params, pos) :=
        getRandomizedParams x level inputFormat (cs_rand st) in
      let st1 := mkConv (cs_files st) pos (cs_stats st) in
      let outputFormat := outputFormat_of inputFormat in
      let finalPath := adjustOutputPath outputPath outputFormat in
      run_and_persist x t_start t_end (build_args params outputFormat)
        inputData finalPath st1
  end.

Definition GetOutputExtension : string := ".jpg".

Definition GenerateOutputPath (now : Z) (cacheDir deviceID urlHash : string)
  : outcome string :=
  output_path now GetOutputExtension cacheDir deviceID urlHash.

End ImageConverter.

(** *** video_converter.go *)

(** [strings.TrimSpace] for ASCII white space and [strconv.Atoi]. *)
Definition is_space (c : ascii) : bool :=
  let n := nat_of_ascii c in
  ((n =? 32) || ((9 <=? n) && (n <=? 13)))%nat.

Fixpoint trim_left (cs : list ascii) : list ascii :=
  match cs with
  | c :: r => if is_space c then trim_left r else cs
  | [] => []
  end.

Definition TrimSpace (s : string) : string :=
  string_of_list_ascii
    (rev (trim_left (rev (trim_left (list_ascii_of_string s))))).

Fixpoint parse_digits (cs : list ascii) (acc : Z) : option Z :=
  match cs with
  | [] => Some acc
  | c :: r =>
      let n := Z.of_nat (nat_of_ascii c) in
      if (48 <=? n) && (n <=? 57) then parse_digits r (10 * acc + (n - 48))
      else None
  end.

Definition Atoi (s : string) : option Z :=
  let in_range (v : Z) :=
    if (- 2 ^ 63 <=? v) && (v <? 2 ^ 63) then Some v else None in
  match list_ascii_of_string s with
  | [] => None
  | c :: r =>
      if Ascii.eqb c "-"%char || Ascii.eqb c "+"%char then
        match r with
        | [] => None
        | _ =>
            match parse_digits r 0 with
            | Some v => in_range (if Ascii.eqb c "-"%char then - v else v)
            | None => None
            end
        end
      else
        match parse_digits (c :: r) 0 with
        | Some v => in_range v
        | None => None
        end
  end.

Module VideoConverter.

Record videoParams : Type := mkVideoParams {
  bitrate : Z;
  crf : Z;
  preset : string;
  keyframeInterval : Z;
  addNoise : bool;
  noiseStrength : Z;
  colorAdjust : bool;
  brightness : float;
  contrast : float;
  saturation : float;
  addTimestamp : bool
}.

(** [int(float64(originalBitrate) * (base + float64(r)/100.0))]. *)
Definition bitrateVariation (originalBitrate : Z) (base : float) (r : Z)
  : Z :=
  int_of_float
    (PrimFloat.mul (float_of_int originalBitrate)
       (PrimFloat.add base (PrimFloat.div (float_of_int r) 100%float))).

(** [originalBitrate + bitrateVariation - rand.Intn(bitrateVariation*2)]. *)
Definition sample_bitrate (x : externals) (originalBitrate variation : Z)
    (pos : nat) : outcome (Z * nat) :=
  let* (k, pos) := draw x (wrap 64 (variation * 2)) pos in
  Ret (wrap 64 (wrap 64 (originalBitrate + variation) - k), pos).

(** [float64(rand.Intn(n) - off) / 1000.0]. *)
Definition jitter (v off : Z) : float :=
  PrimFloat.div (float_of_int (v - off)) 1000%float.

Definition getRandomizedParams (x : externals) (level : string)
    (originalBitrate : Z) (pos : nat) : outcome (videoParams * nat) :=
  if String.eqb level "basic" then
    let* (r, pos) := draw x 6 pos in
    let variation := bitrateVariation originalBitrate 0.05%float r in
    let* (b, pos) := sample_bitrate x originalBitrate variation pos in
    let* (c, pos) := draw x 3 pos in
    let* (g, pos) := draw x 21 pos in
    Ret (mkVideoParams b (22 + c) "medium" (240 + g) false 0 false
           0%float 0%float 0%float false, pos)
  else if String.eqb level "moderate" then
    let* (r, pos) := draw x 5 pos in
    let variation := bitrateVariation originalBitrate 0.08%float r in
    let* (b, pos) := sample_bitrate x originalBitrate variation pos in
    let* (c, pos) := draw x 4 pos in
    let* (g, pos) := draw x 41 pos in
    let* (n, pos) := draw x 2 pos in
    let* (v1, pos) := draw x 3 pos in
    let* (v2, pos) := draw x 3 pos in
    let* (v3, pos) := draw x 3 pos in
    Ret (mkVideoParams b (22 + c) "medium" (230 + g) true (1 + n) true
           (jitter v1 1) (PrimFloat.add 1%float (jitter v2 1))
           (PrimFloat.add 1%float (jitter v3 1)) false, pos)
  else if String.eqb level "paranoid" then
    let* (r, pos) := draw x 6 pos in
    let variation := bitrateVariation originalBitrate 0.10%float r in
    let* (b, pos) := sample_bitrate x originalBitrate variation pos in
    let* (c, pos) := draw x 5 pos in
    let* (g, pos) := draw x 61 pos in
    let* (p, pos) := draw x 3 pos in
    let* (n, pos) := draw x 4 pos in
    let* (v1, pos) := draw x 5 pos in
    let* (v2, pos) := draw x 5 pos in
    let* (v3, pos) := draw x 5 pos in
    Ret (mkVideoParams b (21 + c)
           (nth (Z.to_nat p) ["fast"; "medium"; "medium"] "")%string
           (220 + g) true (2 + n) true
           (jitter v1 2) (PrimFloat.add 1%float (jitter v2 2))
           (PrimFloat.add 1%float (jitter v3 2)) true, pos)
  else
    Ret (mkVideoParams originalBitrate 23 "medium" 250 false 0 false
           0%float 0%float 0%float false, pos).

Definition probe_args : list arg :=
  [lit "ffprobe"; lit "-v"; lit "error"; lit "-select_streams"; lit "v:0";
   lit "-show_entries"; lit "stream=bit_rate"; lit "-of";
   lit "default=noprint_wrappers=1:nokey=1"; lit "-i"; lit "pipe:0"].

(** [getVideoBitrate]: [None] for any of its errors. *)
Definition getVideoBitrate (x : externals) (inputData : bytes) : option Z :=
  let p := ffprobe x probe_args inputData in
  match exit_error p with
  | Some _ => None
  | None =>
      match Atoi (TrimSpace (string_of_list_byte (stdout p))) with
      | Some b => Some (Z.quot b 1000)
      | None => None
      end
  end.

Definition build_args (params : videoParams) (audio : list arg)
  : list arg :=
  let base :=
    [lit "ffmpeg"; lit "-hide_banner"; lit "-loglevel"; lit "error";
     lit "-i"; lit "pipe:0"] in
  let videoFilters :=
    (if addNoise params
     then [lit ("noise=alls=" ++ Itoa (noiseStrength params)
                  ++ ":allf=t+u")]
     else [])
    ++ (if colorAdjust params
        then [[Str "eq=brightness="; F6 (brightness params);
               Str ":contrast="; F6 (contrast params);
               Str ":saturation="; F6 (saturation params)]]
        else [])
    ++ (if addTimestamp params
        then [lit "drawtext=text='':x=0:y=0:fontsize=1:fontcolor=black@0.01"]
        else []) in
  let vf :=
    match videoFilters with
    | [] => []
    | _ => [lit "-vf"; join_args "," videoFilters]
    end in
  base ++ vf
    ++ [lit "-c:v"; lit "libx264"; lit "-b:v";
        lit (Itoa (bitrate params) ++ "k"); lit "-crf";
        lit (Itoa (crf params)); lit "-preset"; lit (preset params);
        lit "-g"; lit (Itoa (keyframeInterval params)); lit "-bf"; lit "2";
        lit "-movflags"; lit "+faststart"]
    ++ audio
    ++ [lit "-f"; lit "mp4"; lit "-threads"; lit "0"; lit "pipe:1"].

Definition Convert (x : externals) (t_start t_end : Z) (inputData : bytes)
    (level outputPath : string) (st : conv_state)
  : outcome (option string * conv_state) :=
  match inputData with
  | [] => Ret (Some "empty input data"%string, st)
  | _ =>
      let originalBitrate := default 2000 (getVideoBitrate x inputData) in
      let* (params, pos) :=
        getRandomizedParams x level originalBitrate (cs_rand st) in
      let* (audio, pos) :=
        if String.eqb level "none" || String.eqb level "basic"
        then Ret ([lit "-c:a"; lit "copy"], pos)
        else
          let* (a, pos) := draw x 16 pos in
          Ret ([lit "-c:a"; lit "aac"; lit "-b:a";
                lit (Itoa (128 + a) ++ "k"); lit "-ar"; lit "48000"], pos) in
      run_and_persist x t_start t_end (build_args params audio) inputData
        outputPath (mkConv (cs_files st) pos (cs_stats st))
  end.

Definition GetOutputExtension : string := ".mp4".

Definition GenerateOutputPath (now : Z) (cacheDir deviceID urlHash : string)
  : outcome string :=
  output_path now GetOutputExtension cacheDir deviceID urlHash.

End VideoConverter.

(** *** audio_converter.go *)

Module AudioConverter.

Record audioParams : Type := mkAudioParams {
  bitrate : string;
  compression : Z;
  silencePadding : Z;
  pitchShift : float;
  addNoise : bool;
  noiseLevel : float
}.

(** [1.0 + (float64(rand.Intn(n) - off) / 10000.0)]. *)
Definition pitch (v off : Z) : float :=
  PrimFloat.add 1%float
    (PrimFloat.div (float_of_int (v - off)) 10000%float).

Definition getRandomizedParams (x : externals) (level : string)
    (pos : nat) : outcome (audioParams * nat) :=
  if String.eqb level "basic" then
    let* (b, pos) := draw x 5 pos in
    let* (c, pos) := draw x 3 pos in
    let* (s, pos) := draw x 3 pos in
    Ret (mkAudioParams (Itoa (70 + b) ++ "k") (8 + c) (1 + s) 0%float
           false 0%float, pos)
  else if String.eqb level "moderate" then
    let* (b, pos) := draw x 5 pos in
    let* (c, pos) := draw x 3 pos in
    let* (s, pos) := draw x 3 pos in
    let* (p, pos) := draw x 20 pos in
    Ret (mkAudioParams (Itoa (70 + b) ++ "k") (8 + c) (1 + s)
           (pitch p 10) false 0%float, pos)
  else if String.eqb level "paranoid" then
    let* (b, pos) := draw x 9 pos in
    let* (c, pos) := draw x 4 pos in
    let* (s, pos) := draw x 5 pos in
    let* (p, pos) := draw x 40 pos in
    let* (n, pos) := draw x 10 pos in
    Ret (mkAudioParams (Itoa (68 + b) ++ "k") (7 + c) (1 + s)
           (pitch p 20) true
           (PrimFloat.add 0.0005%float
              (PrimFloat.div (float_of_int n) 100000%float)), pos)
  else
    Ret (mkAudioParams "72k" 10 0 0%float false 0%float, pos).

Definition build_args (params : audioParams) (inputLen : Z) : list arg :=
  let base :=
    [lit "ffmpeg"; lit "-hide_banner"; lit "-loglevel"; lit "error";
     lit "-i"; lit "pipe:0"; lit "-vn"; lit "-map"; lit "0:a:0";
     lit "-c:a"; lit "libopus"; lit "-b:a"; lit (bitrate params);
     lit "-vbr"; lit "on"; lit "-compression_level";
     lit (Itoa (compression params)); lit "-application"; lit "voip";
     lit "-ar"; lit "48000"; lit "-ac"; lit "1"] in
  let filters :=
    (if 0 <? silencePadding params
     then [lit ("adelay=" ++ Itoa (silencePadding params) ++ ":all=1")]
     else [])
    ++ (if negb (PrimFloat.eqb (pitchShift params) 0%float)
        then [[Str "asetrate=48000*"; F6 (pitchShift params);
               Str ",aresample=48000"]]
        else [])
    ++ (if addNoise params
        then [[Str ("anoisesrc=d=" ++ Itoa (Z.quot inputLen 1000)
                      ++ ":c=pink:r=48000:a=0.001,amix=inputs=2:weights=1 ");
               F6 (noiseLevel params)]]
        else []) in
  let af :=
    match filters with
    | [] => []
    | _ => [lit "-af"; join_args "," filters]
    end in
  base ++ af
    ++ [lit "-f"; lit "opus"; lit "-threads"; lit "0"; lit "pipe:1"].

Definition Convert (x : externals) (t_start t_end : Z) (inputData : bytes)
    (level outputPath : string) (st : conv_state)
  : outcome (option string * conv_state) :=
  match inputData with
  | [] => Ret (Some "empty input data"%string, st)
  | _ =>
      let* (params, pos) := getRandomizedParams x level (cs_rand st) in
      run_and_persist x t_start t_end
        (build_args params (Z.of_nat (length inputData))) inputData
        outputPath (mkConv (cs_files st) pos (cs_stats st))
  end.

Definition GetOutputExtension : string := ".opus".

Definition GenerateOutputPath (now : Z) (cacheDir deviceID urlHash : string)
  : outcome string :=
  output_path now GetOutputExtension cacheDir deviceID urlHash.

End AudioConverter.

End services.

(** ** internal/handlers/converter_handler.go *)

Module handlers.
Import go.

Record ConvertRequest : Type := mkRequest {
  DeviceID : string;
  URL : string;
  MediaType : string;
  AntiFingerprintLevel : string;
  IsBase64 : bool
}.

(** [ConvertResponse]; the size increase is the [float64] that the Go code
    prints with [%.2f%%], the processing time is in milliseconds. *)
Record ConvertResponse : Type := mkConvertResponse {
  ProcessedPath : string;
  CacheHit : bool;
  RespMediaType : string;
  OriginalSize : Z;
  ProcessedSize : Z;
  SizeIncrease : option float;
  ProcessingTime : string;
  CacheExpires : option Z;
  FileExpires : option Z
}.

(** What the client gets: an error body of the handler with its status,
    the JSON of a success, the file itself in download mode, or the
    answer of the application's error handler to an error the handler
    returned. *)
Inductive reply : Type :=
| ErrorResponse (status : Z) (error details : string)
| JSON (r : ConvertResponse)
| SendFile (contentType fileName filePath : string)
| AppError (status : Z) (message : string).

(** The clock readings of one request, named after the program point
    that takes them. *)
Record clock : Type := mkClock {
  t_start : Z;
  t_lookup : Z;
  t_hit_reply : Z;
  t_output_path : Z;
  t_convert_start : Z;
  t_convert_end : Z;
  t_set : Z;
  t_readback : Z;
  t_reply : Z
}.

(** The process: what the handler and its collaborators share. *)
Record process : Type := mkProcess {
  p_files : files;
  p_cache : cache.DeviceCache;
  p_sleeping : list cache.deleter;
  p_pool : pool.BufferPool;
  p_rand : nat;
  p_audio : services.Stats;
  p_image : services.Stats;
  p_video : services.Stats
}.

Record ConverterHandler : Type := mkHandler {
  downloader : services.Downloader;
  requestTimeout : Z;
  cacheDir : string
}.

Definition NewConverterHandler (d : services.Downloader) (tmo : Z)
    (dir : string) : ConverterHandler :=
  mkHandler d (if tmo <=? 0 then 5 * Minute else tmo) dir.

Definition hashURL (url : string) : string :=
  EncodeToString (md5_Sum (string_bytes url)).

Definition has_any_suffix (s : string) (sufs : list string) : bool :=
  existsb (HasSuffix s) sufs.

Definition detectMediaType (x : services.externals) (url : string) : string :=
  let urlLower := ToLower (services.unicode_ToLower x) url in
  if has_any_suffix urlLower [".mp3"; ".opus"; ".ogg"; ".m4a"; ".wav"; ".aac"]
  then "audio"
  else if has_any_suffix urlLower [".jpg"; ".jpeg"; ".png"; ".webp"; ".gif"]
  then "image"
  else if has_any_suffix urlLower
            [".mp4"; ".avi"; ".mov"; ".mkv"; ".webm"; ".flv"]
  then "video"
  else "".

Definition getDefaultAFLevel (mediaType : string) : string :=
  if String.eqb mediaType "audio" then "moderate"
  else if String.eqb mediaType "image" then "moderate"
  else if String.eqb mediaType "video" then "basic"
  else "moderate".

Definition getMediaSubdir (mediaType : string) : string :=
  if String.eqb mediaType "audio" then "audios"
  else if String.eqb mediaType "image" then "imagens"
  else if String.eqb mediaType "video" then "videos"
  else "outros".

(** The [ErrorHandler] that [main] installs: the code and message of a
    [*fiber.Error], status 500 and a fixed message for any other error. *)
Definition ErrorHandler (err : services.app_error) : reply :=
  match err with
  | services.FiberError code message => AppError code message
  | services.OtherError _ => AppError 500 "Internal Server Error"
  end.

(** [sendFile] returns what [c.SendFile] returns; an error goes to the
    error handler. *)
Definition sendFile (x : services.externals) (filePath mediaType : string)
  : reply :=
  let contentType :=
    if String.eqb mediaType "audio" then "audio/ogg"
    else if String.eqb mediaType "image" then
      if HasSuffix filePath ".jpg" || HasSuffix filePath ".jpeg"
      then "image/jpeg" else "image/png"
    else if String.eqb mediaType "video" then "video/mp4"
    else "application/octet-stream" in
  match services.SendFile_error x filePath with
  | Some err => ErrorHandler err
  | None => SendFile contentType (Base filePath) filePath
  end.

(** [time.Since(start).Milliseconds()] printed with [%d]. *)
Definition millis_since (start now : Z) : string :=
  Itoa (Z.quot (now - start) 1000000).

Definition is_error (r : reply) : bool :=
  match r with
  | ErrorResponse _ _ _ => true
  | AppError _ _ => true
  | _ => false
  end.

Definition BadRequest : Z := 400.
Definition InternalServerError : Z := 500.

Definition set_cache (dc : cache.DeviceCache) (p : process) : process :=
  mkProcess (p_files p) dc (p_sleeping p) (p_pool p) (p_rand p) (p_audio p)
    (p_image p) (p_video p).

(** Run the converter of [mediaType] on the process. *)
Definition dispatch (x : services.externals) (clk : clock)
    (mediaType : string) (inputData : bytes) (level outputPath : string)
    (p : process) : outcome (option string * process) :=
  let run (conv : services.conv_state ->
                  outcome (option string * services.conv_state))
          (stats : services.Stats)
          (put : services.conv_state -> process) :=
    services.bind (conv (services.mkConv (p_files p) (p_rand p) stats))
      (fun '(err, st) => Ret (err, put st)) in
  if String.eqb mediaType "audio" then
    run (services.AudioConverter.Convert x (t_convert_start clk)
           (t_convert_end clk) inputData level outputPath)
      (p_audio p)
      (fun st => mkProcess (services.cs_files st) (p_cache p) (p_sleeping p)
                   (p_pool p) (services.cs_rand st) (services.cs_stats st)
                   (p_image p) (p_video p))
  else if String.eqb mediaType "image" then
    run (services.ImageConverter.Convert x (t_convert_start clk)
           (t_convert_end clk) inputData level outputPath)
      (p_image p)
      (fun st => mkProcess (services.cs_files st) (p_cache p) (p_sleeping p)
                   (p_pool p) (services.cs_rand st) (p_audio p)
                   (services.cs_stats st) (p_video p))
  else if String.eqb mediaType "video" then
    run (services.VideoConverter.Convert x (t_convert_start clk)
           (t_convert_end clk) inputData level outputPath)
      (p_video p)
      (fun st => mkProcess (services.cs_files st) (p_cache p) (p_sleeping p)
                   (p_pool p) (services.cs_rand st) (p_audio p) (p_image p)
                   (services.cs_stats st))
  else Ret (None, p).

Definition generate_output_path (clk : clock) (mediaType : string)
    (mediaCacheDir deviceID urlHash : string) : outcome (option string) :=
  let now := t_output_path clk in
  if String.eqb mediaType "audio" then
    services.bind
      (services.AudioConverter.GenerateOutputPath now mediaCacheDir deviceID
         urlHash) (fun s => Ret (Some s))
  else if String.eqb mediaType "image" then
    services.bind
      (services.ImageConverter.GenerateOutputPath now mediaCacheDir deviceID
         urlHash) (fun s => Ret (Some s))
  else if String.eqb mediaType "video" then
    services.bind
      (services.VideoConverter.GenerateOutputPath now mediaCacheDir deviceID
         urlHash) (fun s => Ret (Some s))
  else Ret None.

(** The input bytes of a request: inline base64 or a download. *)
Definition fetch (x : services.externals) (h : ConverterHandler)
    (req : ConvertRequest) (p : process)
  : outcome ((bytes + reply) * process) :=
  if IsBase64 req then
    match DecodeString (URL req) with
    | Some data => Ret (inl data, p)
    | None =>
        Ret (inr (ErrorResponse BadRequest "Failed to decode base64 data"
                    "illegal base64 data"), p)
    end
  else
    services.bind (services.Download x (downloader h) (URL req) (p_pool p))
      (fun '(res, bp) =>
         let p' := mkProcess (p_files p) (p_cache p) (p_sleeping p) bp
                     (p_rand p) (p_audio p) (p_image p) (p_video p) in
         match services.dl_err res with
         | Some e =>
             Ret (inr (ErrorResponse BadRequest "Failed to download file" e),
                  p')
         | None => Ret (inl (services.dl_data res), p')
         end).

(** The pipeline after a cache miss, from the fetched input on. *)
Definition convert_and_store (x : services.externals) (h : ConverterHandler)
    (clk : clock) (downloadMode : bool) (req : ConvertRequest)
    (urlHash : string) (inputData : bytes) (p : process)
  : outcome (reply * process) :=
  let originalSize := Z.of_nat (length inputData) in
  let mediaSubdir := getMediaSubdir (MediaType req) in
  let mediaCacheDir := Join (cacheDir h) mediaSubdir in
  match services.mkdir_error x mediaCacheDir with
  | Some e =>
      Ret (ErrorResponse InternalServerError
             "Failed to create media cache directory" e, p)
  | None =>
      services.bind
        (generate_output_path clk (MediaType req) mediaCacheDir
           (DeviceID req) urlHash)
        (fun out =>
           match out with
           | None =>
               Ret (ErrorResponse BadRequest
                      ("Unsupported media_type: " ++ MediaType req)
                      "Supported types: audio, image, video", p)
           | Some outputPath =>
               services.bind
                 (dispatch x clk (MediaType req) inputData
                    (AntiFingerprintLevel req) outputPath p)
                 (fun '(err, p1) =>
                    match err with
                    | Some e =>
                        Ret (ErrorResponse InternalServerError
                               ("Conversion failed: " ++ MediaType req) e, p1)
                    | None =>
                        match Stat (p_files p1) outputPath with
                        | None =>
                            Ret (ErrorResponse InternalServerError
                                   "Failed to stat output file"
                                   ("stat " ++ outputPath
                                      ++ ": no such file or directory"), p1)
                        | Some processedSize =>
                            let sizeIncrease :=
                              PrimFloat.mul
                                (PrimFloat.div
                                   (float_of_int
                                      (wrap 64 (processedSize - originalSize)))
                                   (float_of_int originalSize))
                                100%float in
                            let '(dc2, d) :=
                              cache.Set_ (t_set clk) (DeviceID req) (URL req)
                                outputPath (MediaType req) processedSize
                                (p_cache p1) in
                            let '(cacheEntry, dc3) :=
                              cache.Get (t_readback clk) (DeviceID req)
                                (URL req) dc2 in
                            let p2 :=
                              mkProcess (p_files p1) dc3
                                (p_sleeping p1 ++ [d]) (p_pool p1) (p_rand p1)
                                (p_audio p1) (p_image p1) (p_video p1) in
                            if downloadMode
                            then Ret (sendFile x outputPath (MediaType req), p2)
                            else
                              Ret (JSON
                                     (mkConvertResponse outputPath false
                                        (MediaType req) originalSize
                                        processedSize (Some sizeIncrease)
                                        (millis_since (t_start clk)
                                           (t_reply clk))
                                        (cache.CacheExpires <$> cacheEntry)
                                        (cache.FileExpires <$> cacheEntry)),
                                   p2)
                        end
                    end)
           end)
  end.

(** [Convert]: POST /api/convert for a request body that parsed; the
    query parameter [download=true] is [downloadMode]. *)
Definition Convert (x : services.externals) (h : ConverterHandler)
    (clk : clock) (downloadMode : bool) (req : ConvertRequest) (p : process)
  : outcome (reply * process) :=
  if String.eqb (DeviceID req) ""
  then Ret (ErrorResponse BadRequest "device_id is required" "", p)
  else if String.eqb (URL req) ""
  then Ret (ErrorResponse BadRequest "url is required" "", p)
  else
    let mediaType :=
      if String.eqb (MediaType req) "" then detectMediaType x (URL req)
      else MediaType req in
    if String.eqb mediaType ""
    then
      Ret (ErrorResponse BadRequest
             "Could not detect media type from URL. Please provide media_type (audio/image/video)"
             "Supported extensions: audio (.mp3,.opus,.ogg,.m4a,.wav,.aac), image (.jpg,.jpeg,.png,.webp,.gif), video (.mp4,.avi,.mov,.mkv,.webm,.flv)",
           p)
    else
      let level :=
        if String.eqb (AntiFingerprintLevel req) ""
        then getDefaultAFLevel mediaType
        else AntiFingerprintLevel req in
      let req := mkRequest (DeviceID req) (URL req) mediaType level
                   (IsBase64 req) in
      let urlHash := hashURL (URL req) in
      let '(cachedEntry, dc1) :=
        cache.Get (t_lookup clk) (DeviceID req) (URL req) (p_cache p) in
      let p1 := set_cache dc1 p in
      let miss (_ : unit) :=
        services.bind (fetch x h req p1)
          (fun '(input, p2) =>
             match input with
             | inr r => Ret (r, p2)
             | inl inputData =>
                 convert_and_store x h clk downloadMode req urlHash
                   inputData p2
             end) in
      match cachedEntry with
      | Some e =>
          match Stat (p_files p1) (cache.ProcessedPath e) with
          | Some fileSize =>
              if downloadMode
              then Ret (sendFile x (cache.ProcessedPath e) (cache.MediaType e),
                        p1)
              else
                Ret (JSON
                       (mkConvertResponse (cache.ProcessedPath e) true
                          (cache.MediaType e) 0 fileSize None
                          (millis_since (t_start clk) (t_hit_reply clk))
                          (Some (cache.CacheExpires e))
                          (Some (cache.FileExpires e))), p1)
          | None => miss tt
          end
      | None => miss tt
      end.

End handlers.

(** ** Concrete deployments and requests used below *)

Module scenario.
Import go.

(** The service as [main] wires it with the default configuration. *)
Definition default_pool : pool.BufferPool :=
  pool.prealloc 100 (10 * 1024 * 1024)
    (pool.mkBufferPool [] (10 * 1024 * 1024) 0 0 0 0).

Definition no_stats : services.Stats := services.mkStats 0 0 0.

Definition fresh_process : handlers.process :=
  handlers.mkProcess ∅ (cache.NewDeviceCache "/tmp/media-cache" 0 0) []
    default_pool 0 no_stats no_stats no_stats.

Definition default_handler : handlers.ConverterHandler :=
  handlers.NewConverterHandler (services.NewDownloader 0 0) 0
    "/tmp/media-cache".

(** A world in which the network serves [resp] for every URL, the
    transcoder hands its input back, the probe prints [probe], the disk
    accepts every write and every file is sent; strings with non-ASCII
    bytes are left as they are by the case tables. *)
Definition world (resp : services.http_result) (probe : string)
  : services.externals :=
  services.mkExternals (fun _ => resp)
    (fun _ input => services.mkProc None input "")
    (fun _ _ => services.mkProc None (list_byte_of_string probe) "")
    (fun _ => None) (fun _ => None) (fun _ => 0) (fun _ => true)
    (fun _ => None) (fun s => s).

Definition offline : services.http_result := services.DoError "no route to host".

(** The same world without network, in which [c.SendFile] fails on every
    path with an error that is not a [*fiber.Error]. *)
Definition world_send_fails : services.externals :=
  services.mkExternals (fun _ => services.DoError "no route to host")
    (fun _ input => services.mkProc None input "")
    (fun _ _ => services.mkProc None [] "")
    (fun _ => None) (fun _ => None) (fun _ => 0) (fun _ => true)
    (fun _ => Some (services.OtherError "write: broken pipe")) (fun s => s).

(** A request clock that starts at [t0] and ticks once per reading. *)
Definition ticking (t0 : Z) : handlers.clock :=
  handlers.mkClock t0 (t0 + 1) (t0 + 2) (t0 + 3) (t0 + 4) (t0 + 5) (t0 + 6)
    (t0 + 7) (t0 + 8).

Definition png_1x1_base64 : string :=
  "iVBORw0KGgoAAAANSUhEUgAAAAEAAAABCAYAAAAfFcSJAAAADUlEQVR42mNkYPhfDwAChwGA60e6kgAAAABJRU5ErkJggg==".

(** Scenario 2 of the specification: an inline 1x1 PNG. *)
Definition inline_png_request : handlers.ConvertRequest :=
  handlers.mkRequest "d2" png_1x1_base64 "image" "none" true.

Definition audio_url : string := "http://host/a.mp3".

(** An entry for [audio_url] of device d1, inserted at instant [now] into
    the cache [dc]. *)
Definition cached_audio (now : Z) (path : string) (dc : cache.DeviceCache)
  : cache.DeviceCache :=
  fst (cache.Set_ now "d1" audio_url path "audio" 2048 dc).

(** The same URL converted twice by device d1, 29 minutes apart: the
    second request comes after the first entry stopped being a hit. *)
Definition two_conversions : list cache.event :=
  [cache.EvSet 0 "d1" audio_url "/tmp/media-cache/audios/d1_dcce78aa_0.opus"
     "audio" 2048;
   cache.EvSet (29 * Minute) "d1" audio_url
     "/tmp/media-cache/audios/d1_dcce78aa_1740.opus" "audio" 2048].

Definition both_files : files :=
  {[ "/tmp/media-cache/audios/d1_dcce78aa_0.opus"%string := [Byte.x4f];
     "/tmp/media-cache/audios/d1_dcce78aa_1740.opus"%string := [Byte.x4f] ]}.

(** A 200 response that advertises [cl] and carries [n] bytes. *)
Definition ok_response (cl : Z) (n : nat) : services.Response :=
  services.mkResponse 200 cl (mkReader (repeat Byte.x41 n) None).




End scenario.

(** * Properties *)

(** ** Fixed-width arithmetic *)

Section Arithmetic.
Import go.

Lemma pow2_split w : 0 < w -> 2 ^ w = 2 * 2 ^ (w - 1).
Proof.
  intros Hw. replace w with (Z.succ (w - 1)) at 1 by lia.
  apply Z.pow_succ_r. lia.
Qed.

Lemma wrap_small w x :
  0 < w -> - 2 ^ (w - 1) <= x < 2 ^ (w - 1) -> wrap w x = x.
Proof.
  intros Hw Hx. unfold wrap. pose proof (pow2_split w Hw).
  rewrite Z.mod_small; lia.
Qed.

Lemma wrap_add_wrap w a b : wrap w (wrap w a + b) = wrap w (a + b).
Proof.
  unfold wrap. f_equal.
  replace ((a + 2 ^ (w - 1)) mod 2 ^ w - 2 ^ (w - 1) + b + 2 ^ (w - 1))
    with ((a + 2 ^ (w - 1)) mod 2 ^ w + b) by lia.
  rewrite Zplus_mod_idemp_l. f_equal. lia.
Qed.

Lemma int64_add_small x y :
  - 2 ^ 63 <= x + y < 2 ^ 63 -> int64_add x y = x + y.
Proof. intros H. unfold int64_add. apply wrap_small; [lia | exact H]. Qed.

Lemma int64_add_wrap a b : int64_add (wrap 64 a) b = wrap 64 (a + b).
Proof. unfold int64_add. apply wrap_add_wrap. Qed.

Lemma make_returns n :
  0 <= n <= maxAlloc -> make n = Ret (mkSlice false n n).
Proof.
  intros Hn. unfold make.
  replace (n <? 0) with false by (symmetry; apply Z.ltb_ge; lia).
  replace (maxAlloc <? n) with false by (symmetry; apply Z.ltb_ge; lia).
  reflexivity.
Qed.

Lemma make_inv n b :
  make n = Ret b -> b = mkSlice false n n /\ 0 <= n <= maxAlloc.
Proof.
  unfold make.
  destruct (n <? 0) eqn:Hneg; [discriminate|].
  destruct (maxAlloc <? n) eqn:Hbig; [discriminate|].
  apply Z.ltb_ge in Hneg, Hbig. cbn [orb].
  intros H; inversion H. split; [reflexivity | lia].
Qed.

Lemma int32_below_maxAlloc z : z < 2 ^ 31 -> z <= maxAlloc.
Proof. unfold maxAlloc. intros Hz. assert (2 ^ 31 <= 2 ^ 48) by (vm_compute; discriminate). lia. Qed.

End Arithmetic.

(** ** Buffer pool *)

Section BufferPoolFacts.
Import go pool.

(** What [Get] does to the two counters, by the source of the buffer. *)
Lemma Get_counters serve bp buf src bp' :
  Get serve bp = Ret (buf, src, bp') ->
  hits bp' = int64_add (hits bp) 1
  /\ misses bp' = match src with
                  | FromFactory => int64_add (misses bp) 1
                  | FromReserve => misses bp
                  end.
Proof.
  unfold Get, sync_Pool_Get, factory, make; simpl.
  destruct serve, (reserve bp) as [|b rest]; simpl;
    repeat match goal with
           | |- context [if ?c then _ else _] => destruct c
           end; simpl; intros H; inversion H; subst; simpl; auto.
Qed.

Lemma GetSized_counters serve n bp buf src bp' :
  GetSized serve n bp = Ret (buf, src, bp') ->
  match src with
  | Some FromFactory =>
      hits bp' = int64_add (hits bp) 1
      /\ misses bp' = int64_add (misses bp) 1
  | Some FromReserve =>
      hits bp' = int64_add (hits bp) 1 /\ misses bp' = misses bp
  | None => hits bp' = hits bp /\ misses bp' = misses bp
  end.
Proof.
  unfold GetSized. destruct (n <=? size bp).
  - destruct (Get serve bp) as [[[b s] bp1]|] eqn:HG; [|discriminate].
    destruct (reslice b n); [|discriminate].
    intros H; inversion H; subst.
    apply Get_counters in HG. destruct s; tauto.
  - destruct (make n); [|discriminate].
    intros H; inversion H; subst. simpl. auto.
Qed.

Lemma Put_counters buf bp bp' :
  Put buf bp = Ret bp' -> hits bp' = hits bp /\ misses bp' = misses bp.
Proof.
  unfold Put. destruct (is_nil buf || (cap buf <? size bp)).
  - intros H; inversion H; auto.
  - destruct (reslice buf (size bp)); [|discriminate].
    intros H; inversion H; auto.
Qed.

Lemma PutSized_counters buf bp bp' :
  PutSized buf bp = Ret bp' -> hits bp' = hits bp /\ misses bp' = misses bp.
Proof.
  unfold PutSized. destruct (size bp <=? cap buf).
  - apply Put_counters.
  - intros H; inversion H; auto.
Qed.

Lemma step_counters c bp t bp' t' :
  step c (bp, t) = Ret (bp', t') ->
  counters_agree bp t -> counters_agree bp' t'.
Proof.
  unfold counters_agree. intros Hs [Hh Hm]. destruct c; simpl in Hs.
  - destruct (Get serve bp) as [[[b s] bp1]|] eqn:HG; [|discriminate].
    inversion Hs; subst. apply Get_counters in HG as [H1 H2].
    rewrite H1, H2, Hh, Hm, !int64_add_wrap.
    destruct s; simpl; split; f_equal; lia.
  - destruct (GetSized serve n bp) as [[[b s] bp1]|] eqn:HG; [|discriminate].
    inversion Hs; subst. apply GetSized_counters in HG.
    destruct s as [[|]|]; destruct HG as [H1 H2];
      rewrite H1, H2, Hh, Hm, ?int64_add_wrap; simpl; split; f_equal; lia.
  - destruct (Put buf bp) eqn:HP; [|discriminate].
    inversion Hs; subst. apply Put_counters in HP as [H1 H2].
    rewrite H1, H2. auto.
  - destruct (PutSized buf bp) eqn:HP; [|discriminate].
    inversion Hs; subst. apply PutSized_counters in HP as [H1 H2].
    rewrite H1, H2. auto.
Qed.

(** Over any run, [hits] is the number of all acquisitions that went
    through [Get], from the reserve or not, and [misses] the number of
    factory allocations among them. *)
Lemma run_counters cs : forall bp t bp' t',
  run cs (bp, t) = Ret (bp', t') ->
  counters_agree bp t -> counters_agree bp' t'.
Proof.
  induction cs as [|c cs IH]; intros bp t bp' t' Hr Hc; cbn [run] in Hr.
  - inversion Hr; subst. exact Hc.
  - destruct (step c (bp, t)) as [[bp1 t1]|] eqn:Hs; [|discriminate].
    eapply IH; [exact Hr|]. eapply step_counters; eauto.
Qed.

(** C4, on the code: a pool created without pre-allocated buffers serves
    its first acquisition from the factory, and that single acquisition
    is counted once in [hits] and once in [misses]; no acquisition was
    served from the reserve, and [hits + misses] is 2 for 1 acquisition. *)
Theorem factory_acquisition_counted_as_hit_and_miss :
  exists bp0 bp1 t,
    NewBufferPool 0 1024 = Ret bp0
    /\ run [CallGet true] (bp0, tally0) = Ret (bp1, t)
    /\ acquisitions t = 1 /\ from_reserve t = 0 /\ from_factory t = 1
    /\ hits bp1 = 1 /\ misses bp1 = 1
    /\ hits bp1 + misses bp1 <> acquisitions t.
Proof.
  eexists _, _, _. split; [reflexivity|]. split; [reflexivity|].
  vm_compute. repeat split; discriminate.
Qed.

End BufferPoolFacts.

(** ** Downloader *)

Section DownloaderFacts.
Import go services.

Lemma GetSized_len serve n bp buf src bp' :
  pool.GetSized serve n bp = Ret (buf, src, bp') -> len buf = n.
Proof.
  unfold pool.GetSized. destruct (n <=? pool.size bp).
  - destruct (pool.Get serve bp) as [[[b s] bp1]|]; [|discriminate].
    unfold reslice. destruct ((n <? 0) || (cap b <? n)); [discriminate|].
    intros H; inversion H; reflexivity.
  - destruct (make n) as [b|] eqn:Hm; [|discriminate].
    apply make_inv in Hm as [-> _].
    intros H; inversion H; reflexivity.
Qed.

(** On a well-formed pool an acquisition of a positive size up to the
    count of allocated buffers returns, and the buffer it returns can be
    released. *)
Lemma GetSized_returns serve n bp :
  pool.wf bp -> 0 < n <= pool.allocated bp ->
  exists buf src bp',
    pool.GetSized serve n bp = Ret (buf, src, bp')
    /\ pool.size bp' = pool.size bp /\ pool.size bp <= cap buf.
Proof.
  intros (Hsz & Hres & Hal & Hlim) Hn. unfold pool.GetSized.
  assert (Hsize : pool.size bp <= maxAlloc) by (apply Hlim; lia).
  assert (Hnmax : n <= maxAlloc) by (apply int32_below_maxAlloc; lia).
  destruct (n <=? pool.size bp) eqn:Hle.
  - apply Z.leb_le in Hle. unfold pool.Get, pool.sync_Pool_Get; simpl.
    destruct serve, (pool.reserve bp) as [|b rest] eqn:Hr; simpl;
      try (unfold pool.factory; simpl;
           rewrite (make_returns (pool.size bp)) by lia;
           unfold reslice; simpl;
           destruct ((n <? 0) || (pool.size bp <? n)) eqn:Hb;
           [apply orb_true_iff in Hb as [Hb|Hb]; apply Z.ltb_lt in Hb; lia|];
           eexists _, _, _; split; [reflexivity|]; simpl; split; lia).
    inversion Hres as [|b' rest' Hb' Hrest']; subst.
    unfold reslice.
    destruct ((n <? 0) || (cap b <? n)) eqn:Hb;
      [apply orb_true_iff in Hb as [Hb|Hb]; apply Z.ltb_lt in Hb; lia|].
    eexists _, _, _; split; [reflexivity|]; simpl; split; lia.
  - apply Z.leb_gt in Hle. rewrite (make_returns n) by lia.
    eexists _, _, _; split; [reflexivity|]; simpl; split; lia.
Qed.

Lemma PutSized_returns buf bp :
  0 <= pool.size bp -> pool.size bp <= cap buf ->
  exists bp', pool.PutSized buf bp = Ret bp'.
Proof.
  intros Hsz Hcap. unfold pool.PutSized.
  destruct (pool.size bp <=? cap buf) eqn:Hle; [|eauto].
  unfold pool.Put. destruct (is_nil buf || (cap buf <? pool.size bp)); [eauto|].
  unfold reslice.
  destruct ((pool.size bp <? 0) || (cap buf <? pool.size bp)) eqn:Hb;
    [apply orb_true_iff in Hb as [Hb|Hb]; apply Z.ltb_lt in Hb; lia|].
  eauto.
Qed.

Lemma maxSize_positive m tmo : 0 < maxSize (NewDownloader m tmo).
Proof.
  unfold NewDownloader; simpl. destruct (m <=? 0) eqn:H; [lia|].
  apply Z.leb_gt in H. exact H.
Qed.

Lemma firstn_all_Z {A} (l : list A) : firstn (Z.to_nat (Z.of_nat (length l))) l = l.
Proof. rewrite Nat2Z.id. apply firstn_all. Qed.

Lemma finish_download_nonempty data p src :
  data <> [] -> finish_download data p src = mkDownload data None (Some p) src.
Proof. destruct data; [congruence | reflexivity]. Qed.

Lemma valid_url_nonempty url :
  HasPrefix url "http://" || HasPrefix url "https://" = true ->
  String.eqb url "" = false.
Proof. destruct url; [discriminate | reflexivity]. Qed.

Lemma valid_url_scheme url :
  HasPrefix url "http://" || HasPrefix url "https://" = true ->
  negb (HasPrefix url "http://") && negb (HasPrefix url "https://") = false.
Proof.
  destruct (HasPrefix url "http://"), (HasPrefix url "https://");
    simpl; congruence.
Qed.

Lemma ReadFull_exact body e :
  ReadFull (mkReader body e) (Z.of_nat (length body)) = (body, None).
Proof.
  unfold ReadFull; simpl. rewrite Z.leb_refl, firstn_all_Z. reflexivity.
Qed.

Lemma ReadAll_Limit_exact body e :
  body <> [] ->
  ReadAll_Limit (mkReader body e) (Z.of_nat (length body)) = (body, None).
Proof.
  intros Hne. unfold ReadAll_Limit; simpl.
  destruct (Z.of_nat (length body) <=? 0) eqn:H0.
  - apply Z.leb_le in H0. destruct body; [congruence | simpl in H0; lia].
  - rewrite Z.leb_refl, firstn_all_Z. reflexivity.
Qed.

Lemma ReadFull_length r n : 0 <= n ->
  Z.of_nat (length (fst (ReadFull r n))) <= n.
Proof.
  intros Hn. unfold ReadFull.
  assert (Hf : Z.of_nat (length (firstn (Z.to_nat n) (r_data r))) <= n).
  { rewrite length_firstn. lia. }
  destruct (n <=? Z.of_nat (length (r_data r))); [exact Hf|].
  destruct (firstn (Z.to_nat n) (r_data r)) eqn:Hg, (r_err r);
    simpl in *; lia.
Qed.

Lemma ReadAll_Limit_length r n : 0 <= n ->
  Z.of_nat (length (fst (ReadAll_Limit r n))) <= n.
Proof.
  intros Hn. unfold ReadAll_Limit.
  destruct (n <=? 0); [simpl; lia|].
  destruct (n <=? Z.of_nat (length (r_data r))) eqn:Hle; simpl.
  - rewrite length_firstn. lia.
  - apply Z.leb_gt in Hle. lia.
Qed.

(** A body of exactly [maxSize] bytes is returned in full, with or
    without an advertised length. *)
Lemma Download_exact x m tmo url bp resp body :
  pool.wf bp ->
  HasPrefix url "http://" || HasPrefix url "https://" = true ->
  http_Do x url = Resp resp ->
  StatusCode resp = 200 ->
  Body resp = mkReader body None ->
  Z.of_nat (length body) = maxSize (NewDownloader m tmo) ->
  ContentLength resp = -1
  \/ ContentLength resp = maxSize (NewDownloader m tmo) ->
  exists p src bp',
    Download x (NewDownloader m tmo) url bp
    = Ret (mkDownload body None (Some p) src, bp').
Proof.
  intros Hwf Hurl Hdo Hst Hbody Hlen Hcl.
  pose proof (maxSize_positive m tmo) as Hpos.
  assert (Hne : body <> []).
  { intros ->. rewrite <- Hlen in Hpos. simpl in Hpos. lia. }
  unfold Download.
  rewrite (valid_url_nonempty _ Hurl), (valid_url_scheme _ Hurl), Hdo, Hst.
  simpl negb. cbv iota.
  destruct (maxSize (NewDownloader m tmo) <? ContentLength resp) eqn:Hbig;
    [apply Z.ltb_lt in Hbig; lia|].
  destruct ((0 <? ContentLength resp)
            && (ContentLength resp <=? pool.Allocated (pool.GetStats bp)))
    eqn:Hpath.
  - apply andb_true_iff in Hpath as [Hp Hal]. apply Z.ltb_lt in Hp.
    apply Z.leb_le in Hal. cbn [pool.GetStats pool.Allocated] in Hal.
    destruct Hcl as [Hcl|Hcl]; [lia|].
    destruct (GetSized_returns (pool_serves x bp) (ContentLength resp) bp Hwf
                (conj Hp Hal))
      as (buf & src & bp1 & HG & Hsz & Hcap).
    rewrite HG. pose proof (GetSized_len _ _ _ _ _ _ HG) as Hl.
    rewrite Hl, Hcl, <- Hlen, Hbody, ReadFull_exact.
    rewrite (finish_download_nonempty _ _ _ Hne).
    destruct (PutSized_returns buf bp1) as [bp2 HP];
      [rewrite Hsz; apply Hwf | rewrite Hsz; exact Hcap |].
    rewrite HP. eauto.
  - rewrite <- Hlen, Hbody, (ReadAll_Limit_exact _ _ Hne).
    rewrite (finish_download_nonempty _ _ _ Hne). eauto.
Qed.

(** An advertised length above [maxSize] is rejected before any read. *)
Lemma Download_rejects_advertised x d url bp resp :
  HasPrefix url "http://" || HasPrefix url "https://" = true ->
  http_Do x url = Resp resp ->
  StatusCode resp = 200 ->
  maxSize d < ContentLength resp ->
  exists e, Download x d url bp = Ret (dl_fail e None None, bp).
Proof.
  intros Hurl Hdo Hst Hbig. unfold Download.
  rewrite (valid_url_nonempty _ Hurl), (valid_url_scheme _ Hurl), Hdo, Hst.
  simpl negb. cbv iota.
  apply Z.ltb_lt in Hbig. rewrite Hbig. eauto.
Qed.

Lemma dl_fail_data e p src : dl_data (dl_fail e p src) = [].
Proof. reflexivity. Qed.

Lemma finish_download_data data p src :
  dl_data (finish_download data p src) = data.
Proof. destruct data; reflexivity. Qed.

(** Whatever the response, [Download] never hands out more than
    [maxSize] bytes. *)
Lemma Download_bounded x d url bp res bp' :
  0 <= maxSize d ->
  Download x d url bp = Ret (res, bp') ->
  Z.of_nat (length (dl_data res)) <= maxSize d.
Proof.
  intros Hmax. unfold Download.
  destruct (String.eqb url ""); [intros H; inversion H; simpl; lia|].
  destruct (negb (HasPrefix url "http://") && negb (HasPrefix url "https://"));
    [intros H; inversion H; simpl; lia|].
  destruct (http_Do x url) as [e|e|resp];
    try (intros H; inversion H; simpl; lia).
  destruct (negb (StatusCode resp =? 200));
    [intros H; inversion H; simpl; lia|].
  destruct (maxSize d <? ContentLength resp) eqn:Hbig;
    [intros H; inversion H; simpl; lia|].
  apply Z.ltb_ge in Hbig.
  destruct ((0 <? ContentLength resp)
            && (ContentLength resp <=? pool.Allocated (pool.GetStats bp)))
    eqn:Hpath.
  - apply andb_true_iff in Hpath as [Hp _]. apply Z.ltb_lt in Hp.
    destruct (pool.GetSized (pool_serves x bp) (ContentLength resp) bp)
      as [[[buf src] bp1]|] eqn:HG; [|discriminate].
    pose proof (GetSized_len _ _ _ _ _ _ HG) as Hl.
    pose proof (ReadFull_length (Body resp) (len buf)) as Hr.
    destruct (ReadFull (Body resp) (len buf)) as [got err]. simpl in Hr.
    destruct (pool.PutSized buf bp1); [|discriminate].
    intros H; inversion H; subst res bp'.
    destruct err as [e|]; [destruct (String.eqb e ErrUnexpectedEOF)|];
      rewrite ?finish_download_data, ?dl_fail_data; simpl; lia.
  - pose proof (ReadAll_Limit_length (Body resp) (maxSize d) Hmax) as Hr.
    destruct (ReadAll_Limit (Body resp) (maxSize d)) as [got err].
    simpl in Hr.
    destruct err; intros H; inversion H;
      rewrite ?finish_download_data, ?dl_fail_data; simpl; lia.
Qed.

Lemma finish_download_path data p src :
  dl_path (finish_download data p src) = Some p.
Proof. destruct data; reflexivity. Qed.

(** The branch [Download] takes for a 200 response within the size cap
    is decided by the pool's count of allocated buffers. *)
Lemma Download_path_choice x d url bp resp res bp' :
  HasPrefix url "http://" || HasPrefix url "https://" = true ->
  http_Do x url = Resp resp ->
  StatusCode resp = 200 ->
  ContentLength resp <= maxSize d ->
  Download x d url bp = Ret (res, bp') ->
  dl_path res
  = Some (if (0 <? ContentLength resp)
             && (ContentLength resp <=? pool.allocated bp)
          then PooledBuffer else LimitedReader).
Proof.
  intros Hurl Hdo Hst Hcl. unfold Download.
  rewrite (valid_url_nonempty _ Hurl), (valid_url_scheme _ Hurl), Hdo, Hst.
  simpl negb. cbv iota.
  destruct (maxSize d <? ContentLength resp) eqn:Hbig;
    [apply Z.ltb_lt in Hbig; lia|].
  change (pool.Allocated (pool.GetStats bp)) with (pool.allocated bp).
  destruct ((0 <? ContentLength resp)
            && (ContentLength resp <=? pool.allocated bp)).
  - destruct (pool.GetSized (pool_serves x bp) (ContentLength resp) bp)
      as [[[buf src] bp1]|]; [|discriminate].
    destruct (ReadFull (Body resp) (len buf)) as [got err].
    destruct (pool.PutSized buf bp1); [|discriminate].
    intros H; inversion H; subst res bp'.
    destruct err as [e|]; [destruct (String.eqb e ErrUnexpectedEOF)|];
      rewrite ?finish_download_path; reflexivity.
  - destruct (ReadAll_Limit (Body resp) (maxSize d)) as [got err].
    destruct err; intros H; inversion H;
      rewrite ?finish_download_path; reflexivity.
Qed.

(** C3, on the code: with the default pool (100 buffers of 10 MiB) a
    response that advertises 1000 bytes, far below the per-buffer size,
    is read through the size-capped reader; no buffer is borrowed and the
    pool is left untouched.  The test of the source compares the length
    with the number of allocated buffers (100), not with their size. *)
Theorem known_small_length_bypasses_pool :
  let x := scenario.world (Resp (scenario.ok_response 1000 1000)) "" in
  0 < 1000 <= pool.size scenario.default_pool
  /\ pool.allocated scenario.default_pool = 100
  /\ exists res,
       Download x (NewDownloader 0 0) "http://host/a.bin"
         scenario.default_pool = Ret (res, scenario.default_pool)
       /\ dl_path res = Some LimitedReader
       /\ dl_source res = None
       /\ dl_err res = None
       /\ length (dl_data res) = 1000%nat.
Proof.
  intros x.
  split; [vm_compute; split; [reflexivity | discriminate]|].
  split; [vm_compute; reflexivity|].
  exists (mkDownload (repeat Byte.x41 1000) None (Some LimitedReader) None).
  split; [vm_compute; reflexivity|].
  repeat split.
Qed.

(** C5, on the code: with [MAX_DOWNLOAD_SIZE=16], a body of 17 bytes
    whose length is not advertised is not an error; its first 16 bytes
    come back as a successful download. *)
Lemma oversize_unknown_length_is_truncated :
  let d := NewDownloader 16 0 in
  let x := scenario.world (Resp (scenario.ok_response (-1) 17)) "" in
  Z.of_nat (length (r_data (Body (scenario.ok_response (-1) 17))))
  = maxSize d + 1
  /\ Download x d "http://host/a.bin" scenario.default_pool
     = Ret (mkDownload (repeat Byte.x41 16) None (Some LimitedReader) None,
            scenario.default_pool).
Proof. split; vm_compute; reflexivity. Qed.

(** C5, as amended: a body of exactly [max_download_size] bytes is
    returned in full whether or not its length is advertised; a response
    that advertises [max_download_size + 1] bytes is an error; and no
    download, advertised or not, returns more than [max_download_size]
    bytes. *)
Theorem Download_size_cap x m tmo url bp resp :
  pool.wf bp ->
  HasPrefix url "http://" || HasPrefix url "https://" = true ->
  http_Do x url = Resp resp ->
  StatusCode resp = 200 ->
  (forall body,
      Body resp = mkReader body None ->
      Z.of_nat (length body) = maxSize (NewDownloader m tmo) ->
      ContentLength resp = -1
      \/ ContentLength resp = maxSize (NewDownloader m tmo) ->
      exists p src bp',
        Download x (NewDownloader m tmo) url bp
        = Ret (mkDownload body None (Some p) src, bp'))
  /\ (ContentLength resp = maxSize (NewDownloader m tmo) + 1 ->
      exists e,
        Download x (NewDownloader m tmo) url bp
        = Ret (dl_fail e None None, bp))
  /\ (forall res bp',
        Download x (NewDownloader m tmo) url bp = Ret (res, bp') ->
        Z.of_nat (length (dl_data res)) <= maxSize (NewDownloader m tmo)).
Proof.
  intros Hwf Hurl Hdo Hst. split; [|split].
  - intros body Hbody Hlen Hcl. eapply Download_exact; eauto.
  - intros Hcl. eapply Download_rejects_advertised; eauto. lia.
  - intros res bp' HD. eapply Download_bounded; [|exact HD].
    pose proof (maxSize_positive m tmo). lia.
Qed.

Lemma Download_size_cap_witness :
  let x := scenario.world (Resp (scenario.ok_response 16 16)) "" in
  (forall body,
      Body (scenario.ok_response 16 16) = mkReader body None ->
      Z.of_nat (length body) = maxSize (NewDownloader 16 0) ->
      ContentLength (scenario.ok_response 16 16) = -1
      \/ ContentLength (scenario.ok_response 16 16)
         = maxSize (NewDownloader 16 0) ->
      exists p src bp',
        Download x (NewDownloader 16 0) "http://host/a.bin"
          scenario.default_pool
        = Ret (mkDownload body None (Some p) src, bp'))
  /\ (ContentLength (scenario.ok_response 16 16)
      = maxSize (NewDownloader 16 0) + 1 ->
      exists e,
        Download x (NewDownloader 16 0) "http://host/a.bin"
          scenario.default_pool
        = Ret (dl_fail e None None, scenario.default_pool))
  /\ (forall res bp',
        Download x (NewDownloader 16 0) "http://host/a.bin"
          scenario.default_pool = Ret (res, bp') ->
        Z.of_nat (length (dl_data res)) <= maxSize (NewDownloader 16 0)).
Proof.
  intros x.
  apply (Download_size_cap x 16 0 "http://host/a.bin" scenario.default_pool
           (scenario.ok_response 16 16)).
  - vm_compute. split; [discriminate|]. split.
    { repeat (constructor; [discriminate|]). constructor. }
    split; [split; [discriminate | reflexivity] | intros _; discriminate].
  - reflexivity.
  - reflexivity.
  - reflexivity.
Defined.

End DownloaderFacts.


(** ** Device cache *)

Section CacheFacts.
Import go cache.

Lemma same_but_uses_refl e : same_but_uses e e.
Proof. unfold same_but_uses. tauto. Qed.

Lemma same_but_uses_trans e1 e2 e3 :
  same_but_uses e1 e2 -> same_but_uses e2 e3 -> same_but_uses e1 e3.
Proof. unfold same_but_uses. intuition congruence. Qed.

Lemma same_but_uses_bump e : same_but_uses e (bump_uses e).
Proof. unfold same_but_uses, bump_uses; simpl. tauto. Qed.

Lemma slot_kept_refl o : slot_kept o o.
Proof. destruct o; simpl; [apply same_but_uses_refl | exact I]. Qed.

Lemma slot_kept_trans o1 o2 o3 :
  slot_kept o1 o2 -> slot_kept o2 o3 -> slot_kept o1 o3.
Proof.
  destruct o1, o2, o3; simpl; try tauto. apply same_but_uses_trans.
Qed.

Lemma lookup_recordMiss d k dc : lookup d k (recordMiss dc) = lookup d k dc.
Proof. reflexivity. Qed.

Lemma lookup_recordHit d k dc : lookup d k (recordHit dc) = lookup d k dc.
Proof. reflexivity. Qed.

(** The slot written by an update of the map at [(d, h)]. *)
Lemma lookup_update d h (e : CacheEntry) sub dc d' k :
  lookup d' k (set_cache (<[d := <[h := e]> sub]> (cache dc)) dc)
  = if decide (d = d')
    then if decide (h = k) then Some e else sub !! k
    else lookup d' k dc.
Proof.
  unfold lookup; simpl. destruct (decide (d = d')) as [->|Hd].
  - rewrite lookup_insert_eq; simpl.
    destruct (decide (h = k)) as [->|Hk].
    + apply lookup_insert_eq.
    + apply lookup_insert_ne; exact Hk.
  - rewrite lookup_insert_ne by exact Hd. reflexivity.
Qed.

(** One lookup leaves every slot as it was, up to [Uses]. *)
Lemma Get_frame now deviceID url dc d k :
  slot_kept (lookup d k dc) (lookup d k (snd (Get now deviceID url dc))).
Proof.
  unfold Get.
  destruct (cache dc !! deviceID) as [sub|] eqn:Hd;
    [|simpl; rewrite lookup_recordMiss; apply slot_kept_refl].
  destruct (sub !! hashURL url) as [e|] eqn:He;
    [|simpl; rewrite lookup_recordMiss; apply slot_kept_refl].
  destruct (After now (CacheExpires e));
    [simpl; rewrite lookup_recordMiss; apply slot_kept_refl|].
  simpl. rewrite lookup_recordHit, lookup_update.
  destruct (decide (deviceID = d)) as [<-|Hne]; [|apply slot_kept_refl].
  unfold lookup. rewrite Hd; simpl.
  destruct (decide (hashURL url = k)) as [<-|Hk]; [|apply slot_kept_refl].
  rewrite He. simpl. apply same_but_uses_bump.
Qed.

Lemma Get_TTLs now deviceID url dc :
  cacheTTL (snd (Get now deviceID url dc)) = cacheTTL dc
  /\ fileTTL (snd (Get now deviceID url dc)) = fileTTL dc.
Proof.
  unfold Get.
  destruct (cache dc !! deviceID) as [sub|]; [|split; reflexivity].
  destruct (sub !! hashURL url) as [e|]; [|split; reflexivity].
  destruct (After now (CacheExpires e)); split; reflexivity.
Qed.

(** The entry a hit returns is the stored one with [Uses] incremented. *)
Lemma Get_returns_stored now deviceID url dc e' dc' :
  Get now deviceID url dc = (Some e', dc') ->
  exists e,
    lookup deviceID (hashURL url) dc = Some e
    /\ e' = bump_uses e
    /\ After now (CacheExpires e) = false
    /\ lookup deviceID (hashURL url) dc' = Some e'
    /\ stats dc' = mkCacheStats (int64_add (Hits (stats dc)) 1)
                     (Misses (stats dc)) (Evictions (stats dc)).
Proof.
  unfold Get, lookup.
  destruct (cache dc !! deviceID) as [sub|] eqn:Hd; [|discriminate].
  destruct (sub !! hashURL url) as [e|] eqn:He; [|discriminate].
  destruct (After now (CacheExpires e)) eqn:Ha; [discriminate|].
  intros H; inversion H; subst. exists e. simpl.
  rewrite lookup_insert_eq; simpl. rewrite lookup_insert_eq. auto.
Qed.

(** C8: over any sequence of lookups, at any clock readings and for any
    devices and URLs, every slot of the map keeps its entry with the same
    ProcessedPath, CacheExpires, FileExpires, Created, Size, MediaType and
    URL; no slot is emptied or filled, and the two TTLs of the cache are
    unchanged.  Only [Uses] (and the global statistics) can differ. *)
Theorem Get_mutates_only_Uses calls : forall dc deviceID urlHash,
  slot_kept (lookup deviceID urlHash dc) (lookup deviceID urlHash (gets calls dc))
  /\ cacheTTL (gets calls dc) = cacheTTL dc
  /\ fileTTL (gets calls dc) = fileTTL dc.
Proof.
  induction calls as [|[[now d] u] rest IH]; intros dc deviceID urlHash.
  - simpl. split; [apply slot_kept_refl | split; reflexivity].
  - cbn [gets].
    destruct (IH (snd (Get now d u dc)) deviceID urlHash) as (Hs & Hc & Hf).
    destruct (Get_TTLs now d u dc) as [Hc1 Hf1].
    split; [|split; congruence].
    eapply slot_kept_trans; [apply Get_frame | exact Hs].
Qed.

(** C6, on the code: an entry inserted at instant 0 with the default TTLs
    expires at minute 28, and a lookup at exactly that instant returns it;
    the lookup time is not strictly before [CacheExpires]. *)
Lemma Get_hit_at_expiry_instant :
  let dc := scenario.cached_audio 0 "/tmp/media-cache/audios/d1_dcce78aa_0.opus"
              (NewDeviceCache "/tmp/media-cache" 0 0) in
  exists e,
    fst (Get (28 * Minute) "d1" scenario.audio_url dc) = Some e
    /\ CacheExpires e = 28 * Minute
    /\ ~ (28 * Minute < CacheExpires e).
Proof.
  intros dc.
  exists (mkCacheEntry "/tmp/media-cache/audios/d1_dcce78aa_0.opus"
            (28 * Minute) (30 * Minute) 0 1 2048 "audio" scenario.audio_url).
  split; [vm_compute; reflexivity|].
  split; [reflexivity|]. simpl. lia.
Qed.

(** C6, as amended: for every entry [e] returned by a lookup, the lookup
    time is not after [e.cache_expires_at]; a lookup at exactly
    [cache_expires_at] is still a hit. *)
Theorem Get_hit_not_after_expiry now deviceID url dc e dc' :
  Get now deviceID url dc = (Some e, dc') ->
  now <= CacheExpires e.
Proof.
  intros H. apply Get_returns_stored in H as (e0 & _ & -> & Ha & _).
  unfold After in Ha. apply Z.ltb_ge in Ha. exact Ha.
Qed.

Lemma Get_hit_not_after_expiry_witness :
  exists e dc',
    Get (28 * Minute) "d1" scenario.audio_url
      (scenario.cached_audio 0 "/tmp/media-cache/audios/d1_dcce78aa_0.opus"
         (NewDeviceCache "/tmp/media-cache" 0 0)) = (Some e, dc')
    /\ 28 * Minute <= CacheExpires e.
Proof.
  assert (H : exists e dc',
             Get (28 * Minute) "d1" scenario.audio_url
               (scenario.cached_audio 0
                  "/tmp/media-cache/audios/d1_dcce78aa_0.opus"
                  (NewDeviceCache "/tmp/media-cache" 0 0)) = (Some e, dc'))
    by (eexists _, _; vm_compute; reflexivity).
  destruct H as (e & dc' & H). exists e, dc'. split; [exact H|].
  exact (Get_hit_not_after_expiry _ _ _ _ _ _ H).
Defined.

Lemma lookup_Set now deviceID url path mediaType fileSize dc :
  lookup deviceID (hashURL url)
    (fst (Set_ now deviceID url path mediaType fileSize dc))
  = Some (mkCacheEntry path (Add now (cacheTTL dc)) (Add now (fileTTL dc)) now
            0 fileSize mediaType url).
Proof.
  unfold Set_; cbn [fst]. rewrite lookup_update.
  rewrite !decide_True by reflexivity. reflexivity.
Qed.

(** C7, on the code: constructed with [cacheTTL] = 40 minutes and
    [fileTTL] = 30 minutes, the cache creates entries whose file expires
    10 minutes before the entry stops being a hit. *)
Lemma expiry_gap_can_be_negative :
  let dc := NewDeviceCache "/tmp/media-cache" (40 * Minute) (30 * Minute) in
  exists e,
    lookup "d1" (hashURL scenario.audio_url)
      (scenario.cached_audio 0 "/tmp/media-cache/audios/d1_dcce78aa_0.opus" dc)
    = Some e
    /\ FileExpires e - CacheExpires e = fileTTL dc - cacheTTL dc
    /\ ~ (0 < FileExpires e - CacheExpires e).
Proof.
  intros dc. eexists. split; [apply lookup_Set|].
  split; [reflexivity|]. vm_compute. discriminate.
Qed.

(** C7, as amended: for every entry created by [Set], on a cache in any
    state, [file_expires_at - cache_expires_at] equals the cache's
    [file_ttl - cache_ttl]; the difference is strictly positive exactly
    when [file_ttl] exceeds [cache_ttl].  The constructor replaces
    non-positive arguments by 28 and 30 minutes and takes any other pair
    as it is; with both defaults the difference is 2 minutes. *)
Theorem Set_expiry_gap now deviceID url path mediaType fileSize dc :
  (exists e,
      lookup deviceID (hashURL url)
        (fst (Set_ now deviceID url path mediaType fileSize dc)) = Some e
      /\ FileExpires e - CacheExpires e = fileTTL dc - cacheTTL dc
      /\ (0 < FileExpires e - CacheExpires e <-> cacheTTL dc < fileTTL dc))
  /\ (forall dir c f,
        cacheTTL (NewDeviceCache dir c f) = (if c <=? 0 then 28 * Minute else c)
        /\ fileTTL (NewDeviceCache dir c f) = (if f <=? 0 then 30 * Minute else f)
        /\ (c <= 0 -> f <= 0 ->
            fileTTL (NewDeviceCache dir c f) - cacheTTL (NewDeviceCache dir c f)
            = 2 * Minute)).
Proof.
  split.
  - eexists. split; [apply lookup_Set|]. cbn [FileExpires CacheExpires].
    unfold Add. split; lia.
  - intros dir c f. unfold NewDeviceCache; cbn [cacheTTL fileTTL].
    split; [reflexivity|]. split; [reflexivity|].
    intros Hc Hf. apply Z.leb_le in Hc, Hf. rewrite Hc, Hf. reflexivity.
Qed.

(** The periodic sweep, the sibling of the per-entry deleter, keeps every
    entry whose file has not expired. *)
Lemma cleanup_keeps_unexpired now dc d k e :
  lookup d k dc = Some e ->
  After now (FileExpires e) = false ->
  lookup d k (fst (cleanup now dc)) = Some e.
Proof.
  unfold lookup, cleanup; cbn [fst cache set_cache].
  intros Hl Hexp. rewrite lookup_omap.
  destruct (cache dc !! d) as [sub|]; [|discriminate]. simpl in *.
  assert (Hk : filter (fun '(_, e0) => file_expired now e0 = false) sub !! k
               = Some e).
  { apply map_lookup_filter_Some. split; [exact Hl | exact Hexp]. }
  destruct (decide (filter (fun '(_, e0) => file_expired now e0 = false) sub = ∅))
    as [Hempty|]; [|exact Hk].
  rewrite Hempty, lookup_empty in Hk. discriminate.
Qed.

(** C2, on the code: device d1 converts the same URL at minute 0 and again
    at minute 29, after the first entry stopped being a hit.  The second
    entry replaces the first and is a hit until minute 57.  At minute 30
    the deleter armed by the first insertion wakes up and removes the slot
    of the pair, which now holds the second entry: a lookup at minute 31,
    26 minutes before that entry's [CacheExpires], is a miss, while the
    file of the second entry is still on disk. *)
Theorem stale_deleter_removes_replacement :
  let s0 := init "/tmp/media-cache" 0 0 scenario.both_files 0 in
  exists s2 s3 e,
    run scenario.two_conversions s0 = Some s2
    /\ lookup "d1" (hashURL scenario.audio_url) (s_dc s2) = Some e
    /\ ProcessedPath e = "/tmp/media-cache/audios/d1_dcce78aa_1740.opus"%string
    /\ CacheExpires e = 57 * Minute
    /\ fst (Get (29 * Minute + 1) "d1" scenario.audio_url (s_dc s2)) <> None
    /\ step (EvWake 0 (30 * Minute)) s2 = Some s3
    /\ lookup "d1" (hashURL scenario.audio_url) (s_dc s3) = None
    /\ 31 * Minute < CacheExpires e
    /\ fst (Get (31 * Minute) "d1" scenario.audio_url (s_dc s3)) = None
    /\ Stat (s_fs s3) (ProcessedPath e) = Some 1.
Proof.
  intros s0. eexists _, _, _.
  split; [vm_compute; reflexivity|].
  split; [vm_compute; reflexivity|].
  split; [vm_compute; reflexivity|].
  split; [vm_compute; reflexivity|].
  split; [vm_compute; discriminate|].
  split; [vm_compute; reflexivity|].
  split; [vm_compute; reflexivity|].
  split; [vm_compute; reflexivity|].
  split; vm_compute; reflexivity.
Qed.

End CacheFacts.


(** ** Video parameters *)

Section VideoFacts.
Import go services.

(** For a probed bitrate of 5 kbps every draw of the basic level gives a
    variation below one, which [int] truncates to zero. *)
Lemma variation_of_5_kbps r :
  0 <= r < 6 -> VideoConverter.bitrateVariation 5 0.05%float r = 0.
Proof.
  intros Hr.
  assert (H : r = 0 \/ r = 1 \/ r = 2 \/ r = 3 \/ r = 4 \/ r = 5) by lia.
  destruct H as [->|[->|[->|[->|[->| ->]]]]]; vm_compute; reflexivity.
Qed.

(** C9, on the code: for the level basic and a probed bitrate of 5 kbps,
    whatever the generator draws, [getRandomizedParams] calls
    [rand.Intn(0)] and panics; a video whose probe prints 5000 bits per
    second brings the handler there. *)
Theorem basic_level_panics_at_5_kbps :
  (forall x pos,
      VideoConverter.getRandomizedParams x "basic" 5 pos
      = Panic "invalid argument to Intn")
  /\ VideoConverter.getVideoBitrate (scenario.world scenario.offline "5000")
       [Byte.x00] = Some 5
  /\ handlers.Convert (scenario.world scenario.offline "5000")
       scenario.default_handler (scenario.ticking 0) false
       (handlers.mkRequest "d1" "AAAA" "video" "basic" true)
       scenario.fresh_process
     = Panic "invalid argument to Intn".
Proof.
  split; [|split; vm_compute; reflexivity].
  intros x pos. unfold VideoConverter.getRandomizedParams.
  change (String.eqb "basic" "basic") with true. cbv iota.
  unfold draw at 1. unfold Intn at 1. change (6 <=? 0) with false. cbv iota.
  cbn [bind].
  rewrite variation_of_5_kbps by (apply Z.mod_pos_bound; lia).
  reflexivity.
Qed.

End VideoFacts.


(** ** Request handler *)

Section HandlerFacts.
Import go handlers.

Lemma substring_app_tail (b s : string) :
  String.substring (String.length b) (String.length s) (b ++ s) = s.
Proof.
  induction b as [|c b IH]; simpl.
  - induction s as [|c s IHs]; simpl; [reflexivity | f_equal; exact IHs].
  - exact IH.
Qed.

Lemma length_append (b s : string) :
  String.length (b ++ s) = (String.length b + String.length s)%nat.
Proof. induction b as [|c b IH]; simpl; [reflexivity | f_equal; exact IH]. Qed.

Lemma HasSuffix_app (b s : string) : HasSuffix (b ++ s) s = true.
Proof.
  unfold HasSuffix. rewrite length_append.
  replace (String.length b + String.length s - String.length s)%nat
    with (String.length b) by lia.
  rewrite substring_app_tail, String.eqb_refl, andb_true_r.
  apply Nat.leb_le. lia.
Qed.

(** Whatever path the handler proposes, a PNG input is persisted under a
    name that ends in [.png]. *)
Lemma adjustOutputPath_png path :
  HasSuffix (services.ImageConverter.adjustOutputPath path "png") ".png" = true.
Proof.
  unfold services.ImageConverter.adjustOutputPath.
  change (String.eqb "png" "png") with true. cbv iota. apply HasSuffix_app.
Qed.

(** C1, on the code: scenario 2 of the specification on a fresh service.
    The payload decodes to the 70 bytes of a PNG; the image converter
    succeeds and persists its output under [..._1700000000.png]; the
    handler then stats the path it generated, [..._1700000000.jpg], finds
    nothing there and answers 500 instead of the success the claim
    states. *)
Theorem inline_png_is_written_as_png_and_stat_as_jpg :
  let x := scenario.world scenario.offline "" in
  let clk := scenario.ticking (1700000000 * Second) in
  exists data p',
    DecodeString scenario.png_1x1_base64 = Some data
    /\ length data = 70%nat
    /\ services.ImageConverter.detectFormat data = "png"%string
    /\ Convert x scenario.default_handler clk false scenario.inline_png_request
         scenario.fresh_process
       = Ret (ErrorResponse 500 "Failed to stat output file"
                "stat /tmp/media-cache/imagens/d2_d74c3b09_1700000000.jpg: no such file or directory",
              p')
    /\ p_files p'
         !! "/tmp/media-cache/imagens/d2_d74c3b09_1700000000.png"%string
       = Some data
    /\ p_files p'
         !! "/tmp/media-cache/imagens/d2_d74c3b09_1700000000.jpg"%string
       = None
    /\ services.TotalConversions (p_image p') = 1
    /\ services.FailedConversions (p_image p') = 0.
Proof.
  intros x clk. eexists _, _.
  split; [vm_compute; reflexivity|].
  split; [vm_compute; reflexivity|].
  split; [vm_compute; reflexivity|].
  split; [vm_compute; reflexivity|].
  split; [vm_compute; reflexivity|].
  split; [vm_compute; reflexivity|].
  split; vm_compute; reflexivity.
Qed.

Lemma Get_miss now d u dc :
  fst (cache.Get now d u dc) = None ->
  snd (cache.Get now d u dc) = cache.recordMiss dc.
Proof.
  unfold cache.Get.
  destruct (cache.cache dc !! d) as [sub|]; [|reflexivity].
  destruct (sub !! cache.hashURL u) as [e|]; [|reflexivity].
  destruct (After now (cache.CacheExpires e)); [reflexivity | discriminate].
Qed.


Lemma dispatch_cache x clk mt data level out p err p' :
  dispatch x clk mt data level out p = Ret (err, p') ->
  p_cache p' = p_cache p.
Proof.
  unfold dispatch, services.bind.
  destruct (String.eqb mt "audio").
  { destruct (services.AudioConverter.Convert _ _ _ _ _ _ _) as [[e st]|];
      [|discriminate]. intros H; inversion H; reflexivity. }
  destruct (String.eqb mt "image").
  { destruct (services.ImageConverter.Convert _ _ _ _ _ _ _) as [[e st]|];
      [|discriminate]. intros H; inversion H; reflexivity. }
  destruct (String.eqb mt "video").
  { destruct (services.VideoConverter.Convert _ _ _ _ _ _ _) as [[e st]|];
      [|discriminate]. intros H; inversion H; reflexivity. }
  intros H; inversion H; reflexivity.
Qed.

Lemma fetch_cache x h req p r p' :
  fetch x h req p = Ret (r, p') -> p_cache p' = p_cache p.
Proof.
  unfold fetch, services.bind. destruct (IsBase64 req).
  - destruct (DecodeString (URL req)); intros H; inversion H; reflexivity.
  - destruct (services.Download _ _ _ _) as [[res bp]|]; [|discriminate].
    destruct (services.dl_err res); intros H; inversion H; reflexivity.
Qed.








End HandlerFacts.


(** * Further properties of the code *)

(** ** Buffer pool: construction, soundness and round trips *)

Section BufferPoolMore.
Import go pool.

Lemma prealloc_fields n sz bp :
  size (prealloc n sz bp) = size bp
  /\ inUse (prealloc n sz bp) = inUse bp
  /\ hits (prealloc n sz bp) = hits bp
  /\ misses (prealloc n sz bp) = misses bp
  /\ length (reserve (prealloc n sz bp)) = (n + length (reserve bp))%nat.
Proof.
  induction n as [|n IH]; simpl; [tauto|].
  destruct IH as (H1 & H2 & H3 & H4 & H5). rewrite H5. tauto.
Qed.

Lemma wrap_range w x : 0 < w -> - 2 ^ (w - 1) <= wrap w x < 2 ^ (w - 1).
Proof.
  intros Hw. unfold wrap. pose proof (pow2_split w Hw).
  assert (0 < 2 ^ (w - 1)) by (apply Z.pow_pos_nonneg; lia).
  pose proof (Z.mod_pos_bound (x + 2 ^ (w - 1)) (2 ^ w)). lia.
Qed.

Lemma int32_add_range x y : - 2 ^ 31 <= int32_add x y < 2 ^ 31.
Proof. unfold int32_add. apply (wrap_range 32). lia. Qed.

Lemma prealloc_allocated_range n sz bp :
  - 2 ^ 31 <= allocated bp < 2 ^ 31 ->
  - 2 ^ 31 <= allocated (prealloc n sz bp) < 2 ^ 31.
Proof.
  destruct n as [|n]; [tauto|]. intros _. cbn [prealloc allocated].
  apply int32_add_range.
Qed.

Lemma prealloc_allocated n sz bp :
  0 <= allocated bp -> allocated bp + Z.of_nat n < 2 ^ 31 ->
  allocated (prealloc n sz bp) = allocated bp + Z.of_nat n.
Proof.
  induction n as [|n IH]; intros H0 Hn; simpl.
  - lia.
  - rewrite IH by lia. unfold int32_add. rewrite wrap_small; lia.
Qed.

Lemma prealloc_reserve n sz bp b :
  In b (reserve (prealloc n sz bp)) ->
  b = mkSlice false sz sz \/ In b (reserve bp).
Proof.
  induction n as [|n IH]; simpl; [tauto|].
  intros [<-|H]; [left; reflexivity | apply IH; exact H].
Qed.

Lemma NewBufferPool_fields count sz bp :
  NewBufferPool count sz = Ret bp ->
  size bp = sz /\ inUse bp = 0 /\ hits bp = 0 /\ misses bp = 0
  /\ 0 <= count /\ length (reserve bp) = Z.to_nat count.
Proof.
  unfold NewBufferPool. destruct (count <? 0) eqn:Hc; [discriminate|].
  destruct (maxAlloc <? 24 * count); [discriminate|]. cbn [orb].
  destruct ((0 <? count) && ((sz <? 0) || (maxAlloc <? sz))); [discriminate|].
  intros H; inversion H; subst.
  destruct (prealloc_fields (Z.to_nat count) sz (mkBufferPool [] sz 0 0 0 0))
    as (H1 & H2 & H3 & H4 & H5).
  apply Z.ltb_ge in Hc. cbn [size inUse hits misses reserve] in *.
  rewrite H1, H2, H3, H4, H5. cbn [length]. rewrite Nat.add_0_r.
  repeat split; try reflexivity. exact Hc.
Qed.

Lemma NewBufferPool_reserve count sz bp b :
  NewBufferPool count sz = Ret bp -> In b (reserve bp) ->
  b = mkSlice false sz sz.
Proof.
  unfold NewBufferPool. destruct ((count <? 0) || (maxAlloc <? 24 * count));
    [discriminate|].
  destruct ((0 <? count) && ((sz <? 0) || (maxAlloc <? sz))); [discriminate|].
  intros H Hb; inversion H; subst.
  apply prealloc_reserve in Hb as [->|[]]. reflexivity.
Qed.

(** [NewBufferPool] allocates nothing, or buffers of a length that [make]
    accepts. *)
Lemma NewBufferPool_allocated_ok count sz bp :
  NewBufferPool count sz = Ret bp -> allocated_ok bp.
Proof.
  unfold NewBufferPool. destruct ((count <? 0) || (maxAlloc <? 24 * count));
    [discriminate|].
  destruct (0 <? count) eqn:Hc; cbn [andb].
  - destruct (sz <? 0) eqn:Hneg; [discriminate|].
    destruct (maxAlloc <? sz) eqn:Hbig; [discriminate|]. cbn [orb].
    apply Z.ltb_ge in Hbig. intros H; inversion H; subst. split.
    + apply prealloc_allocated_range. cbn [allocated]. lia.
    + intros _.
      destruct (prealloc_fields (Z.to_nat count) sz
                  (mkBufferPool [] sz 0 0 0 0)) as (H1 & _).
      rewrite H1. exact Hbig.
  - apply Z.ltb_ge in Hc. intros H; inversion H; subst.
    replace (Z.to_nat count) with O by lia. cbn [prealloc].
    unfold allocated_ok; cbn [allocated size]. split; lia.
Qed.

Lemma NewBufferPool_sound count sz bp :
  NewBufferPool count sz = Ret bp -> 0 <= sz -> sound bp.
Proof.
  intros HN Hsz. pose proof (NewBufferPool_fields _ _ _ HN) as (Hs & _).
  split; [rewrite Hs; exact Hsz|].
  split; [|exact (NewBufferPool_allocated_ok _ _ _ HN)].
  apply Forall_forall. intros b Hb. apply list_elem_of_In in Hb.
  rewrite (NewBufferPool_reserve _ _ _ _ HN Hb).
  unfold pooled. rewrite Hs. cbn [is_nil len cap]. repeat split; lia.
Qed.

(** X1: for a buffer count below 2^31, [NewBufferPool] returns a pool
    when the buffer size is between 0 and the allocation limit: it starts
    with [allocated] = [count], all buffers in the reserve, nothing in use
    and both counters at zero, so its statistics report [Available] =
    [count].  With at least one buffer to allocate and a size that is
    negative or above the limit it panics in [make]. *)
Theorem NewBufferPool_preallocates count sz :
  0 <= count < 2 ^ 31 ->
  (0 <= sz <= maxAlloc ->
   exists bp,
     NewBufferPool count sz = Ret bp
     /\ allocated bp = count
     /\ length (reserve bp) = Z.to_nat count
     /\ inUse bp = 0 /\ hits bp = 0 /\ misses bp = 0
     /\ Available (GetStats bp) = count
     /\ sound bp)
  /\ (0 < count -> sz < 0 \/ maxAlloc < sz ->
      NewBufferPool count sz = Panic "makeslice: len out of range").
Proof.
  intros Hc.
  assert (Hcount : (count <? 0) || (maxAlloc <? 24 * count) = false).
  { apply orb_false_iff. split; [apply Z.ltb_ge; lia|].
    apply Z.ltb_ge. unfold maxAlloc.
    assert (24 * 2 ^ 31 <= 2 ^ 48) by (vm_compute; discriminate). lia. }
  split.
  - intros Hsz.
    assert (HN : NewBufferPool count sz
                 = Ret (prealloc (Z.to_nat count) sz
                          (mkBufferPool [] sz 0 0 0 0))).
    { unfold NewBufferPool. rewrite Hcount.
      replace (sz <? 0) with false by (symmetry; apply Z.ltb_ge; lia).
      replace (maxAlloc <? sz) with false by (symmetry; apply Z.ltb_ge; lia).
      cbn [orb]. rewrite andb_false_r. reflexivity. }
    eexists. split; [exact HN|].
    pose proof (NewBufferPool_fields _ _ _ HN) as (Hs & Hu & Hh & Hm & _ & Hl).
    assert (Ha : allocated (prealloc (Z.to_nat count) sz
                              (mkBufferPool [] sz 0 0 0 0)) = count).
    { rewrite prealloc_allocated; simpl; lia. }
    split; [exact Ha|]. split; [exact Hl|]. split; [exact Hu|].
    split; [exact Hh|]. split; [exact Hm|]. split.
    + unfold GetStats; cbn [Available]. rewrite Ha, Hu, Z.sub_0_r.
      apply wrap_small; lia.
    + apply (NewBufferPool_sound _ _ _ HN). lia.
  - intros Hpos Hbad. unfold NewBufferPool. rewrite Hcount.
    replace (0 <? count) with true by (symmetry; apply Z.ltb_lt; lia).
    cbn [andb].
    replace ((sz <? 0) || (maxAlloc <? sz)) with true; [reflexivity|].
    symmetry. apply orb_true_iff.
    destruct Hbad; [left | right]; apply Z.ltb_lt; assumption.
Qed.

Lemma NewBufferPool_preallocates_witness :
  (0 <= 10 * 1024 * 1024 <= maxAlloc ->
   exists bp,
     NewBufferPool 100 (10 * 1024 * 1024) = Ret bp
     /\ allocated bp = 100
     /\ length (reserve bp) = Z.to_nat 100
     /\ inUse bp = 0 /\ hits bp = 0 /\ misses bp = 0
     /\ Available (GetStats bp) = 100
     /\ sound bp)
  /\ (0 < 100 -> 10 * 1024 * 1024 < 0 \/ maxAlloc < 10 * 1024 * 1024 ->
      NewBufferPool 100 (10 * 1024 * 1024)
      = Panic "makeslice: len out of range").
Proof.
  apply (NewBufferPool_preallocates 100 (10 * 1024 * 1024)).
  vm_compute. split; [discriminate | reflexivity].
Defined.

Lemma sound_same_shape bp bp' :
  size bp' = size bp -> reserve bp' = reserve bp ->
  allocated bp' = allocated bp -> sound bp -> sound bp'.
Proof.
  unfold sound, pooled, allocated_ok. intros -> -> ->. tauto.
Qed.

(** What [Get] returns on a sound pool, when it returns. *)
Lemma Get_sound serve bp buf src bp' :
  sound bp ->
  Get serve bp = Ret (buf, src, bp') ->
  pooled bp buf /\ sound bp' /\ size bp' = size bp
  /\ inUse bp' = int32_add (inUse bp) 1.
Proof.
  intros (Hsz & Hres & Hal). unfold Get, sync_Pool_Get; cbn [reserve].
  assert (Hfac : forall fb fbp,
             factory (mkBufferPool (reserve bp) (size bp) (allocated bp)
                        (int32_add (inUse bp) 1) (int64_add (hits bp) 1)
                        (misses bp)) = Ret (fb, fbp) ->
             pooled bp fb /\ sound fbp /\ size fbp = size bp
             /\ inUse fbp = int32_add (inUse bp) 1).
  { intros fb fbp. unfold factory; cbn [size reserve allocated inUse hits misses].
    destruct (make (size bp)) as [b|] eqn:Hm; [|discriminate].
    apply make_inv in Hm as [-> Hlim].
    intros H; inversion H; subst fb fbp.
    unfold pooled, sound, allocated_ok; cbn.
    split; [repeat split; lia|].
    split; [|split; reflexivity].
    split; [exact Hsz|]. split; [exact Hres|].
    split; [apply int32_add_range | intros _; lia]. }
  destruct serve, (reserve bp) as [|b rest] eqn:Hrsv;
    try (destruct (factory _) as [[fb fbp]|] eqn:HF; [|discriminate];
         intros H; inversion H; subst; apply Hfac; reflexivity).
  inversion Hres as [|b' rest' Hb Hrest]; subst.
  intros H; inversion H; subst.
  unfold set_reserve, sound, pooled; cbn.
  split; [apply Hb|]. split; [|split; reflexivity].
  split; [exact Hsz|]. split; [exact Hrest | exact Hal].
Qed.

(** [Get] returns when [size] is a length that [make] accepts. *)
Lemma Get_returns serve bp :
  0 <= size bp <= maxAlloc ->
  exists buf src bp', Get serve bp = Ret (buf, src, bp').
Proof.
  intros Hsz. unfold Get, sync_Pool_Get, factory;
    cbn [reserve size allocated inUse hits misses].
  rewrite (make_returns (size bp) Hsz).
  destruct serve, (reserve bp); eauto.
Qed.

Lemma Put_sound buf bp bp' :
  sound bp -> Put buf bp = Ret bp' -> sound bp' /\ size bp' = size bp.
Proof.
  intros (Hsz & Hres & Hal). unfold Put.
  destruct (is_nil buf || (cap buf <? size bp)) eqn:Hskip.
  - intros H; inversion H; subst.
    split; [split; [|split]; assumption | reflexivity].
  - apply orb_false_iff in Hskip as [Hnil Hcap]. apply Z.ltb_ge in Hcap.
    unfold reslice. destruct ((size bp <? 0) || (cap buf <? size bp));
      [discriminate|].
    intros H; inversion H; subst.
    unfold sound, pooled, sync_Pool_Put, set_reserve; cbn.
    split; [|reflexivity]. split; [exact Hsz|]. split; [|exact Hal].
    constructor; [repeat split; try assumption; lia | exact Hres].
Qed.

Lemma GetSized_sound serve n bp buf src bp' :
  sound bp -> GetSized serve n bp = Ret (buf, src, bp') ->
  sound bp' /\ size bp' = size bp.
Proof.
  intros Hs. unfold GetSized. destruct (n <=? size bp).
  - destruct (Get serve bp) as [[[b s0] bp1]|] eqn:HG; [|discriminate].
    destruct (Get_sound _ _ _ _ _ Hs HG) as (_ & Hs1 & Hz & _).
    destruct (reslice b n); [|discriminate].
    intros H; inversion H; subst. tauto.
  - destruct (make n); [|discriminate].
    intros H; inversion H; subst. split; [|reflexivity].
    eapply sound_same_shape; [| | |exact Hs]; reflexivity.
Qed.

Lemma PutSized_sound buf bp bp' :
  sound bp -> PutSized buf bp = Ret bp' -> sound bp' /\ size bp' = size bp.
Proof.
  intros Hs. unfold PutSized. destruct (size bp <=? cap buf).
  - apply Put_sound; exact Hs.
  - intros H; inversion H; subst. split; [|reflexivity].
    eapply sound_same_shape; [| | |exact Hs]; reflexivity.
Qed.

Lemma step_sound c bp t bp' t' :
  sound bp -> step c (bp, t) = Ret (bp', t') ->
  sound bp' /\ size bp' = size bp.
Proof.
  intros Hs. destruct c; cbn [step].
  - destruct (Get serve bp) as [[[b s0] bp1]|] eqn:HG; [|discriminate].
    destruct (Get_sound _ _ _ _ _ Hs HG) as (_ & Hs1 & Hz & _).
    intros H; inversion H; subst. tauto.
  - destruct (GetSized serve n bp) as [[[b s0] bp1]|] eqn:HG; [|discriminate].
    intros H; inversion H; subst. eapply GetSized_sound; eauto.
  - destruct (Put buf bp) eqn:HP; [|discriminate].
    intros H; inversion H; subst. eapply Put_sound; eauto.
  - destruct (PutSized buf bp) eqn:HP; [|discriminate].
    intros H; inversion H; subst. eapply PutSized_sound; eauto.
Qed.

Lemma run_sound cs : forall bp t bp' t',
  sound bp -> run cs (bp, t) = Ret (bp', t') ->
  sound bp' /\ size bp' = size bp.
Proof.
  induction cs as [|c cs IH]; intros bp t bp' t' Hs Hr; cbn [run] in Hr.
  - inversion Hr; subst. tauto.
  - destruct (step c (bp, t)) as [[bp1 t1]|] eqn:Hst; [|discriminate].
    destruct (step_sound _ _ _ _ _ Hs Hst) as [Hs1 Hz1].
    destruct (IH _ _ _ _ Hs1 Hr) as [Hs2 Hz2]. split; [exact Hs2 | congruence].
Qed.

(** X2: whatever the clients acquire and release, and whatever slices they
    hand to [Put], the reserve of a pool made by [NewBufferPool] with a
    non-negative buffer size only ever holds non-nil buffers of length
    [size] and capacity at least [size]; a nil or short slice never gets
    in. *)
Theorem reserve_holds_full_buffers count sz cs bp0 bp t :
  0 <= sz ->
  NewBufferPool count sz = Ret bp0 ->
  run cs (bp0, tally0) = Ret (bp, t) ->
  size bp = sz
  /\ Forall (fun b => is_nil b = false /\ len b = sz /\ sz <= cap b)
       (reserve bp).
Proof.
  intros Hsz HN Hr.
  destruct (run_sound cs _ _ _ _ (NewBufferPool_sound _ _ _ HN Hsz) Hr)
    as [(_ & HF & _) Hz].
  pose proof (NewBufferPool_fields _ _ _ HN) as (Hs0 & _).
  assert (Hs : size bp = sz) by congruence.
  split; [exact Hs|]. unfold pooled in HF. rewrite Hs in HF. exact HF.
Qed.

Lemma reserve_holds_full_buffers_witness :
  exists bp t,
    run [CallGet true; CallPut (mkSlice true 0 0); CallPut (mkSlice false 4 4);
         CallPut (mkSlice false 8 32)]
      (mkBufferPool [] 16 0 0 0 0, tally0) = Ret (bp, t)
    /\ size bp = 16
    /\ Forall (fun b => is_nil b = false /\ len b = 16 /\ 16 <= cap b)
         (reserve bp).
Proof.
  eexists _, _. split; [vm_compute; reflexivity|].
  eapply (reserve_holds_full_buffers 0 16
           [CallGet true; CallPut (mkSlice true 0 0);
            CallPut (mkSlice false 4 4); CallPut (mkSlice false 8 32)]
           (mkBufferPool [] 16 0 0 0 0)).
  - vm_compute. discriminate.
  - reflexivity.
  - vm_compute. reflexivity.
Defined.

(** X3: over any run of a pool made by [NewBufferPool], [hits] is the
    number of buffers handed out by [Get] (from the reserve or from the
    factory, as an int64), [misses] the number of those that the factory
    made; acquisitions larger than [size] count in neither. *)
Theorem counters_of_a_run count sz cs bp0 bp t :
  NewBufferPool count sz = Ret bp0 ->
  run cs (bp0, tally0) = Ret (bp, t) ->
  hits bp = wrap 64 (from_reserve t + from_factory t)
  /\ misses bp = wrap 64 (from_factory t).
Proof.
  intros HN Hr.
  pose proof (NewBufferPool_fields _ _ _ HN) as (_ & _ & Hh & Hm & _).
  apply (run_counters cs _ _ _ _ Hr). unfold counters_agree, tally0; simpl.
  rewrite Hh, Hm. split; reflexivity.
Qed.

Lemma counters_of_a_run_witness :
  exists bp t,
    run [CallGet true; CallGet false; CallGetSized true 64]
      (prealloc 1 16 (mkBufferPool [] 16 0 0 0 0), tally0) = Ret (bp, t)
    /\ hits bp = wrap 64 (from_reserve t + from_factory t)
    /\ misses bp = wrap 64 (from_factory t).
Proof.
  eexists _, _. split; [vm_compute; reflexivity|].
  eapply (counters_of_a_run 1 16
           [CallGet true; CallGet false; CallGetSized true 64]
           (prealloc 1 16 (mkBufferPool [] 16 0 0 0 0))).
  - reflexivity.
  - vm_compute. reflexivity.
Defined.

Lemma borrow_and_return serve n bp :
  sound bp -> 0 <= n <= maxAlloc -> size bp <= maxAlloc ->
  exists buf src bp1 bp2,
    GetSized serve n bp = Ret (buf, src, bp1)
    /\ len buf = n
    /\ inUse bp1 = int32_add (inUse bp) 1
    /\ PutSized buf bp1 = Ret bp2
    /\ inUse bp2 = wrap 32 (inUse bp)
    /\ sound bp2.
Proof.
  intros Hs Hn Hmax. pose proof Hs as (Hsz & _). unfold GetSized.
  destruct (n <=? size bp) eqn:Hle.
  - apply Z.leb_le in Hle.
    destruct (Get_returns serve bp (conj Hsz Hmax)) as (b & s0 & bp1 & HG).
    destruct (Get_sound _ _ _ _ _ Hs HG)
      as ((Hnil & Hlen & Hcap) & Hs1 & Hz & Hu).
    rewrite HG. unfold reslice.
    destruct ((n <? 0) || (cap b <? n)) eqn:Hb;
      [apply orb_true_iff in Hb as [Hb|Hb]; apply Z.ltb_lt in Hb; lia|].
    eexists _, _, _.
    assert (HP : exists bp2,
               PutSized (mkSlice (is_nil b) n (cap b)) bp1 = Ret bp2
               /\ inUse bp2 = int32_add (inUse bp1) (-1)).
    { unfold PutSized, Put, reslice; cbn [cap is_nil]. rewrite Hz, Hnil.
      destruct (size bp <=? cap b) eqn:H1; [|apply Z.leb_gt in H1; lia].
      destruct (cap b <? size bp) eqn:H2; [apply Z.ltb_lt in H2; lia|].
      destruct (size bp <? 0) eqn:H3; [apply Z.ltb_lt in H3; lia|].
      cbn [orb]. eexists. split; reflexivity. }
    destruct HP as (bp2 & HP & Hu2).
    destruct (PutSized_sound _ _ _ Hs1 HP) as [Hs2 _]. exists bp2.
    split; [reflexivity|]. split; [reflexivity|]. split; [exact Hu|].
    split; [exact HP|]. split; [|exact Hs2].
    rewrite Hu2, Hu. unfold int32_add. rewrite wrap_add_wrap. f_equal. lia.
  - apply Z.leb_gt in Hle. rewrite (make_returns n Hn).
    eexists _, _, _, _. split; [reflexivity|]. split; [reflexivity|].
    split; [reflexivity|].
    unfold PutSized, Put, reslice; cbn [cap is_nil size].
    destruct (size bp <=? n) eqn:H1; [|apply Z.leb_gt in H1; lia].
    destruct (n <? size bp) eqn:H2; [apply Z.ltb_lt in H2; lia|].
    destruct (size bp <? 0) eqn:H3; [apply Z.ltb_lt in H3; lia|].
    cbn [orb]. split; [reflexivity|].
    cbn [inUse sync_Pool_Put set_reserve]. split.
    + unfold int32_add. rewrite wrap_add_wrap. f_equal. lia.
    + destruct Hs as (_ & HF & Hal).
      unfold sound, sync_Pool_Put, set_reserve; cbn [size reserve].
      split; [exact Hsz|]. split; [|exact Hal].
      constructor; [|exact HF].
      unfold pooled; cbn [is_nil len cap size].
      split; [reflexivity|]. split; [reflexivity | lia].
Qed.

(** X4: on a sound pool whose buffer size is within the allocation limit,
    acquiring a buffer of a size [n] between 0 and the limit with
    [GetSized] and releasing it with [PutSized] never panics; the buffer
    has length [n], and after the release [inUse] is back to its value
    (as an int32) and the pool is sound again.  Above the limit
    [GetSized] panics in [make]. *)
Theorem GetSized_PutSized_round_trip serve n bp :
  sound bp -> size bp <= maxAlloc ->
  (0 <= n <= maxAlloc ->
   exists buf src bp1 bp2,
     GetSized serve n bp = Ret (buf, src, bp1)
     /\ len buf = n
     /\ inUse bp1 = int32_add (inUse bp) 1
     /\ PutSized buf bp1 = Ret bp2
     /\ inUse bp2 = wrap 32 (inUse bp)
     /\ sound bp2)
  /\ (maxAlloc < n ->
      GetSized serve n bp = Panic "makeslice: len out of range").
Proof.
  intros Hs Hmax. split.
  - intros Hn. apply borrow_and_return; assumption.
  - intros Hn. unfold GetSized.
    replace (n <=? size bp) with false by (symmetry; apply Z.leb_gt; lia).
    unfold make.
    replace (maxAlloc <? n) with true by (symmetry; apply Z.ltb_lt; lia).
    rewrite orb_true_r. reflexivity.
Qed.

Lemma GetSized_PutSized_round_trip_witness :
  (0 <= 5 <= maxAlloc ->
   exists buf src bp1 bp2,
     GetSized true 5 (prealloc 2 16 (mkBufferPool [] 16 0 0 0 0))
     = Ret (buf, src, bp1)
     /\ len buf = 5
     /\ inUse bp1
        = int32_add (inUse (prealloc 2 16 (mkBufferPool [] 16 0 0 0 0))) 1
     /\ PutSized buf bp1 = Ret bp2
     /\ inUse bp2
        = wrap 32 (inUse (prealloc 2 16 (mkBufferPool [] 16 0 0 0 0)))
     /\ sound bp2)
  /\ (maxAlloc < 5 ->
      GetSized true 5 (prealloc 2 16 (mkBufferPool [] 16 0 0 0 0))
      = Panic "makeslice: len out of range").
Proof.
  apply (GetSized_PutSized_round_trip true 5
           (prealloc 2 16 (mkBufferPool [] 16 0 0 0 0))).
  - vm_compute. split; [discriminate|]. split.
    { repeat (constructor; [repeat split; discriminate|]). constructor. }
    split; [split; [discriminate | reflexivity] | intros _; discriminate].
  - vm_compute. discriminate.
Defined.

(** X5: a buffer that [GetSized] allocated because the request exceeded
    [size], with a length that [make] accepts, is not dropped by
    [PutSized]: its capacity is at least [size], so it is re-sliced to
    [size] and joins the reserve, while [allocated], [hits] and [misses]
    never counted it. *)
Theorem oversize_buffer_joins_reserve serve n bp :
  0 <= size bp < n -> n <= maxAlloc ->
  exists buf bp1 bp2,
    GetSized serve n bp = Ret (buf, None, bp1)
    /\ PutSized buf bp1 = Ret bp2
    /\ reserve bp2 = mkSlice false (size bp) n :: reserve bp
    /\ allocated bp2 = allocated bp
    /\ hits bp2 = hits bp /\ misses bp2 = misses bp.
Proof.
  intros [Hsz Hn] Hmax. unfold GetSized.
  destruct (n <=? size bp) eqn:Hle; [apply Z.leb_le in Hle; lia|].
  rewrite (make_returns n) by lia.
  eexists _, _, _. split; [reflexivity|].
  unfold PutSized, Put, reslice; cbn [cap is_nil size].
  destruct (size bp <=? n) eqn:H1; [|apply Z.leb_gt in H1; lia].
  destruct (n <? size bp) eqn:H2; [apply Z.ltb_lt in H2; lia|].
  destruct (size bp <? 0) eqn:H3; [apply Z.ltb_lt in H3; lia|].
  cbn [orb]. split; [reflexivity|]. cbn. repeat split; reflexivity.
Qed.

Lemma oversize_buffer_joins_reserve_witness :
  exists buf bp1 bp2,
    GetSized true 64 (mkBufferPool [] 16 0 0 0 0) = Ret (buf, None, bp1)
    /\ PutSized buf bp1 = Ret bp2
    /\ reserve bp2
       = mkSlice false (size (mkBufferPool [] 16 0 0 0 0)) 64
         :: reserve (mkBufferPool [] 16 0 0 0 0)
    /\ allocated bp2 = allocated (mkBufferPool [] 16 0 0 0 0)
    /\ hits bp2 = hits (mkBufferPool [] 16 0 0 0 0)
    /\ misses bp2 = misses (mkBufferPool [] 16 0 0 0 0).
Proof.
  apply (oversize_buffer_joins_reserve true 64 (mkBufferPool [] 16 0 0 0 0)).
  - vm_compute. split; [discriminate | reflexivity].
  - vm_compute. discriminate.
Defined.

End BufferPoolMore.


(** ** Device cache: round trips, accounting, sweeps and invariants *)

Section CacheMore.
Import go cache.

(** X6: an entry inserted at [t1] is returned by a lookup of the same
    device and URL at any [t2] up to [t1 + cache_ttl], with the path, media
    type, size and URL that were inserted and [Uses] = 1; a lookup after
    [t1 + cache_ttl] returns nothing. *)
Theorem Set_then_Get t1 t2 deviceID url path mediaType fileSize dc :
  let dc1 := fst (Set_ t1 deviceID url path mediaType fileSize dc) in
  (t2 <= t1 + cacheTTL dc ->
   exists e dc2,
     Get t2 deviceID url dc1 = (Some e, dc2)
     /\ ProcessedPath e = path /\ MediaType e = mediaType
     /\ Size e = fileSize /\ URL e = url /\ Created e = t1 /\ Uses e = 1)
  /\ (t1 + cacheTTL dc < t2 -> fst (Get t2 deviceID url dc1) = None).
Proof.
  intros dc1. subst dc1.
  unfold Get, Set_; cbn [fst cache set_cache].
  rewrite lookup_insert_eq. rewrite lookup_insert_eq.
  cbn [CacheExpires]. unfold After, Add. split; intros Ht.
  - destruct (t1 + cacheTTL dc <? t2) eqn:Hlt;
      [apply Z.ltb_lt in Hlt; lia|].
    eexists _, _. split; [reflexivity|]. cbn. repeat split; reflexivity.
  - apply Z.ltb_lt in Ht. rewrite Ht. reflexivity.
Qed.

Lemma lookup_Set_any now deviceID url path mediaType fileSize dc d k :
  lookup d k (fst (Set_ now deviceID url path mediaType fileSize dc))
  = (if decide (deviceID = d /\ hashURL url = k)
     then Some (mkCacheEntry path (now + cacheTTL dc) (now + fileTTL dc) now 0
                  fileSize mediaType url)
     else lookup d k dc).
Proof.
  unfold Set_; cbn [fst]. rewrite lookup_update. unfold Add.
  destruct (decide (deviceID = d)) as [Hd|Hd].
  - destruct (decide (hashURL url = k)) as [Hk|Hk].
    + rewrite decide_True by tauto. reflexivity.
    + rewrite decide_False by tauto. subst d. unfold lookup.
      destruct (cache dc !! deviceID) as [sub|]; simpl; [reflexivity|].
      apply lookup_empty.
  - rewrite decide_False by tauto. reflexivity.
Qed.

(** X7: [Set] replaces whatever the slot of its pair held, with a fresh
    entry whose [Uses] is 0, and leaves every other slot, the statistics
    and the TTLs as they were. *)
Theorem Set_replaces_one_slot now deviceID url path mediaType fileSize dc d k :
  let dc1 := fst (Set_ now deviceID url path mediaType fileSize dc) in
  lookup d k dc1
  = (if decide (deviceID = d /\ hashURL url = k)
     then Some (mkCacheEntry path (now + cacheTTL dc) (now + fileTTL dc) now 0
                  fileSize mediaType url)
     else lookup d k dc)
  /\ stats dc1 = stats dc
  /\ cacheTTL dc1 = cacheTTL dc /\ fileTTL dc1 = fileTTL dc.
Proof.
  intros dc1. subst dc1. split; [apply lookup_Set_any|].
  repeat split; reflexivity.
Qed.

(** X8: every lookup adds one to exactly one of the counters [Hits] and
    [Misses] and never touches [Evictions]; a miss leaves the map as it
    is, so an entry that has stopped being a hit stays in its slot until a
    deleter or the sweep removes it. *)
Theorem Get_accounting now deviceID url dc :
  let r := fst (Get now deviceID url dc) in
  let dc' := snd (Get now deviceID url dc) in
  Evictions (stats dc') = Evictions (stats dc)
  /\ match r with
     | Some e =>
         Hits (stats dc') = int64_add (Hits (stats dc)) 1
         /\ Misses (stats dc') = Misses (stats dc)
         /\ lookup deviceID (hashURL url) dc' = Some e
     | None =>
         Misses (stats dc') = int64_add (Misses (stats dc)) 1
         /\ Hits (stats dc') = Hits (stats dc)
         /\ cache dc' = cache dc
     end.
Proof.
  unfold Get.
  destruct (cache dc !! deviceID) as [sub|] eqn:Hd;
    [|cbn; repeat split; reflexivity].
  destruct (sub !! hashURL url) as [e|] eqn:He;
    [|cbn; repeat split; reflexivity].
  destruct (After now (CacheExpires e));
    [cbn; repeat split; reflexivity|].
  cbn [fst snd]. split; [reflexivity|]. split; [reflexivity|].
  split; [reflexivity|].
  unfold lookup; cbn. rewrite lookup_insert_eq; cbn.
  apply lookup_insert_eq.
Qed.

Lemma lookup_cleanup now dc d k :
  lookup d k (fst (cleanup now dc))
  = match lookup d k dc with
    | Some e => if After now (FileExpires e) then None else Some e
    | None => None
    end.
Proof.
  unfold lookup, cleanup; cbn [fst cache set_cache]. rewrite lookup_omap.
  destruct (cache dc !! d) as [sub|]; cbn; [|reflexivity].
  set (kept := filter (fun '(_, e0) => file_expired now e0 = false) sub).
  assert (Hk : kept !! k
               = match sub !! k with
                 | Some e => if After now (FileExpires e) then None else Some e
                 | None => None
                 end).
  { unfold kept. destruct (sub !! k) as [e|] eqn:He.
    - destruct (After now (FileExpires e)) eqn:Hx.
      + apply map_lookup_filter_None. right. intros e' He'.
        rewrite He in He'. inversion He'; subst. unfold file_expired.
        rewrite Hx. discriminate.
      + apply map_lookup_filter_Some. split; [exact He | exact Hx].
    - apply map_lookup_filter_None. left. exact He. }
  destruct (decide (kept = ∅)) as [Hempty|]; cbn; [|exact Hk].
  rewrite <- Hk, Hempty. symmetry. apply lookup_empty.
Qed.

(** X9: the sweep removes exactly the entries whose [FileExpires] is
    before [now]: after it, a slot holds what it held if that has not
    expired, and nothing otherwise; statistics and TTLs are unchanged. *)
Theorem cleanup_sweeps_expired now dc d k :
  lookup d k (fst (cleanup now dc))
  = match lookup d k dc with
    | Some e => if After now (FileExpires e) then None else Some e
    | None => None
    end
  /\ stats (fst (cleanup now dc)) = stats dc
  /\ cacheTTL (fst (cleanup now dc)) = cacheTTL dc
  /\ fileTTL (fst (cleanup now dc)) = fileTTL dc.
Proof.
  split; [apply lookup_cleanup | repeat split; reflexivity].
Qed.

Lemma scheduleFileDeletion_cache denied d dc fs :
  cache (fst (scheduleFileDeletion denied d dc fs))
  = match cache dc !! d_deviceID d with
    | Some deviceCache =>
        if decide (delete (d_urlHash d) deviceCache = ∅)
        then delete (d_deviceID d) (cache dc)
        else <[d_deviceID d := delete (d_urlHash d) deviceCache]> (cache dc)
    | None => cache dc
    end.
Proof.
  unfold scheduleFileDeletion.
  destruct (cache dc !! d_deviceID d) as [sub|];
    [destruct (decide (delete (d_urlHash d) sub = ∅))|];
    destruct (Remove denied fs (d_filePath d)); reflexivity.
Qed.

Lemma lookup_scheduleFileDeletion denied d dc fs d' k' :
  lookup d' k' (fst (scheduleFileDeletion denied d dc fs))
  = (if decide (d_deviceID d = d' /\ d_urlHash d = k') then None
     else lookup d' k' dc).
Proof.
  unfold lookup. rewrite scheduleFileDeletion_cache.
  destruct (cache dc !! d_deviceID d) as [sub|] eqn:Hd.
  - destruct (decide (delete (d_urlHash d) sub = ∅)) as [He|He].
    + destruct (decide (d_deviceID d = d')) as [<-|Hne].
      * rewrite lookup_delete_eq, Hd; cbn.
        destruct (decide (d_urlHash d = k')) as [<-|Hk].
        -- rewrite decide_True by tauto. reflexivity.
        -- rewrite decide_False by tauto.
           rewrite <- (lookup_delete_ne sub (d_urlHash d) k') by exact Hk.
           rewrite He. symmetry. apply lookup_empty.
      * rewrite lookup_delete_ne by exact Hne.
        rewrite decide_False by tauto. reflexivity.
    + destruct (decide (d_deviceID d = d')) as [<-|Hne].
      * rewrite lookup_insert_eq, Hd; cbn.
        destruct (decide (d_urlHash d = k')) as [<-|Hk].
        -- rewrite decide_True by tauto. apply lookup_delete_eq.
        -- rewrite decide_False by tauto. apply lookup_delete_ne. exact Hk.
      * rewrite lookup_insert_ne by exact Hne.
        rewrite decide_False by tauto. reflexivity.
  - destruct (decide (d_deviceID d = d' /\ d_urlHash d = k')) as [[<- _]|];
      [rewrite Hd|]; reflexivity.
Qed.

Lemma scheduleFileDeletion_stats denied d dc fs :
  Hits (stats (fst (scheduleFileDeletion denied d dc fs))) = Hits (stats dc)
  /\ Misses (stats (fst (scheduleFileDeletion denied d dc fs)))
     = Misses (stats dc)
  /\ cacheTTL (fst (scheduleFileDeletion denied d dc fs)) = cacheTTL dc
  /\ fileTTL (fst (scheduleFileDeletion denied d dc fs)) = fileTTL dc.
Proof.
  unfold scheduleFileDeletion.
  destruct (cache dc !! d_deviceID d) as [sub|];
    [destruct (decide (delete (d_urlHash d) sub = ∅))|];
    destruct (Remove denied fs (d_filePath d)); repeat split; reflexivity.
Qed.

(** X10: when a deleter wakes up it empties the slot of its device and
    URL hash, whatever entry is there, and leaves all other slots alone,
    whether or not its file can be removed.  The file is removed, and an
    eviction counted, exactly when it exists and the system does not
    refuse the removal; when the removal is refused the files stay as
    they are. *)
Theorem scheduleFileDeletion_effect denied d dc fs d' k' :
  let dc' := fst (scheduleFileDeletion denied d dc fs) in
  let fs' := snd (scheduleFileDeletion denied d dc fs) in
  lookup d' k' dc'
  = (if decide (d_deviceID d = d' /\ d_urlHash d = k') then None
     else lookup d' k' dc)
  /\ fs' = (if denied then fs else delete (d_filePath d) fs)
  /\ Evictions (stats dc')
     = (if decide (denied = false /\ is_Some (fs !! d_filePath d))
        then int64_add (Evictions (stats dc)) 1
        else Evictions (stats dc))
  /\ Hits (stats dc') = Hits (stats dc)
  /\ Misses (stats dc') = Misses (stats dc).
Proof.
  intros dc' fs'. subst dc' fs'. split; [apply lookup_scheduleFileDeletion|].
  destruct (scheduleFileDeletion_stats denied d dc fs) as (Hh & Hm & _).
  split; [|split; [|split; [exact Hh | exact Hm]]].
  - unfold scheduleFileDeletion, Remove. destruct denied; [reflexivity|].
    destruct (fs !! d_filePath d) as [data|] eqn:Hf; cbn [snd];
      [reflexivity|].
    symmetry. apply delete_id. exact Hf.
  - unfold scheduleFileDeletion, Remove. destruct denied.
    + rewrite decide_False by (intros [? _]; discriminate).
      destruct (cache dc !! d_deviceID d) as [sub|];
        [destruct (decide (delete (d_urlHash d) sub = ∅))|]; reflexivity.
    + destruct (fs !! d_filePath d) as [data|] eqn:Hf; cbn [fst].
      * rewrite decide_True by eauto.
        destruct (cache dc !! d_deviceID d) as [sub|];
          [destruct (decide (delete (d_urlHash d) sub = ∅))|]; reflexivity.
      * rewrite decide_False by (intros [_ [? ?]]; discriminate).
        destruct (cache dc !! d_deviceID d) as [sub|];
          [destruct (decide (delete (d_urlHash d) sub = ∅))|]; reflexivity.
Qed.

Lemma insert_slot_nonempty (sub : gmap string CacheEntry) k e :
  <[k := e]> sub <> ∅.
Proof. apply insert_non_empty. Qed.

Lemma Get_cache_cases now deviceID url dc :
  cache (snd (Get now deviceID url dc)) = cache dc
  \/ exists sub e,
       cache (snd (Get now deviceID url dc))
       = <[deviceID := <[hashURL url := e]> sub]> (cache dc).
Proof.
  unfold Get.
  destruct (cache dc !! deviceID) as [sub|]; [|left; reflexivity].
  destruct (sub !! hashURL url) as [e|]; [|left; reflexivity].
  destruct (After now (CacheExpires e)); [left; reflexivity|].
  right. eexists _, _. reflexivity.
Qed.

Lemma no_empty_insert dc d k e sub :
  no_empty_device dc ->
  no_empty_device (set_cache (<[d := <[k := e]> sub]> (cache dc)) dc).
Proof.
  intros H d' sub'; cbn [cache set_cache].
  destruct (decide (d = d')) as [<-|Hne].
  - rewrite lookup_insert_eq. intros Heq; inversion Heq; subst.
    apply insert_slot_nonempty.
  - rewrite lookup_insert_ne by exact Hne. apply H.
Qed.

(** What a wake-up and a sweep leave as the cache. *)
Lemma wake_dc denied i now s s' :
  wake denied i now s = Some s' ->
  exists dl,
    s_dc s' = fst (scheduleFileDeletion denied dl (s_dc s) (s_fs s)).
Proof.
  unfold wake. destruct (s_sleeping s !! i) as [dl|]; [|discriminate].
  destruct (now <? d_armed dl + d_ttl dl); [discriminate|].
  destruct (scheduleFileDeletion denied dl (s_dc s) (s_fs s))
    as [dc' fs'] eqn:HS.
  intros H; inversion H; subst. exists dl. rewrite HS. reflexivity.
Qed.

Lemma sweep_dc denied now s :
  s_dc (sweep denied now s) = fst (cleanup now (s_dc s)).
Proof. reflexivity. Qed.

Lemma scheduleFileDeletion_no_empty denied dl dc fs :
  no_empty_device dc ->
  no_empty_device (fst (scheduleFileDeletion denied dl dc fs)).
Proof.
  intros Hinv d' sub'. rewrite scheduleFileDeletion_cache.
  destruct (cache dc !! d_deviceID dl) as [sub|] eqn:Hd; [|apply Hinv].
  destruct (decide (delete (d_urlHash dl) sub = ∅)) as [He|He].
  - destruct (decide (d_deviceID dl = d')) as [<-|Hne].
    + rewrite lookup_delete_eq. discriminate.
    + rewrite lookup_delete_ne by exact Hne. apply Hinv.
  - destruct (decide (d_deviceID dl = d')) as [<-|Hne].
    + rewrite lookup_insert_eq. intros Hs; inversion Hs; subst. exact He.
    + rewrite lookup_insert_ne by exact Hne. apply Hinv.
Qed.

Lemma cleanup_no_empty now dc : no_empty_device (fst (cleanup now dc)).
Proof.
  intros d' sub'. unfold cleanup; cbn [fst cache set_cache].
  rewrite lookup_omap.
  destruct (cache dc !! d') as [sub|]; cbn; [|discriminate].
  destruct (decide (filter (fun '(_, e) => file_expired now e = false) sub = ∅))
    as [He|He]; [discriminate|].
  intros Hs; inversion Hs; subst. exact He.
Qed.

Lemma step_no_empty ev s s' :
  step ev s = Some s' -> no_empty_device (s_dc s) -> no_empty_device (s_dc s').
Proof.
  unfold step. destruct (event_time ev <? s_clock s); [discriminate|].
  destruct ev as [now d u path mt sz|now d u|i now|now|i now|now denied].
  - destruct (Set_ now d u path mt sz (s_dc s)) as [dc' dl] eqn:HS.
    intros H Hinv; inversion H; subst; cbn [s_dc].
    unfold Set_ in HS. inversion HS; subst.
    apply no_empty_insert; exact Hinv.
  - intros H Hinv; inversion H; subst; cbn [s_dc].
    intros d' sub'.
    destruct (Get_cache_cases now d u (s_dc s)) as [Heq|(sub & e & Heq)];
      rewrite Heq; [apply Hinv|].
    destruct (decide (d = d')) as [<-|Hne].
    + rewrite lookup_insert_eq. intros Hs; inversion Hs; subst.
      apply insert_slot_nonempty.
    + rewrite lookup_insert_ne by exact Hne. apply Hinv.
  - intros H Hinv. apply wake_dc in H as [dl ->].
    apply scheduleFileDeletion_no_empty; exact Hinv.
  - intros H _; inversion H; subst. rewrite sweep_dc. apply cleanup_no_empty.
  - intros H Hinv. apply wake_dc in H as [dl ->].
    apply scheduleFileDeletion_no_empty; exact Hinv.
  - intros H _; inversion H; subst. rewrite sweep_dc. apply cleanup_no_empty.
Qed.

Lemma step_dc_TTLs ev s s' :
  step ev s = Some s' ->
  cacheTTL (s_dc s') = cacheTTL (s_dc s) /\ fileTTL (s_dc s') = fileTTL (s_dc s).
Proof.
  unfold step. destruct (event_time ev <? s_clock s); [discriminate|].
  destruct ev as [now d u path mt sz|now d u|i now|now|i now|now denied].
  - destruct (Set_ now d u path mt sz (s_dc s)) as [dc' dl] eqn:HS.
    intros H; inversion H; subst. unfold Set_ in HS. inversion HS; subst.
    split; reflexivity.
  - intros H; inversion H; subst. apply Get_TTLs.
  - intros H. apply wake_dc in H as [dl ->].
    destruct (scheduleFileDeletion_stats false dl (s_dc s) (s_fs s))
      as (_ & _ & Hc & Hf). split; assumption.
  - intros H; inversion H; subst. split; reflexivity.
  - intros H. apply wake_dc in H as [dl ->].
    destruct (scheduleFileDeletion_stats true dl (s_dc s) (s_fs s))
      as (_ & _ & Hc & Hf). split; assumption.
  - intros H; inversion H; subst. split; reflexivity.
Qed.

Lemma step_fixed_expiry ev s s' :
  step ev s = Some s' -> fixed_expiry (s_dc s) -> fixed_expiry (s_dc s').
Proof.
  intros Hstep Hinv d k e Hl.
  destruct (step_dc_TTLs _ _ _ Hstep) as [Hc Hf]. rewrite Hc, Hf.
  assert (Hwake : forall denied dl,
             lookup d k (fst (scheduleFileDeletion denied dl (s_dc s) (s_fs s)))
             = Some e ->
             CacheExpires e = Created e + cacheTTL (s_dc s)
             /\ FileExpires e = Created e + fileTTL (s_dc s)).
  { intros denied dl. rewrite lookup_scheduleFileDeletion.
    destruct (decide (d_deviceID dl = d /\ d_urlHash dl = k));
      [discriminate | apply Hinv]. }
  assert (Hsweep : forall now,
             lookup d k (fst (cleanup now (s_dc s))) = Some e ->
             CacheExpires e = Created e + cacheTTL (s_dc s)
             /\ FileExpires e = Created e + fileTTL (s_dc s)).
  { intros now. rewrite lookup_cleanup.
    destruct (lookup d k (s_dc s)) as [e0|] eqn:H0; [|discriminate].
    destruct (After now (FileExpires e0)); [discriminate|].
    intros He; inversion He; subst. apply (Hinv _ _ _ H0). }
  revert Hstep Hl. unfold step.
  destruct (event_time ev <? s_clock s); [discriminate|].
  destruct ev as [now d0 u path mt sz|now d0 u|i now|now|i now|now denied].
  - destruct (Set_ now d0 u path mt sz (s_dc s)) as [dc' dl] eqn:HS.
    intros H; inversion H; subst; cbn [s_dc].
    pose proof (lookup_Set_any now d0 u path mt sz (s_dc s) d k) as Hl.
    rewrite HS in Hl. cbn [fst] in Hl. rewrite Hl.
    destruct (decide (d0 = d /\ hashURL u = k)); [|apply Hinv].
    intros He; inversion He; subst; cbn. split; reflexivity.
  - intros H; inversion H; subst; cbn [s_dc]. intros Hl.
    pose proof (Get_frame now d0 u (s_dc s) d k) as Hk. rewrite Hl in Hk.
    destruct (lookup d k (s_dc s)) as [e0|] eqn:H0; [|contradiction].
    destruct (Hinv _ _ _ H0) as [H1 H2].
    destruct Hk as (_ & Hce & Hfe & Hcr & _). split; lia.
  - intros H. apply wake_dc in H as [dl ->]. apply Hwake.
  - intros H; inversion H; subst. rewrite sweep_dc. apply Hsweep.
  - intros H. apply wake_dc in H as [dl ->]. apply Hwake.
  - intros H; inversion H; subst. rewrite sweep_dc. apply Hsweep.
Qed.

Lemma run_invariants evs : forall s s',
  run evs s = Some s' ->
  no_empty_device (s_dc s) -> fixed_expiry (s_dc s) ->
  no_empty_device (s_dc s') /\ fixed_expiry (s_dc s')
  /\ cacheTTL (s_dc s') = cacheTTL (s_dc s)
  /\ fileTTL (s_dc s') = fileTTL (s_dc s).
Proof.
  induction evs as [|ev evs IH]; intros s s' Hr H1 H2; cbn [run] in Hr.
  - inversion Hr; subst. tauto.
  - destruct (step ev s) as [s1|] eqn:Hs; [|discriminate].
    destruct (step_dc_TTLs _ _ _ Hs) as [Hc Hf].
    destruct (IH _ _ Hr (step_no_empty _ _ _ Hs H1)
                (step_fixed_expiry _ _ _ Hs H2)) as (I1 & I2 & I3 & I4).
    split; [exact I1|]. split; [exact I2|]. split; congruence.
Qed.

Lemma init_invariants dir c f fs t0 :
  no_empty_device (s_dc (init dir c f fs t0))
  /\ fixed_expiry (s_dc (init dir c f fs t0)).
Proof.
  split.
  - intros d sub; cbn. rewrite lookup_empty. discriminate.
  - intros d k e; unfold lookup; cbn. rewrite lookup_empty. discriminate.
Qed.

(** X11: however insertions, lookups, deleters and sweeps interleave on a
    cache made by [NewDeviceCache], no device is ever left with an empty
    submap: the device count of the statistics only counts devices that
    hold an entry. *)
Theorem no_device_without_entries dir c f fs t0 evs s :
  run evs (init dir c f fs t0) = Some s ->
  forall d deviceCache,
    cache (s_dc s) !! d = Some deviceCache -> deviceCache <> ∅.
Proof.
  intros Hr. destruct (init_invariants dir c f fs t0) as [H1 H2].
  destruct (run_invariants evs _ _ Hr H1 H2) as (I1 & _). exact I1.
Qed.

Lemma no_device_without_entries_witness :
  exists s,
    run (scenario.two_conversions ++ [EvWake 0 (30 * Minute); EvWake 0 (60 * Minute)])
      (init "/tmp/media-cache" 0 0 scenario.both_files 0) = Some s
    /\ forall d deviceCache,
         cache (s_dc s) !! d = Some deviceCache -> deviceCache <> ∅.
Proof.
  assert (H : exists s,
             run (scenario.two_conversions
                    ++ [EvWake 0 (30 * Minute); EvWake 0 (60 * Minute)])
               (init "/tmp/media-cache" 0 0 scenario.both_files 0) = Some s)
    by (eexists; vm_compute; reflexivity).
  destruct H as (s & H). exists s. split; [exact H|].
  exact (no_device_without_entries _ _ _ _ _ _ _ H).
Defined.

(** X12: however insertions, lookups, deleters and sweeps interleave, the
    TTLs of the cache stay those of its construction and every entry in
    the map has [CacheExpires] = [Created] + cache TTL and [FileExpires] =
    [Created] + file TTL: no operation renews or shortens an entry. *)
Theorem expirations_stay_fixed dir c f fs t0 evs s :
  run evs (init dir c f fs t0) = Some s ->
  cacheTTL (s_dc s) = cacheTTL (NewDeviceCache dir c f)
  /\ fileTTL (s_dc s) = fileTTL (NewDeviceCache dir c f)
  /\ forall d k e,
       lookup d k (s_dc s) = Some e ->
       CacheExpires e = Created e + cacheTTL (NewDeviceCache dir c f)
       /\ FileExpires e = Created e + fileTTL (NewDeviceCache dir c f).
Proof.
  intros Hr. destruct (init_invariants dir c f fs t0) as [H1 H2].
  destruct (run_invariants evs _ _ Hr H1 H2) as (_ & I2 & I3 & I4).
  cbn [init s_dc] in I3, I4. split; [exact I3|]. split; [exact I4|].
  intros d k e Hl. rewrite <- I3, <- I4. apply (I2 _ _ _ Hl).
Qed.

Lemma expirations_stay_fixed_witness :
  exists s,
    run (scenario.two_conversions
           ++ [EvGet (40 * Minute) "d1" scenario.audio_url;
               EvCleanup (41 * Minute)])
      (init "/tmp/media-cache" 0 0 scenario.both_files 0) = Some s
    /\ cacheTTL (s_dc s) = cacheTTL (NewDeviceCache "/tmp/media-cache" 0 0)
    /\ fileTTL (s_dc s) = fileTTL (NewDeviceCache "/tmp/media-cache" 0 0)
    /\ forall d k e,
         lookup d k (s_dc s) = Some e ->
         CacheExpires e
         = Created e + cacheTTL (NewDeviceCache "/tmp/media-cache" 0 0)
         /\ FileExpires e
            = Created e + fileTTL (NewDeviceCache "/tmp/media-cache" 0 0).
Proof.
  assert (H : exists s,
             run (scenario.two_conversions
                    ++ [EvGet (40 * Minute) "d1" scenario.audio_url;
                        EvCleanup (41 * Minute)])
               (init "/tmp/media-cache" 0 0 scenario.both_files 0) = Some s)
    by (eexists; vm_compute; reflexivity).
  destruct H as (s & H). exists s. split; [exact H|].
  exact (expirations_stay_fixed _ _ _ _ _ _ _ H).
Defined.

Lemma device_totals_count (m : gmap string CacheEntry) :
  snd (device_totals m) = wrap 64 (Z.of_nat (size m)).
Proof.
  unfold device_totals.
  apply (map_fold_weak_ind
           (fun (acc : Z * Z) (m : gmap string CacheEntry) =>
              snd acc = wrap 64 (Z.of_nat (size m)))).
  - rewrite map_size_empty. reflexivity.
  - intros k e m' [ts n] Hk IH. cbn [snd] in *.
    rewrite map_size_insert_None by exact Hk. rewrite IH.
    rewrite int64_add_wrap. f_equal. lia.
Qed.

(** X13: the entries figure of [GetDeviceStats] is the number of URLs
    cached for the device (as an int64) and 0 for a device without
    entries; inserting a pair that is already cached leaves it unchanged,
    inserting a new pair adds one. *)
Theorem GetDeviceStats_entries now deviceID url path mediaType fileSize dc :
  let n := size (default ∅ (cache dc !! deviceID)) in
  let dc1 := fst (Set_ now deviceID url path mediaType fileSize dc) in
  stats_entries (GetDeviceStats deviceID dc) = wrap 64 (Z.of_nat n)
  /\ stats_entries (GetDeviceStats deviceID dc1)
     = match lookup deviceID (hashURL url) dc with
       | Some _ => wrap 64 (Z.of_nat n)
       | None => wrap 64 (Z.of_nat n + 1)
       end.
Proof.
  intros n dc1. subst n dc1. split.
  - unfold GetDeviceStats. destruct (cache dc !! deviceID) as [sub|]; cbn.
    + pose proof (device_totals_count sub) as H.
      destruct (device_totals sub) as [ts cnt]. exact H.
    + rewrite map_size_empty. reflexivity.
  - unfold GetDeviceStats, Set_, lookup; cbn [fst cache set_cache].
    rewrite lookup_insert_eq.
    pose proof (device_totals_count
                  (<[hashURL url := mkCacheEntry path (Add now (cacheTTL dc))
                                     (Add now (fileTTL dc)) now 0 fileSize
                                     mediaType url]>
                     (default ∅ (cache dc !! deviceID)))) as H.
    destruct (device_totals _) as [ts cnt]. cbn [stats_entries snd] in *.
    rewrite H. destruct (cache dc !! deviceID) as [sub|]; cbn.
    + destruct (sub !! hashURL url) as [e0|] eqn:He.
      * rewrite map_size_insert_Some by eauto. reflexivity.
      * rewrite map_size_insert_None by exact He. f_equal. lia.
    + rewrite map_size_insert_None by apply lookup_empty.
      rewrite map_size_empty. reflexivity.
Qed.

End CacheMore.


(** ** Downloader: rejections, what a success means, pool hygiene *)

Section DownloaderMore.
Import go services.

(** X14: an empty URL or one that starts with neither [http://] nor
    [https://] is rejected before any request is made: the result is the
    same in every world and the pool is not touched. *)
Theorem Download_rejects_bad_url x d url bp :
  HasPrefix url "http://" || HasPrefix url "https://" = false ->
  exists msg,
    Download x d url bp = Ret (dl_fail msg None None, bp)
    /\ (msg = "empty URL"
        \/ msg = "invalid URL scheme: must be http:// or https://")%string.
Proof.
  intros Hp. unfold Download. destruct (String.eqb url ""); [eauto|].
  apply orb_false_iff in Hp as [H1 H2]. rewrite H1, H2. cbn. eauto.
Qed.

Lemma Download_rejects_bad_url_witness :
  exists msg,
    Download (scenario.world scenario.offline "") (NewDownloader 0 0)
      "ftp://host/a.mp3" scenario.default_pool
    = Ret (dl_fail msg None None, scenario.default_pool)
    /\ (msg = "empty URL"
        \/ msg = "invalid URL scheme: must be http:// or https://")%string.
Proof.
  apply (Download_rejects_bad_url (scenario.world scenario.offline "")
           (NewDownloader 0 0) "ftp://host/a.mp3" scenario.default_pool).
  reflexivity.
Defined.

Lemma ReadFull_prefix r n :
  fst (ReadFull r n) = firstn (length (fst (ReadFull r n))) (r_data r).
Proof.
  unfold ReadFull.
  assert (H : forall k (l : bytes), firstn k l = firstn (length (firstn k l)) l).
  { intros k l. rewrite length_firstn.
    destruct (Nat.le_ge_cases k (length l)) as [Hk|Hk].
    - rewrite Nat.min_l by exact Hk. reflexivity.
    - rewrite Nat.min_r by exact Hk. rewrite !firstn_all2 by lia. reflexivity. }
  destruct (n <=? Z.of_nat (length (r_data r))); [apply H|].
  destruct (firstn (Z.to_nat n) (r_data r)) eqn:Hg, (r_err r); cbn [fst];
    try reflexivity; rewrite <- Hg; apply H.
Qed.

Lemma ReadAll_Limit_prefix r n :
  fst (ReadAll_Limit r n) = firstn (length (fst (ReadAll_Limit r n))) (r_data r).
Proof.
  unfold ReadAll_Limit. destruct (n <=? 0); [reflexivity|].
  destruct (n <=? Z.of_nat (length (r_data r))); cbn [fst].
  - rewrite length_firstn.
    destruct (Nat.le_ge_cases (Z.to_nat n) (length (r_data r))) as [Hk|Hk].
    + rewrite Nat.min_l by exact Hk. reflexivity.
    + rewrite Nat.min_r by exact Hk. rewrite !firstn_all2 by lia. reflexivity.
  - symmetry. apply firstn_all.
Qed.

Lemma finish_download_ok data p src :
  dl_err (finish_download data p src) = None -> data <> [].
Proof. destruct data; [discriminate | discriminate]. Qed.

(** X15: a download that reports no error got a 200 response that did not
    advertise more than [maxSize], and its data is a non-empty prefix of
    the body that response carried. *)
Theorem Download_success_means x d url bp res bp' :
  Download x d url bp = Ret (res, bp') ->
  dl_err res = None ->
  exists resp,
    http_Do x url = Resp resp
    /\ StatusCode resp = 200
    /\ ContentLength resp <= maxSize d
    /\ dl_data res <> []
    /\ dl_data res = firstn (length (dl_data res)) (r_data (Body resp)).
Proof.
  unfold Download.
  destruct (String.eqb url ""); [intros H; inversion H; discriminate|].
  destruct (negb (HasPrefix url "http://") && negb (HasPrefix url "https://"));
    [intros H; inversion H; discriminate|].
  destruct (http_Do x url) as [e|e|resp];
    try (intros H; inversion H; discriminate).
  destruct (StatusCode resp =? 200) eqn:Hst;
    [|intros H; inversion H; discriminate].
  apply Z.eqb_eq in Hst. cbn [negb].
  destruct (maxSize d <? ContentLength resp) eqn:Hbig;
    [intros H; inversion H; discriminate|].
  apply Z.ltb_ge in Hbig.
  destruct ((0 <? ContentLength resp)
            && (ContentLength resp <=? pool.Allocated (pool.GetStats bp))).
  - destruct (pool.GetSized _ _ _) as [[[buf src] bp1]|]; [|discriminate].
    pose proof (ReadFull_prefix (Body resp) (len buf)) as Hpre.
    destruct (ReadFull (Body resp) (len buf)) as [got err]. cbn [fst] in Hpre.
    destruct (pool.PutSized buf bp1); [|discriminate].
    intros H Hok; inversion H; subst res bp'. exists resp.
    repeat (split; [assumption || reflexivity|]).
    destruct err as [e|]; [destruct (String.eqb e ErrUnexpectedEOF)|];
      try discriminate;
      (rewrite finish_download_data;
       split; [exact (finish_download_ok _ _ _ Hok) | exact Hpre]).
  - pose proof (ReadAll_Limit_prefix (Body resp) (maxSize d)) as Hpre.
    destruct (ReadAll_Limit (Body resp) (maxSize d)) as [got err].
    cbn [fst] in Hpre.
    destruct err; intros H Hok; inversion H; subst res bp'; [discriminate|].
    exists resp. repeat (split; [assumption || reflexivity|]).
    rewrite finish_download_data.
    split; [exact (finish_download_ok _ _ _ Hok) | exact Hpre].
Qed.

Lemma Download_success_means_witness :
  exists resp,
    http_Do (scenario.world (Resp (scenario.ok_response 16 16)) "")
      "http://host/a.bin" = Resp resp
    /\ StatusCode resp = 200
    /\ ContentLength resp <= maxSize (NewDownloader 0 0)
    /\ dl_data (mkDownload (repeat Byte.x41 16) None (Some LimitedReader) None)
       <> []
    /\ dl_data (mkDownload (repeat Byte.x41 16) None (Some LimitedReader) None)
       = firstn (length (dl_data (mkDownload (repeat Byte.x41 16) None
                                    (Some LimitedReader) None)))
           (r_data (Body resp)).
Proof.
  apply (Download_success_means
           (scenario.world (Resp (scenario.ok_response 16 16)) "")
           (NewDownloader 0 0) "http://host/a.bin"
           (pool.mkBufferPool [] 1024 0 0 0 0)
           (mkDownload (repeat Byte.x41 16) None (Some LimitedReader) None)
           (pool.mkBufferPool [] 1024 0 0 0 0)).
  - vm_compute. reflexivity.
  - reflexivity.
Defined.

(** X16: on a sound pool whose [inUse] counter is a valid [int32],
    [Download] never panics, whatever the network answers, and it gives
    back what it borrowed: [inUse] is the same after the call and the pool
    is still sound. *)
Theorem Download_returns_its_buffer x d url bp :
  pool.sound bp ->
  - 2 ^ 31 <= pool.inUse bp < 2 ^ 31 ->
  exists res bp',
    Download x d url bp = Ret (res, bp')
    /\ pool.inUse bp' = pool.inUse bp
    /\ pool.sound bp'.
Proof.
  intros Hs Hr. unfold Download.
  destruct (String.eqb url ""); [eauto|].
  destruct (negb (HasPrefix url "http://") && negb (HasPrefix url "https://"));
    [eauto|].
  destruct (http_Do x url) as [e|e|resp]; [eauto | eauto |].
  destruct (negb (StatusCode resp =? 200)); [eauto|].
  destruct (maxSize d <? ContentLength resp); [eauto|].
  destruct ((0 <? ContentLength resp)
            && (ContentLength resp <=? pool.Allocated (pool.GetStats bp)))
    eqn:Hc.
  - apply andb_true_iff in Hc as [Hpos Hal]. apply Z.ltb_lt in Hpos.
    apply Z.leb_le in Hal. cbn [pool.GetStats pool.Allocated] in Hal.
    pose proof Hs as (_ & _ & Hrange & Hlim).
    destruct (borrow_and_return (pool_serves x bp) (ContentLength resp) bp Hs)
      as (buf & src & bp1 & bp2 & HG & _ & _ & HP & Hin & Hs2);
      [split; [lia | apply int32_below_maxAlloc; lia] | apply Hlim; lia |].
    rewrite HG. destruct (ReadFull (Body resp) (len buf)) as [got err].
    rewrite HP. eexists _, bp2. split; [reflexivity|].
    split; [|exact Hs2]. rewrite Hin. apply wrap_small; lia.
  - destruct (ReadAll_Limit (Body resp) (maxSize d)) as [got [e|]]; eauto.
Qed.

Lemma Download_returns_its_buffer_witness :
  exists res bp',
    Download (scenario.world (Resp (scenario.ok_response 3 3)) "")
      (NewDownloader 0 0) "http://host/a.bin"
      (pool.prealloc 4 8 (pool.mkBufferPool [] 8 0 0 0 0))
    = Ret (res, bp')
    /\ pool.inUse bp'
       = pool.inUse (pool.prealloc 4 8 (pool.mkBufferPool [] 8 0 0 0 0))
    /\ pool.sound bp'.
Proof.
  apply (Download_returns_its_buffer
           (scenario.world (Resp (scenario.ok_response 3 3)) "")
           (NewDownloader 0 0) "http://host/a.bin"
           (pool.prealloc 4 8 (pool.mkBufferPool [] 8 0 0 0 0))).
  - vm_compute. split; [discriminate|]. split.
    { repeat (constructor; [repeat split; discriminate|]). constructor. }
    split; [split; [discriminate | reflexivity] | intros _; discriminate].
  - vm_compute. split; [discriminate | reflexivity].
Defined.

(** X17: a body that breaks off with [io.ErrUnexpectedEOF] before the
    advertised length is treated differently by the two read paths: when
    the length is within the pool's buffer count the bytes received so far
    are returned as a success, otherwise the download fails with
    [read failed]. *)
Theorem truncated_body_depends_on_read_path x d url bp resp :
  pool.sound bp ->
  HasPrefix url "http://" || HasPrefix url "https://" = true ->
  http_Do x url = Resp resp ->
  StatusCode resp = 200 ->
  ContentLength resp <= maxSize d ->
  r_data (Body resp) <> [] ->
  Z.of_nat (length (r_data (Body resp))) < ContentLength resp ->
  r_err (Body resp) = Some ErrUnexpectedEOF ->
  exists res bp',
    Download x d url bp = Ret (res, bp')
    /\ if ContentLength resp <=? pool.allocated bp
       then dl_err res = None /\ dl_data res = r_data (Body resp)
       else dl_err res = Some ("read failed: " ++ ErrUnexpectedEOF)%string.
Proof.
  intros Hs Hurl Hdo Hst Hmax Hne Hshort Herr. unfold Download.
  rewrite (valid_url_nonempty _ Hurl), (valid_url_scheme _ Hurl), Hdo, Hst.
  cbn [Z.eqb Pos.eqb negb].
  replace (maxSize d <? ContentLength resp) with false
    by (symmetry; apply Z.ltb_ge; lia).
  replace (0 <? ContentLength resp) with true
    by (symmetry; apply Z.ltb_lt; lia).
  cbn [andb pool.GetStats pool.Allocated].
  destruct (ContentLength resp <=? pool.allocated bp) eqn:Hal.
  - apply Z.leb_le in Hal. pose proof Hs as (_ & _ & Hrange & Hlim).
    destruct (borrow_and_return (pool_serves x bp) (ContentLength resp) bp Hs)
      as (buf & src & bp1 & bp2 & HG & Hlen & _ & HP & _ & _);
      [split; [lia | apply int32_below_maxAlloc; lia] | apply Hlim; lia |].
    rewrite HG, Hlen, HP. unfold ReadFull.
    replace (ContentLength resp <=? Z.of_nat (length (r_data (Body resp))))
      with false by (symmetry; apply Z.leb_gt; lia).
    rewrite firstn_all2 by lia. rewrite Herr.
    destruct (r_data (Body resp)) as [|b0 rest] eqn:Hd; [congruence|].
    eexists _, bp2. split; [reflexivity|].
    cbn. split; reflexivity.
  - unfold ReadAll_Limit.
    replace (maxSize d <=? 0) with false by (symmetry; apply Z.leb_gt; lia).
    replace (maxSize d <=? Z.of_nat (length (r_data (Body resp))))
      with false by (symmetry; apply Z.leb_gt; lia).
    rewrite Herr. eexists _, bp. split; reflexivity.
Qed.

Lemma truncated_body_depends_on_read_path_witness :
  exists res bp',
    Download
      (scenario.world
         (Resp (mkResponse 200 3
                  (mkReader [Byte.x41; Byte.x42] (Some ErrUnexpectedEOF)))) "")
      (NewDownloader 0 0) "http://host/a.bin"
      (pool.prealloc 4 8 (pool.mkBufferPool [] 8 0 0 0 0))
    = Ret (res, bp')
    /\ dl_err res = None /\ dl_data res = [Byte.x41; Byte.x42].
Proof.
  apply (truncated_body_depends_on_read_path
           (scenario.world
              (Resp (mkResponse 200 3
                       (mkReader [Byte.x41; Byte.x42]
                          (Some ErrUnexpectedEOF)))) "")
           (NewDownloader 0 0) "http://host/a.bin"
           (pool.prealloc 4 8 (pool.mkBufferPool [] 8 0 0 0 0))
           (mkResponse 200 3
              (mkReader [Byte.x41; Byte.x42] (Some ErrUnexpectedEOF)))).
  - vm_compute. split; [discriminate|]. split.
    { repeat (constructor; [repeat split; discriminate|]). constructor. }
    split; [split; [discriminate | reflexivity] | intros _; discriminate].
  - reflexivity.
  - reflexivity.
  - reflexivity.
  - vm_compute. discriminate.
  - discriminate.
  - vm_compute. reflexivity.
  - reflexivity.
Defined.

End DownloaderMore.


(** ** Converters: parameter envelopes and file effects *)

Section ConverterMore.
Import go services.

Lemma draw_in_range x n pos :
  0 < n ->
  exists k, draw x n pos = Ret (k, S pos) /\ 0 <= k < n.
Proof.
  intros Hn. unfold draw, Intn.
  replace (n <=? 0) with false by (symmetry; apply Z.leb_gt; exact Hn).
  eexists. split; [reflexivity|]. apply Z.mod_pos_bound. exact Hn.
Qed.

Ltac next_draw x :=
  match goal with
  | |- context [draw x ?n ?p] =>
      let k := fresh "k" in
      let Hd := fresh "Hd" in
      let Hk := fresh "Hk" in
      destruct (draw_in_range x n p) as (k & Hd & Hk); [lia|];
      rewrite Hd; cbn [bind]
  end.

(** X18: the image parameters are drawn without ever panicking, whatever
    the generator yields and whatever the level and format strings are, and
    they stay within the ranges ffmpeg is given: quality 85..92, PNG
    compression level 4..7, JPEG qscale 2..4, noise strength at most 7 and
    at most 3 for a PNG input; at most seven draws are consumed. *)
Theorem image_params_envelope x level format pos :
  exists ps pos',
    ImageConverter.getRandomizedParams x level format pos = Ret (ps, pos')
    /\ 85 <= ImageConverter.quality ps <= 92
    /\ 4 <= ImageConverter.compressionLevel ps <= 7
    /\ 2 <= ImageConverter.jpegQScale ps <= 4
    /\ 0 <= ImageConverter.noiseStrength ps <= 7
    /\ (format = "png"%string -> ImageConverter.noiseStrength ps <= 3)
    /\ (pos <= pos' <= pos + 7)%nat.
Proof.
  unfold ImageConverter.getRandomizedParams.
  destruct (String.eqb level "basic");
    [|destruct (String.eqb level "moderate");
      [|destruct (String.eqb level "paranoid")]].
  - do 3 next_draw x. eexists _, _. split; [reflexivity|].
    cbn. repeat split; try lia.
  - destruct (String.eqb_spec format "png") as [Hf|Hf];
      do 6 next_draw x; (eexists _, _; split; [reflexivity|]);
      cbn; repeat split; try lia; intros; congruence.
  - destruct (String.eqb_spec format "png") as [Hf|Hf];
      do 7 next_draw x; (eexists _, _; split; [reflexivity|]);
      cbn; repeat split; try lia; intros; congruence.
  - eexists _, _. split; [reflexivity|]. cbn. repeat split; try lia.
Qed.

(** X19: the audio parameters are drawn without ever panicking and stay
    within their ranges: an Opus bitrate of 68k..76k, compression level
    7..10 and a silence padding of at most 5 ms; at most five draws are
    consumed. *)
Theorem audio_params_envelope x level pos :
  exists ps pos' k,
    AudioConverter.getRandomizedParams x level pos = Ret (ps, pos')
    /\ AudioConverter.bitrate ps = (Itoa k ++ "k")%string
    /\ 68 <= k <= 76
    /\ 7 <= AudioConverter.compression ps <= 10
    /\ 0 <= AudioConverter.silencePadding ps <= 5
    /\ (pos <= pos' <= pos + 5)%nat.
Proof.
  unfold AudioConverter.getRandomizedParams.
  destruct (String.eqb level "basic");
    [|destruct (String.eqb level "moderate");
      [|destruct (String.eqb level "paranoid")]].
  - do 3 next_draw x. eexists _, _, _. split; [reflexivity|].
    cbn. repeat split; try lia.
  - do 4 next_draw x. eexists _, _, _. split; [reflexivity|].
    cbn. repeat split; try lia.
  - do 5 next_draw x. eexists _, _, _. split; [reflexivity|].
    cbn. repeat split; try lia.
  - eexists _, _, 72. split; [reflexivity|]. cbn. repeat split; try lia.
Qed.

(** *** Video bitrate *)

Lemma sample_bitrate_range x orig v pos :
  0 <= orig < 2 ^ 61 -> 1 <= v < 2 ^ 61 ->
  exists b,
    VideoConverter.sample_bitrate x orig v pos = Ret (b, S pos)
    /\ orig - v < b <= orig + v.
Proof.
  intros Ho Hv. unfold VideoConverter.sample_bitrate.
  assert (H61 : 2 ^ 63 = 4 * 2 ^ 61) by reflexivity.
  rewrite (wrap_small 64 (v * 2)) by (cbn [Z.sub Z.add Z.pos_sub Pos.pred_double]; lia).
  destruct (draw_in_range x (v * 2) pos) as (k & Hd & Hk); [lia|].
  rewrite Hd. cbn [bind].
  rewrite (wrap_small 64 (orig + v)) by (cbn [Z.sub Z.add Z.pos_sub Pos.pred_double]; lia).
  rewrite (wrap_small 64 (orig + v - k)) by (cbn [Z.sub Z.add Z.pos_sub Pos.pred_double]; lia).
  eexists. split; [reflexivity | lia].
Qed.

(** X20: when the variation computed from the probed bitrate is at least
    1 for every draw (and at most [V]), the video parameters are drawn
    without panicking at every level, and the target bitrate lies in
    [(orig - V, orig + V]]: the draw can reach the upper end but never the
    lower one.  The CRF stays in 21..25 and the keyframe interval in
    220..280. *)
Theorem video_params_envelope x level orig V pos :
  0 <= orig < 2 ^ 61 -> V < 2 ^ 61 ->
  (forall base r,
     In base [0.05%float; 0.08%float; 0.10%float] -> 0 <= r < 6 ->
     1 <= VideoConverter.bitrateVariation orig base r <= V) ->
  exists ps pos',
    VideoConverter.getRandomizedParams x level orig pos = Ret (ps, pos')
    /\ orig - V < VideoConverter.bitrate ps <= orig + V
    /\ 21 <= VideoConverter.crf ps <= 25
    /\ 220 <= VideoConverter.keyframeInterval ps <= 280.
Proof.
  intros Ho HV Hvar.
  assert (H1 : 1 <= V).
  { specialize (Hvar 0.05%float 0 (or_introl eq_refl)). lia. }
  unfold VideoConverter.getRandomizedParams.
  destruct (String.eqb level "basic");
    [|destruct (String.eqb level "moderate");
      [|destruct (String.eqb level "paranoid")]].
  - next_draw x.
    specialize (Hvar 0.05%float k (or_introl eq_refl) ltac:(lia)).
    destruct (sample_bitrate_range x orig
                (VideoConverter.bitrateVariation orig 0.05 k) (S pos))
      as (b & Hb & Hr); [lia | lia |].
    rewrite Hb. cbn [bind]. do 2 next_draw x.
    eexists _, _. split; [reflexivity|]. cbn. lia.
  - next_draw x.
    specialize (Hvar 0.08%float k (or_intror (or_introl eq_refl)) ltac:(lia)).
    destruct (sample_bitrate_range x orig
                (VideoConverter.bitrateVariation orig 0.08 k) (S pos))
      as (b & Hb & Hr); [lia | lia |].
    rewrite Hb. cbn [bind]. do 6 next_draw x.
    eexists _, _. split; [reflexivity|]. cbn. lia.
  - next_draw x.
    specialize (Hvar 0.10%float k
                  (or_intror (or_intror (or_introl eq_refl))) ltac:(lia)).
    destruct (sample_bitrate_range x orig
                (VideoConverter.bitrateVariation orig 0.10 k) (S pos))
      as (b & Hb & Hr); [lia | lia |].
    rewrite Hb. cbn [bind]. do 7 next_draw x.
    eexists _, _. split; [reflexivity|]. cbn. lia.
  - eexists _, _. split; [reflexivity|]. cbn. lia.
Qed.

Lemma video_params_envelope_witness :
  exists ps pos',
    VideoConverter.getRandomizedParams (scenario.world scenario.offline "")
      "paranoid" 2000 0 = Ret (ps, pos')
    /\ 2000 - 300 < VideoConverter.bitrate ps <= 2000 + 300
    /\ 21 <= VideoConverter.crf ps <= 25
    /\ 220 <= VideoConverter.keyframeInterval ps <= 280.
Proof.
  apply (video_params_envelope (scenario.world scenario.offline "")
           "paranoid" 2000 300 0).
  - lia.
  - lia.
  - intros base r Hb Hr.
    assert (Hc : r = 0 \/ r = 1 \/ r = 2 \/ r = 3 \/ r = 4 \/ r = 5) by lia.
    destruct Hb as [<-|[<-|[<-|[]]]];
      destruct Hc as [->|[->|[->|[->|[->| ->]]]]];
      vm_compute; split; discriminate.
Defined.

(** *** Output paths *)

Lemma EncodeToString_length bs :
  String.length (EncodeToString bs) = (2 * length bs)%nat.
Proof.
  induction bs as [|b r IH]; [reflexivity|].
  cbn [EncodeToString String.length length]. rewrite IH. lia.
Qed.

Lemma md5_Sum_length msg : length (md5_Sum msg) = 16%nat.
Proof.
  unfold md5_Sum.
  destruct (md5_blocks _ _ _) as [[[a b] c] d].
  rewrite !length_app. unfold le_bytes. rewrite !length_map, !length_seq.
  reflexivity.
Qed.

Lemma hashURL_length url : String.length (handlers.hashURL url) = 32%nat.
Proof.
  unfold handlers.hashURL. rewrite EncodeToString_length, md5_Sum_length.
  reflexivity.
Qed.

(** X21: the hash the handler computes from a URL is always 32 characters
    long, so the [urlHash[:8]] of [GenerateOutputPath] is always in range:
    with that hash, generating the output path never panics, and it yields
    a path for exactly the three supported media types. *)
Theorem generate_output_path_total clk mediaType dir deviceID url :
  exists out,
    handlers.generate_output_path clk mediaType dir deviceID
      (handlers.hashURL url) = Ret out
    /\ (out = None <->
        mediaType <> "audio" /\ mediaType <> "image"
        /\ mediaType <> "video")%string.
Proof.
  unfold handlers.generate_output_path,
    AudioConverter.GenerateOutputPath, ImageConverter.GenerateOutputPath,
    VideoConverter.GenerateOutputPath, output_path.
  rewrite hashURL_length. cbn [Nat.ltb Nat.leb bind].
  destruct (String.eqb_spec mediaType "audio") as [->|Ha].
  { eexists. split; [reflexivity|]. split; [discriminate|].
    intros [H _]. congruence. }
  destruct (String.eqb_spec mediaType "image") as [->|Hi].
  { eexists. split; [reflexivity|]. split; [discriminate|].
    intros (_ & H & _). congruence. }
  destruct (String.eqb_spec mediaType "video") as [->|Hv].
  { eexists. split; [reflexivity|]. split; [discriminate|].
    intros (_ & _ & H). congruence. }
  eexists. split; [reflexivity|]. split; [auto | reflexivity].
Qed.

Lemma list_ascii_of_string_app (a b : string) :
  list_ascii_of_string (a ++ b)
  = (list_ascii_of_string a ++ list_ascii_of_string b)%list.
Proof. induction a as [|c a IH]; simpl; [reflexivity | f_equal; exact IH]. Qed.

Lemma substring_app_head (b s : string) :
  String.substring 0 (String.length b) (b ++ s) = b.
Proof.
  induction b as [|c b IH]; simpl.
  - destruct s; reflexivity.
  - f_equal. exact IH.
Qed.

Lemma TrimSuffix_app (b s : string) : TrimSuffix (b ++ s) s = b.
Proof.
  unfold TrimSuffix. rewrite HasSuffix_app, length_append.
  replace (String.length b + String.length s - String.length s)%nat
    with (String.length b) by lia.
  apply substring_app_head.
Qed.

Lemma Ext_app_extension (b e : string) :
  e = ".png"%string \/ e = ".webp"%string \/ e = ".jpg"%string ->
  Ext (b ++ e) = e.
Proof.
  intros He. unfold Ext. rewrite list_ascii_of_string_app, rev_app_distr.
  destruct He as [->|[->| ->]]; reflexivity.
Qed.

Lemma adjustOutputPath_cases path format :
  exists e,
    (e = ".png" \/ e = ".webp" \/ e = ".jpg")%string
    /\ ImageConverter.adjustOutputPath path format
       = (TrimSuffix path (Ext path) ++ e)%string.
Proof.
  unfold ImageConverter.adjustOutputPath.
  destruct (String.eqb format "png"); [eauto|].
  destruct (String.eqb format "webp"); eauto.
Qed.

Lemma adjustOutputPath_app (b e format : string) :
  e = ".png"%string \/ e = ".webp"%string \/ e = ".jpg"%string ->
  ImageConverter.adjustOutputPath (b ++ e) format
  = (b ++ (if String.eqb format "png" then ".png"
           else if String.eqb format "webp" then ".webp" else ".jpg"))%string.
Proof.
  intros He. unfold ImageConverter.adjustOutputPath.
  rewrite (Ext_app_extension b e He), TrimSuffix_app.
  destruct (String.eqb format "png"); [reflexivity|].
  destruct (String.eqb format "webp"); reflexivity.
Qed.

(** X22: adjusting an output path twice is adjusting it once with the
    last format: the extension [adjustOutputPath] appends is the one it
    strips again, whatever the path. *)
Theorem adjustOutputPath_twice path f g :
  ImageConverter.adjustOutputPath (ImageConverter.adjustOutputPath path f) g
  = ImageConverter.adjustOutputPath path g.
Proof.
  destruct (adjustOutputPath_cases path f) as (e & He & ->).
  rewrite (adjustOutputPath_app _ e g He).
  unfold ImageConverter.adjustOutputPath.
  destruct (String.eqb g "png"); [reflexivity|].
  destruct (String.eqb g "webp"); reflexivity.
Qed.

(** X23: a path that ends in [.jpg], as every path the image converter
    generates is built, is left as it is for every format but png and
    webp, and gets the extension [.png] or [.webp] in place of [.jpg] for
    these two. *)
Theorem adjustOutputPath_of_jpg_path base format :
  ImageConverter.adjustOutputPath
    (base ++ ImageConverter.GetOutputExtension) format
  = if String.eqb format "png" then (base ++ ".png")%string
    else if String.eqb format "webp" then (base ++ ".webp")%string
    else (base ++ ImageConverter.GetOutputExtension)%string.
Proof.
  unfold ImageConverter.GetOutputExtension.
  rewrite (adjustOutputPath_app base ".jpg" format) by auto.
  destruct (String.eqb format "png"); [reflexivity|].
  destruct (String.eqb format "webp"); reflexivity.
Qed.

(** *** What a conversion does to the process *)

Lemma run_and_persist_effect x t0 t1 args input path st err st' :
  run_and_persist x t0 t1 args input path st = Ret (err, st') ->
  cs_rand st' = cs_rand st
  /\ match err with
     | None =>
         TotalConversions (cs_stats st')
         = int64_add (TotalConversions (cs_stats st)) 1
         /\ FailedConversions (cs_stats st') = FailedConversions (cs_stats st)
         /\ exists o, o <> [] /\ cs_files st' = <[path := o]> (cs_files st)
     | Some _ =>
         TotalConversions (cs_stats st') = TotalConversions (cs_stats st)
         /\ FailedConversions (cs_stats st')
            = int64_add (FailedConversions (cs_stats st)) 1
         /\ (forall q, q <> path -> cs_files st' !! q = cs_files st !! q)
         /\ (write_failure x path = None -> cs_files st' = cs_files st)
     end.
Proof.
  unfold run_and_persist, fail_with.
  destruct (exit_error (ffmpeg x args input)).
  { intros H; inversion H; subst. cbn. auto. }
  destruct (stdout (ffmpeg x args input)) as [|b0 rest] eqn:Ho.
  { intros H; inversion H; subst. cbn. auto. }
  unfold WriteFile.
  destruct (write_failure x path) as [[e|e written]|].
  - intros H; inversion H; subst. cbn.
    split; [reflexivity|]. split; [reflexivity|]. split; [reflexivity|].
    split; [reflexivity | discriminate].
  - intros H; inversion H; subst. cbn.
    split; [reflexivity|]. split; [reflexivity|]. split; [reflexivity|].
    split; [|discriminate].
    intros q Hq. apply lookup_insert_ne. congruence.
  - unfold recordSuccess.
    destruct (int64_add (TotalConversions (cs_stats st)) 1 =? 0);
      [discriminate|].
    cbn [bind]. intros H; inversion H; subst. cbn.
    split; [reflexivity|]. split; [reflexivity|]. split; [reflexivity|].
    exists (b0 :: rest). split; [discriminate | reflexivity].
Qed.

(** X24: with non-negative figures that do not overflow an [int64],
    [recordSuccess] counts the conversion and moves the average to a value
    between the old average and the new duration; the first success sets
    it to the duration itself. *)
Theorem recordSuccess_average d st :
  0 <= d ->
  0 <= AvgConversionTime st ->
  0 <= TotalConversions st < 2 ^ 62 ->
  AvgConversionTime st * TotalConversions st + d < 2 ^ 63 ->
  exists st',
    recordSuccess d st = Ret st'
    /\ TotalConversions st' = TotalConversions st + 1
    /\ FailedConversions st' = FailedConversions st
    /\ Z.min (AvgConversionTime st) d <= AvgConversionTime st'
       <= Z.max (AvgConversionTime st) d
    /\ (TotalConversions st = 0 -> AvgConversionTime st' = d).
Proof.
  intros Hd Ha Ht Hsum. unfold recordSuccess.
  set (a := AvgConversionTime st) in *. set (n := TotalConversions st) in *.
  assert (H62 : 2 ^ 63 = 2 * 2 ^ 62) by reflexivity.
  assert (Hn1 : int64_add n 1 = n + 1) by (apply int64_add_small; lia).
  rewrite Hn1.
  replace (n + 1 =? 0) with false by (symmetry; apply Z.eqb_neq; lia).
  replace (n + 1 - 1) with n by lia.
  assert (Hw : forall z, 0 <= z < 2 ^ 63 -> wrap 64 z = z).
  { intros z Hz. apply wrap_small; [lia|].
    change (2 ^ (64 - 1)) with (2 ^ 63). lia. }
  assert (Han : 0 <= a * n) by nia.
  rewrite (Hw n) by lia. rewrite (Hw (a * n)) by lia.
  assert (Hs : int64_add (a * n) d = a * n + d)
    by (apply int64_add_small; lia).
  rewrite Hs. rewrite Z.quot_div_nonneg by lia.
  assert (Hlo : Z.min a d <= (a * n + d) / (n + 1)).
  { apply Z.div_le_lower_bound; [lia|].
    destruct (Z.min_spec a d) as [[? ->]|[? ->]]; nia. }
  assert (Hhi : (a * n + d) / (n + 1) <= Z.max a d).
  { apply Z.lt_succ_r. apply Z.div_lt_upper_bound; [lia|].
    destruct (Z.max_spec a d) as [[? ->]|[? ->]]; nia. }
  assert (Hq : 0 <= (a * n + d) / (n + 1)) by (apply Z.div_pos; lia).
  assert (Hq2 : (a * n + d) / (n + 1) < 2 ^ 63).
  { apply Z.div_lt_upper_bound; [lia|]. nia. }
  rewrite (Hw ((a * n + d) / (n + 1))) by lia.
  eexists. split; [reflexivity|]. cbn.
  split; [reflexivity|]. split; [reflexivity|]. split; [lia|].
  intros H0. fold n in H0. rewrite H0.
  replace (a * 0 + d) with d by lia. apply Z.div_1_r.
Qed.

Lemma recordSuccess_average_witness :
  exists st',
    recordSuccess 40 (mkStats 3 1 20) = Ret st'
    /\ TotalConversions st' = 3 + 1
    /\ FailedConversions st' = 1
    /\ Z.min 20 40 <= AvgConversionTime st' <= Z.max 20 40
    /\ (3 = 0 -> AvgConversionTime st' = 40).
Proof.
  apply (recordSuccess_average 40 (mkStats 3 1 20)).
  - lia.
  - cbn. lia.
  - cbn. lia.
  - cbn. lia.
Defined.

End ConverterMore.


(** ** Request handler: what a request does to the process *)

Section HandlerMore.
Import go handlers.

Lemma audio_Convert_effect x t0 t1 input level out st err st' :
  input <> [] ->
  services.AudioConverter.Convert x t0 t1 input level out st = Ret (err, st') ->
  match err with
  | None =>
      services.TotalConversions (services.cs_stats st')
      = int64_add (services.TotalConversions (services.cs_stats st)) 1
      /\ services.FailedConversions (services.cs_stats st')
         = services.FailedConversions (services.cs_stats st)
      /\ exists o, o <> [] /\ services.cs_files st'
                              = <[out := o]> (services.cs_files st)
  | Some _ =>
      services.TotalConversions (services.cs_stats st')
      = services.TotalConversions (services.cs_stats st)
      /\ services.FailedConversions (services.cs_stats st')
         = int64_add (services.FailedConversions (services.cs_stats st)) 1
      /\ (forall q,
            q <> out ->
            services.cs_files st' !! q = services.cs_files st !! q)
      /\ (services.write_failure x out = None ->
          services.cs_files st' = services.cs_files st)
  end.
Proof.
  intros Hne. unfold services.AudioConverter.Convert.
  destruct input as [|b0 rest]; [congruence|].
  destruct (services.AudioConverter.getRandomizedParams _ _ _) as [[ps pos]|];
    [|discriminate].
  cbn [services.bind]. intros H.
  apply run_and_persist_effect in H. exact (proj2 H).
Qed.

Lemma image_Convert_effect x t0 t1 input level out st err st' :
  input <> [] ->
  services.ImageConverter.Convert x t0 t1 input level out st = Ret (err, st') ->
  match err with
  | None =>
      services.TotalConversions (services.cs_stats st')
      = int64_add (services.TotalConversions (services.cs_stats st)) 1
      /\ services.FailedConversions (services.cs_stats st')
         = services.FailedConversions (services.cs_stats st)
      /\ exists o,
           o <> []
           /\ services.cs_files st'
              = <[services.ImageConverter.adjustOutputPath out
                    (services.ImageConverter.outputFormat_of
                       (services.ImageConverter.detectFormat input)) := o]>
                  (services.cs_files st)
  | Some _ =>
      services.TotalConversions (services.cs_stats st')
      = services.TotalConversions (services.cs_stats st)
      /\ services.FailedConversions (services.cs_stats st')
         = int64_add (services.FailedConversions (services.cs_stats st)) 1
      /\ (forall q,
            q <> (services.ImageConverter.adjustOutputPath out
              (services.ImageConverter.outputFormat_of
                 (services.ImageConverter.detectFormat input))) ->
            services.cs_files st' !! q = services.cs_files st !! q)
      /\ (services.write_failure x (services.ImageConverter.adjustOutputPath out
              (services.ImageConverter.outputFormat_of
                 (services.ImageConverter.detectFormat input))) = None ->
          services.cs_files st' = services.cs_files st)
  end.
Proof.
  intros Hne. unfold services.ImageConverter.Convert.
  destruct input as [|b0 rest]; [congruence|].
  destruct (services.ImageConverter.getRandomizedParams _ _ _ _)
    as [[ps pos]|]; [|discriminate].
  cbn [services.bind]. intros H.
  apply run_and_persist_effect in H. exact (proj2 H).
Qed.

Lemma video_Convert_effect x t0 t1 input level out st err st' :
  input <> [] ->
  services.VideoConverter.Convert x t0 t1 input level out st = Ret (err, st') ->
  match err with
  | None =>
      services.TotalConversions (services.cs_stats st')
      = int64_add (services.TotalConversions (services.cs_stats st)) 1
      /\ services.FailedConversions (services.cs_stats st')
         = services.FailedConversions (services.cs_stats st)
      /\ exists o, o <> [] /\ services.cs_files st'
                              = <[out := o]> (services.cs_files st)
  | Some _ =>
      services.TotalConversions (services.cs_stats st')
      = services.TotalConversions (services.cs_stats st)
      /\ services.FailedConversions (services.cs_stats st')
         = int64_add (services.FailedConversions (services.cs_stats st)) 1
      /\ (forall q,
            q <> out ->
            services.cs_files st' !! q = services.cs_files st !! q)
      /\ (services.write_failure x out = None ->
          services.cs_files st' = services.cs_files st)
  end.
Proof.
  intros Hne. unfold services.VideoConverter.Convert.
  destruct input as [|b0 rest]; [congruence|].
  destruct (services.VideoConverter.getRandomizedParams _ _ _ _)
    as [[ps pos]|]; [|discriminate].
  cbn [services.bind].
  destruct (String.eqb level "none" || String.eqb level "basic").
  - cbn [services.bind]. intros H.
    apply run_and_persist_effect in H. exact (proj2 H).
  - destruct (services.draw x 16 pos) as [[a pos']|]; [|discriminate].
    cbn [services.bind]. intros H.
    apply run_and_persist_effect in H. exact (proj2 H).
Qed.

(** X25: a conversion of non-empty input is counted exactly once, in the
    statistics of its own converter: a success adds one to
    [TotalConversions] and writes one non-empty file, at the output path
    for audio and video and at the adjusted path for an image; a failure
    adds one to [FailedConversions] and changes no file other than that
    path, and it leaves that path alone as well unless the write of the
    file is what failed, which can leave a new or truncated file there.
    Cache, pool and sleeping deleters are not touched either way. *)
Theorem conversion_accounting x clk mt input level out p err p' :
  (mt = "audio" \/ mt = "image" \/ mt = "video")%string ->
  input <> [] ->
  dispatch x clk mt input level out p = Ret (err, p') ->
  let stats q :=
    if String.eqb mt "audio" then p_audio q
    else if String.eqb mt "image" then p_image q else p_video q in
  let path :=
    if String.eqb mt "image"
    then services.ImageConverter.adjustOutputPath out
           (services.ImageConverter.outputFormat_of
              (services.ImageConverter.detectFormat input))
    else out in
  p_cache p' = p_cache p /\ p_pool p' = p_pool p
  /\ p_sleeping p' = p_sleeping p
  /\ match err with
     | None =>
         services.TotalConversions (stats p')
         = int64_add (services.TotalConversions (stats p)) 1
         /\ services.FailedConversions (stats p')
            = services.FailedConversions (stats p)
         /\ exists o, o <> [] /\ p_files p' = <[path := o]> (p_files p)
     | Some _ =>
         services.TotalConversions (stats p')
         = services.TotalConversions (stats p)
         /\ services.FailedConversions (stats p')
            = int64_add (services.FailedConversions (stats p)) 1
         /\ (forall q, q <> path -> p_files p' !! q = p_files p !! q)
         /\ (services.write_failure x path = None -> p_files p' = p_files p)
     end.
Proof.
  intros Hmt Hne. unfold dispatch, services.bind.
  destruct Hmt as [->|[->| ->]]; cbn [String.eqb Ascii.eqb Bool.eqb].
  - destruct (services.AudioConverter.Convert _ _ _ _ _ _ _) as [[e st]|] eqn:HC;
      [|discriminate].
    intros H; inversion H; subst e p'. cbn.
    apply audio_Convert_effect in HC; [|exact Hne].
    split; [reflexivity|]. split; [reflexivity|]. split; [reflexivity|].
    exact HC.
  - destruct (services.ImageConverter.Convert _ _ _ _ _ _ _) as [[e st]|] eqn:HC;
      [|discriminate].
    intros H; inversion H; subst e p'. cbn.
    apply image_Convert_effect in HC; [|exact Hne].
    split; [reflexivity|]. split; [reflexivity|]. split; [reflexivity|].
    exact HC.
  - destruct (services.VideoConverter.Convert _ _ _ _ _ _ _) as [[e st]|] eqn:HC;
      [|discriminate].
    intros H; inversion H; subst e p'. cbn.
    apply video_Convert_effect in HC; [|exact Hne].
    split; [reflexivity|]. split; [reflexivity|]. split; [reflexivity|].
    exact HC.
Qed.

Lemma conversion_accounting_witness :
  match dispatch (scenario.world scenario.offline "") (scenario.ticking 0)
          "audio" [Byte.x41] "none" "/tmp/media-cache/audios/a.opus"
          scenario.fresh_process
  with
  | Ret (err, p') =>
      p_cache p' = p_cache scenario.fresh_process
      /\ p_pool p' = p_pool scenario.fresh_process
      /\ p_sleeping p' = p_sleeping scenario.fresh_process
      /\ match err with
         | None =>
             services.TotalConversions (p_audio p')
             = int64_add
                 (services.TotalConversions (p_audio scenario.fresh_process)) 1
             /\ services.FailedConversions (p_audio p')
                = services.FailedConversions (p_audio scenario.fresh_process)
             /\ exists o,
                  o <> []
                  /\ p_files p'
                     = <["/tmp/media-cache/audios/a.opus"%string := o]>
                         (p_files scenario.fresh_process)
         | Some _ =>
             services.TotalConversions (p_audio p')
             = services.TotalConversions (p_audio scenario.fresh_process)
             /\ services.FailedConversions (p_audio p')
                = int64_add
                    (services.FailedConversions
                       (p_audio scenario.fresh_process)) 1
             /\ (forall q,
                   q <> "/tmp/media-cache/audios/a.opus"%string ->
                   p_files p' !! q = p_files scenario.fresh_process !! q)
             /\ (services.write_failure (scenario.world scenario.offline "")
                   "/tmp/media-cache/audios/a.opus" = None ->
                 p_files p' = p_files scenario.fresh_process)
         end
  | Panic _ => False
  end.
Proof.
  destruct (dispatch (scenario.world scenario.offline "") (scenario.ticking 0)
              "audio" [Byte.x41] "none" "/tmp/media-cache/audios/a.opus"
              scenario.fresh_process) as [[err p']|m] eqn:H.
  - apply (conversion_accounting (scenario.world scenario.offline "")
             (scenario.ticking 0) "audio" [Byte.x41] "none"
             "/tmp/media-cache/audios/a.opus" scenario.fresh_process err p').
    + left. reflexivity.
    + discriminate.
    + exact H.
  - vm_compute in H. discriminate.
Defined.

(** X26: a request without device id, without URL, or without media type
    and with a URL in which [detectMediaType] recognises no extension
    (the URL lower-cased as [strings.ToLower] does it, through the case
    tables of the runtime when it has non-ASCII bytes), is answered 400
    before anything is looked up, fetched or converted: the process is
    left exactly as it was. *)
Theorem Convert_rejects_before_any_work x h clk dl req p :
  DeviceID req = ""%string \/ URL req = ""%string
  \/ (MediaType req = ""%string /\ detectMediaType x (URL req) = ""%string) ->
  exists e d, Convert x h clk dl req p = Ret (ErrorResponse 400 e d, p).
Proof.
  intros H. unfold Convert.
  destruct (String.eqb_spec (DeviceID req) ""); [eauto|].
  destruct (String.eqb_spec (URL req) ""); [eauto|].
  destruct H as [H|[H|[H1 H2]]]; [congruence | congruence |].
  rewrite H1, H2. cbn [String.eqb]. eauto.
Qed.

Lemma Convert_rejects_before_any_work_witness :
  exists e d,
    Convert (scenario.world scenario.offline "") scenario.default_handler
      (scenario.ticking 0) false
      (mkRequest "d1" "http://host/file.bin" "" "" false)
      scenario.fresh_process
    = Ret (ErrorResponse 400 e d, scenario.fresh_process).
Proof.
  apply (Convert_rejects_before_any_work
           (scenario.world scenario.offline "") scenario.default_handler
           (scenario.ticking 0) false
           (mkRequest "d1" "http://host/file.bin" "" "" false)
           scenario.fresh_process).
  right. right. split; [reflexivity | vm_compute; reflexivity].
Defined.

(** X27: a request whose device and URL have an entry that has not
    passed its cache expiry, with the file still on disk, is answered from
    the cache alone: nothing is downloaded or converted, whatever the
    network and the transcoder would do.  The reply says [cache_hit], gives
    the path, media type and expirations of the entry (not the media type
    of the request) and an original size of 0; the process changes in the
    cache only. *)
Theorem cache_hit_short_circuits x h clk req p e data :
  DeviceID req <> ""%string -> URL req <> ""%string ->
  (if String.eqb (MediaType req) "" then detectMediaType x (URL req)
   else MediaType req) <> ""%string ->
  cache.lookup (DeviceID req) (cache.hashURL (URL req)) (p_cache p) = Some e ->
  t_lookup clk <= cache.CacheExpires e ->
  p_files p !! cache.ProcessedPath e = Some data ->
  Convert x h clk false req p
  = Ret (JSON (mkConvertResponse (cache.ProcessedPath e) true
                 (cache.MediaType e) 0 (Z.of_nat (length data)) None
                 (millis_since (t_start clk) (t_hit_reply clk))
                 (Some (cache.CacheExpires e)) (Some (cache.FileExpires e))),
         set_cache
           (snd (cache.Get (t_lookup clk) (DeviceID req) (URL req) (p_cache p)))
           p).
Proof.
  intros Hd Hu Hm Hl Ht Hf. unfold Convert.
  destruct (String.eqb_spec (DeviceID req) ""); [congruence|].
  destruct (String.eqb_spec (URL req) ""); [congruence|].
  destruct (String.eqb_spec
              (if String.eqb (MediaType req) "" then detectMediaType x (URL req)
               else MediaType req) ""); [congruence|].
  cbn [DeviceID URL].
  unfold cache.lookup in Hl. unfold cache.Get.
  destruct (cache.cache (p_cache p) !! DeviceID req) as [sub|];
    [|discriminate].
  cbn in Hl. rewrite Hl. unfold After.
  replace (cache.CacheExpires e <? t_lookup clk) with false
    by (symmetry; apply Z.ltb_ge; exact Ht).
  cbn [set_cache p_files cache.bump_uses cache.ProcessedPath
       cache.MediaType cache.CacheExpires cache.FileExpires snd].
  unfold Stat. rewrite Hf. reflexivity.
Qed.

Lemma cache_hit_short_circuits_witness :
  Convert (scenario.world scenario.offline "") scenario.default_handler
    (scenario.ticking 5) false
    (mkRequest "d1" scenario.audio_url "audio" "none" false)
    (mkProcess {[ "/tmp/a.opus"%string := [Byte.x4f] ]}
       (scenario.cached_audio 0 "/tmp/a.opus"
          (cache.NewDeviceCache "/tmp/media-cache" 0 0))
       [] scenario.default_pool 0 scenario.no_stats scenario.no_stats
       scenario.no_stats)
  = Ret (JSON (mkConvertResponse "/tmp/a.opus" true "audio" 0 1 None
                 (millis_since 5 7) (Some (28 * Minute))
                 (Some (30 * Minute))),
         set_cache
           (snd (cache.Get 6 "d1" scenario.audio_url
                   (scenario.cached_audio 0 "/tmp/a.opus"
                      (cache.NewDeviceCache "/tmp/media-cache" 0 0))))
           (mkProcess {[ "/tmp/a.opus"%string := [Byte.x4f] ]}
              (scenario.cached_audio 0 "/tmp/a.opus"
                 (cache.NewDeviceCache "/tmp/media-cache" 0 0))
              [] scenario.default_pool 0 scenario.no_stats scenario.no_stats
              scenario.no_stats)).
Proof.
  apply (cache_hit_short_circuits (scenario.world scenario.offline "")
           scenario.default_handler (scenario.ticking 5)
           (mkRequest "d1" scenario.audio_url "audio" "none" false)
           (mkProcess {[ "/tmp/a.opus"%string := [Byte.x4f] ]}
              (scenario.cached_audio 0 "/tmp/a.opus"
                 (cache.NewDeviceCache "/tmp/media-cache" 0 0))
              [] scenario.default_pool 0 scenario.no_stats scenario.no_stats
              scenario.no_stats)
           (cache.mkCacheEntry "/tmp/a.opus" (28 * Minute) (30 * Minute) 0 0
              2048 "audio" scenario.audio_url)
           [Byte.x4f]).
  - discriminate.
  - discriminate.
  - discriminate.
  - vm_compute. reflexivity.
  - vm_compute. discriminate.
  - vm_compute. reflexivity.
Defined.

Lemma dispatch_sleeping x clk mt data level out p err p' :
  dispatch x clk mt data level out p = Ret (err, p') ->
  p_sleeping p' = p_sleeping p.
Proof.
  unfold dispatch, services.bind.
  destruct (String.eqb mt "audio").
  { destruct (services.AudioConverter.Convert _ _ _ _ _ _ _) as [[e st]|];
      [|discriminate]. intros H; inversion H; reflexivity. }
  destruct (String.eqb mt "image").
  { destruct (services.ImageConverter.Convert _ _ _ _ _ _ _) as [[e st]|];
      [|discriminate]. intros H; inversion H; reflexivity. }
  destruct (String.eqb mt "video").
  { destruct (services.VideoConverter.Convert _ _ _ _ _ _ _) as [[e st]|];
      [|discriminate]. intros H; inversion H; reflexivity. }
  intros H; inversion H; reflexivity.
Qed.

Lemma fetch_frame x h req p r p' :
  fetch x h req p = Ret (r, p') ->
  p_sleeping p' = p_sleeping p /\ p_files p' = p_files p
  /\ match r with inr rep => is_error rep = true | inl _ => True end.
Proof.
  unfold fetch, services.bind. destruct (IsBase64 req).
  - destruct (DecodeString (URL req)); intros H; inversion H; auto.
  - destruct (services.Download _ _ _ _) as [[res bp]|]; [|discriminate].
    destruct (services.dl_err res); intros H; inversion H; auto.
Qed.

Lemma sendFile_not_ErrorResponse x path mt status e d :
  sendFile x path mt <> ErrorResponse status e d.
Proof.
  unfold sendFile, ErrorHandler.
  destruct (services.SendFile_error x path) as [[code msg|txt]|];
    discriminate.
Qed.

Lemma convert_and_store_error x h clk dl req urlHash data p status e d p' :
  convert_and_store x h clk dl req urlHash data p
  = Ret (ErrorResponse status e d, p') ->
  p_cache p' = p_cache p /\ p_sleeping p' = p_sleeping p.
Proof.
  unfold convert_and_store, services.bind.
  destruct (services.mkdir_error x _);
    [intros H; inversion H; subst; auto|].
  destruct (generate_output_path _ _ _ _ _) as [[outputPath|]|];
    [| intros H; inversion H; subst; auto | discriminate].
  destruct (dispatch _ _ _ _ _ _ _) as [[err p1]|] eqn:Hd; [|discriminate].
  pose proof (dispatch_cache _ _ _ _ _ _ _ _ _ Hd) as Hc.
  pose proof (dispatch_sleeping _ _ _ _ _ _ _ _ _ Hd) as Hs.
  destruct err; [intros H; inversion H; subst; auto|].
  destruct (Stat (p_files p1) outputPath) as [processedSize|];
    [|intros H; inversion H; subst; auto].
  destruct (cache.Set_ _ _ _ _ _ _ _) as [dc2 dlt].
  destruct (cache.Get _ _ _ dc2) as [ce dc3].
  destruct dl; intros H; inversion H as [[Hr Hp]].
  exfalso. exact (sendFile_not_ErrorResponse _ _ _ _ _ _ Hr).
Qed.

(** X28: a request that the handler answers with one of its own error
    responses never adds an entry to the cache and never arms a deleter:
    every slot of the map holds what it held before (its use count
    apart), and the sleeping deleters are the same.  The error that
    [c.SendFile] may return in download mode is not such a response: it
    comes after the insertion. *)
Theorem error_response_caches_nothing x h clk dl req p status e d p' :
  Convert x h clk dl req p = Ret (ErrorResponse status e d, p') ->
  p_sleeping p' = p_sleeping p
  /\ forall dev k,
       cache.slot_kept (cache.lookup dev k (p_cache p))
         (cache.lookup dev k (p_cache p')).
Proof.
  unfold Convert.
  destruct (String.eqb (DeviceID req) "").
  { intros H; inversion H; subst. split; [reflexivity|].
    intros dev k. apply slot_kept_refl. }
  destruct (String.eqb (URL req) "").
  { intros H; inversion H; subst. split; [reflexivity|].
    intros dev k. apply slot_kept_refl. }
  destruct (String.eqb _ "").
  { intros H; inversion H; subst. split; [reflexivity|].
    intros dev k. apply slot_kept_refl. }
  cbn [DeviceID URL].
  pose proof (Get_frame (t_lookup clk) (DeviceID req) (URL req) (p_cache p))
    as Hframe.
  destruct (cache.Get (t_lookup clk) (DeviceID req) (URL req) (p_cache p))
    as [ce dc1]. cbn [snd] in Hframe.
  assert (Hmiss :
    forall rq uh,
      services.bind (fetch x h rq (set_cache dc1 p))
        (fun '(input, p2) =>
           match input with
           | inr r0 => Ret (r0, p2)
           | inl inputData =>
               convert_and_store x h clk dl rq uh inputData p2
           end) = Ret (ErrorResponse status e d, p') ->
      p_sleeping p' = p_sleeping p /\ p_cache p' = dc1).
  { intros rq uh. unfold services.bind.
    destruct (fetch _ _ _ _) as [[[inputData|r0] p2]|] eqn:Hf; [| |discriminate].
    - pose proof (fetch_cache _ _ _ _ _ _ Hf) as Hc.
      apply fetch_frame in Hf. destruct Hf as (Hs & _ & _).
      intros Hcs.
      destruct (convert_and_store_error _ _ _ _ _ _ _ _ _ _ _ _ Hcs)
        as [Hc2 Hs2].
      split; [rewrite Hs2, Hs; reflexivity | rewrite Hc2, Hc; reflexivity].
    - pose proof (fetch_cache _ _ _ _ _ _ Hf) as Hc.
      apply fetch_frame in Hf. destruct Hf as (Hs & _ & _).
      intros H; inversion H; subst. split; [exact Hs | exact Hc]. }
  destruct ce as [ent|].
  - destruct (Stat (p_files (set_cache dc1 p)) (cache.ProcessedPath ent)).
    + destruct dl; intros H; inversion H as [[Hr Hp]].
      exfalso. exact (sendFile_not_ErrorResponse _ _ _ _ _ _ Hr).
    + intros H. destruct (Hmiss _ _ H) as [Hs Hc].
      split; [exact Hs|]. intros dev k. rewrite Hc. apply Hframe.
  - intros H. destruct (Hmiss _ _ H) as [Hs Hc].
    split; [exact Hs|]. intros dev k. rewrite Hc. apply Hframe.
Qed.

Lemma error_response_caches_nothing_witness :
  match Convert (scenario.world scenario.offline "") scenario.default_handler
          (scenario.ticking 0) false
          (mkRequest "d1" scenario.audio_url "audio" "none" false)
          scenario.fresh_process
  with
  | Ret (ErrorResponse _ _ _, p') =>
      p_sleeping p' = p_sleeping scenario.fresh_process
      /\ forall dev k,
           cache.slot_kept
             (cache.lookup dev k (p_cache scenario.fresh_process))
             (cache.lookup dev k (p_cache p'))
  | _ => False
  end.
Proof.
  destruct (Convert (scenario.world scenario.offline "")
              scenario.default_handler (scenario.ticking 0) false
              (mkRequest "d1" scenario.audio_url "audio" "none" false)
              scenario.fresh_process) as [[r p']|m] eqn:H.
  - destruct r as [status e d|body|ct fn fp|status msg];
      try (vm_compute in H; discriminate).
    apply (error_response_caches_nothing
             (scenario.world scenario.offline "") scenario.default_handler
             (scenario.ticking 0) false
             (mkRequest "d1" scenario.audio_url "audio" "none" false)
             scenario.fresh_process status e d p').
    exact H.
  - vm_compute in H. discriminate.
Defined.

(** The exception: in download mode, when [c.SendFile] returns an error
    after a conversion, the client gets the answer of the error handler
    while the entry is in the cache and its deleter is armed. *)
Lemma SendFile_error_comes_after_caching :
  exists p' e dlt,
    Convert scenario.world_send_fails scenario.default_handler
      (scenario.ticking 0) true
      (mkRequest "d1" "AAAA" "audio" "none" true) scenario.fresh_process
    = Ret (AppError 500 "Internal Server Error", p')
    /\ cache.lookup "d1" (cache.hashURL "AAAA") (p_cache p') = Some e
    /\ p_sleeping p' = [dlt].
Proof.
  eexists _, _, _.
  split; [vm_compute; reflexivity|].
  split; [vm_compute; reflexivity|].
  vm_compute. reflexivity.
Qed.

(** X29: a media type other than audio, image and video is never
    converted: unless the cache already holds an entry for the device and
    URL, the reply is an error and no file is written, although the input
    is fetched first. *)
Theorem unsupported_media_type_never_succeeds x h clk dl req p r p' :
  MediaType req <> ""%string -> MediaType req <> "audio"%string ->
  MediaType req <> "image"%string -> MediaType req <> "video"%string ->
  cache.lookup (DeviceID req) (cache.hashURL (URL req)) (p_cache p) = None ->
  Convert x h clk dl req p = Ret (r, p') ->
  is_error r = true /\ p_files p' = p_files p.
Proof.
  intros H0 Ha Hi Hv Hl. unfold Convert.
  destruct (String.eqb (DeviceID req) "");
    [intros H; inversion H; subst; auto|].
  destruct (String.eqb (URL req) "");
    [intros H; inversion H; subst; auto|].
  destruct (String.eqb_spec (MediaType req) ""); [congruence|].
  destruct (String.eqb_spec (MediaType req) ""); [congruence|].
  cbn [DeviceID URL].
  assert (HG : fst (cache.Get (t_lookup clk) (DeviceID req) (URL req)
                      (p_cache p)) = None).
  { unfold cache.lookup in Hl. unfold cache.Get.
    destruct (cache.cache (p_cache p) !! DeviceID req) as [sub|];
      [|reflexivity].
    cbn in Hl. rewrite Hl. reflexivity. }
  destruct (cache.Get (t_lookup clk) (DeviceID req) (URL req) (p_cache p))
    as [ce dc1]. cbn [fst] in HG. subst ce.
  unfold services.bind.
  destruct (fetch _ _ _ _) as [[[inputData|r0] p2]|] eqn:Hf; [| |discriminate].
  - apply fetch_frame in Hf. destruct Hf as (_ & Hfs & _).
    unfold convert_and_store, generate_output_path, services.bind.
    cbn [MediaType DeviceID].
    destruct (services.mkdir_error x _);
      [intros H; inversion H; subst; auto|].
    destruct (String.eqb_spec (MediaType req) "audio"); [congruence|].
    destruct (String.eqb_spec (MediaType req) "image"); [congruence|].
    destruct (String.eqb_spec (MediaType req) "video"); [congruence|].
    intros H; inversion H; subst; auto.
  - apply fetch_frame in Hf. destruct Hf as (_ & Hfs & Herr).
    intros H; inversion H; subst; auto.
Qed.

Lemma unsupported_media_type_never_succeeds_witness :
  match Convert (scenario.world (services.Resp (scenario.ok_response 4 4)) "")
          scenario.default_handler (scenario.ticking 0) false
          (mkRequest "d1" "http://host/a.pdf" "document" "none" false)
          scenario.fresh_process
  with
  | Ret (r, p') =>
      is_error r = true /\ p_files p' = p_files scenario.fresh_process
  | Panic _ => False
  end.
Proof.
  destruct (Convert
              (scenario.world (services.Resp (scenario.ok_response 4 4)) "")
              scenario.default_handler (scenario.ticking 0) false
              (mkRequest "d1" "http://host/a.pdf" "document" "none" false)
              scenario.fresh_process) as [[r p']|m] eqn:H.
  - apply (unsupported_media_type_never_succeeds
             (scenario.world (services.Resp (scenario.ok_response 4 4)) "")
             scenario.default_handler (scenario.ticking 0) false
             (mkRequest "d1" "http://host/a.pdf" "document" "none" false)
             scenario.fresh_process r p').
    + discriminate.
    + discriminate.
    + discriminate.
    + discriminate.
    + reflexivity.
    + exact H.
  - vm_compute in H. discriminate.
Defined.

End HandlerMore.
